(** * sutr_backend: catalog, category and credential handlers

    A shallow embedding of the request handlers of the dress-catalog
    backend (models/model.js, middleware/auth.js, middleware/upload.js,
    routes/auth.js, routes/routes.js) and the properties its specification
    states about them.

    Conventions of the embedding:
    - JavaScript strings are [string]s of 8-bit characters; case mapping is
      the ASCII one.
    - Prices are exact rationals ([Q]); the integers produced by [parseInt]
      are unbounded ([Z]) next to the one non-number [NaN].
    - A collection of the document store is a finite map from the document
      id to the document.
    - An [async] handler is a computation over the server's world (the
      stores, the calls made to the asset host, the console) that either
      returns a value or throws; what the store and the asset host answer is
      read from an environment.  A handler that throws has sent no
      response.
    - The document layer is a library: [Odm] has its queries, casts, schema
      setters, validation and hooks as far as the handlers depend on them.
    - Body and query fields have the types the handlers expect of them. *)

From Stdlib Require Import ZArith QArith Qround String Ascii List Bool Lia DecimalString.
From Stdlib Require DecimalNat.
From stdpp Require Import base option list gmap strings.
Import ListNotations.

Local Open Scope string_scope.

(** ** JavaScript primitives used by the handlers *)

Module Js.

(** A character as its code unit. *)
Definition code (c : ascii) : N := N_of_ascii c.

Definition in_range (lo hi : N) (c : ascii) : bool :=
  ((lo <=? code c) && (code c <=? hi))%N.

Definition is_upper : ascii -> bool := in_range 65 90.
Definition is_lower : ascii -> bool := in_range 97 122.
Definition is_digit : ascii -> bool := in_range 48 57.

(** The character class [[a-zA-Z0-9]]. *)
Definition is_alnum (c : ascii) : bool := is_lower c || is_upper c || is_digit c.

Definition is_hyphen (c : ascii) : bool := Ascii.eqb c "-".

Definition lower_char (c : ascii) : ascii :=
  if is_upper c then ascii_of_N (code c + 32) else c.

(** [String.prototype.toLowerCase]. *)
Fixpoint toLowerCase (s : string) : string :=
  match s with
  | EmptyString => EmptyString
  | String c s' => String (lower_char c) (toLowerCase s')
  end.

(** [s.replace(/[^a-zA-Z0-9]/g, '-')]: every character outside the class
    is replaced, one by one. *)
Fixpoint replace_non_alnum (s : string) : string :=
  match s with
  | EmptyString => EmptyString
  | String c s' =>
      String (if is_alnum c then c else "-"%char) (replace_non_alnum s')
  end.

(** [s.replace(/-+/g, '-')]: every maximal run of hyphens becomes one
    hyphen.  A hyphen that is followed by a hyphen is dropped, so the last
    one of each run stays. *)
Fixpoint collapse_hyphens (s : string) : string :=
  match s with
  | EmptyString => EmptyString
  | String c s' =>
      if is_hyphen c then
        match s' with
        | String c' _ =>
            if is_hyphen c' then collapse_hyphens s'
            else String c (collapse_hyphens s')
        | EmptyString => String c EmptyString
        end
      else String c (collapse_hyphens s')
  end.

(** The [^-] alternative of [/^-|-$/g]: a hyphen at index 0. *)
Definition strip_leading_hyphen (s : string) : string :=
  match s with
  | String c s' => if is_hyphen c then s' else s
  | EmptyString => EmptyString
  end.

(** The [-$] alternative: a hyphen at the last index. *)
Fixpoint strip_trailing_hyphen (s : string) : string :=
  match s with
  | EmptyString => EmptyString
  | String c EmptyString => if is_hyphen c then EmptyString else s
  | String c s' => String c (strip_trailing_hyphen s')
  end.

(** [s.replace(/^-|-$/g, '')].  The global search takes the leading hyphen
    first and then, in what follows it, the trailing one. *)
Definition strip_edge_hyphens (s : string) : string :=
  strip_trailing_hyphen (strip_leading_hyphen s).

(** Truthiness of a number that is not [NaN]: everything but zero. *)
Definition truthy_num (q : Q) : bool := negb (Qeq_bool q 0).

(** Truthiness of a string: everything but the empty string. *)
Definition truthy_str (s : string) : bool := negb (String.eqb s "").

(** [Math.round]: the nearest integer, halves going up. *)
Definition Math_round (q : Q) : Z := Qfloor (q + (1 # 2)).

(** White space as [trim] and [parseInt] skip it: TAB, LF, VT, FF, CR and
    the space. *)
Definition is_space (c : ascii) : bool :=
  in_range 9 13 c || Ascii.eqb c " ".

Fixpoint trim_start (s : string) : string :=
  match s with
  | String c s' => if is_space c then trim_start s' else s
  | EmptyString => EmptyString
  end.

(** Drops the white space at the end: a character stays when it is not
    white space or when something stays after it. *)
Fixpoint trim_end (s : string) : string :=
  match s with
  | EmptyString => EmptyString
  | String c s' =>
      match trim_end s' with
      | EmptyString => if is_space c then EmptyString else String c EmptyString
      | t => String c t
      end
  end.

(** [String.prototype.trim]. *)
Definition trim (s : string) : string := trim_end (trim_start s).

(** *** Numbers: the integers and [NaN] *)

Inductive num := Num (z : Z) | NaN.

(** [Math.max] and [Math.min] answer [NaN] as soon as an argument is. *)
Definition Math_max (a b : num) : num :=
  match a, b with
  | Num x, Num y => Num (Z.max x y)
  | _, _ => NaN
  end.

Definition Math_min (a b : num) : num :=
  match a, b with
  | Num x, Num y => Num (Z.min x y)
  | _, _ => NaN
  end.

Definition sub (a b : num) : num :=
  match a, b with
  | Num x, Num y => Num (x - y)
  | _, _ => NaN
  end.

Definition mul (a b : num) : num :=
  match a, b with
  | Num x, Num y => Num (x * y)
  | _, _ => NaN
  end.

(** [a >= b]; every comparison with [NaN] is false. *)
Definition geb (a b : num) : bool :=
  match a, b with
  | Num x, Num y => (y <=? x)%Z
  | _, _ => false
  end.

Definition leb (a b : num) : bool := geb b a.

(** The value of a digit in a radix, when it is one. *)
Definition digit_value (radix : Z) (c : ascii) : option Z :=
  let v :=
    if is_digit c then Some (Z.of_N (code c) - 48)%Z
    else if is_lower c then Some (Z.of_N (code c) - 87)%Z
    else if is_upper c then Some (Z.of_N (code c) - 55)%Z
    else None in
  match v with
  | Some d => if (d <? radix)%Z then Some d else None
  | None => None
  end.

(** The longest prefix of digits, read from the left; [None] when it is
    empty. *)
Fixpoint digits (radix : Z) (acc : option Z) (s : string) : option Z :=
  match s with
  | EmptyString => acc
  | String c s' =>
      match digit_value radix c with
      | Some d =>
          digits radix (Some (match acc with Some a => a * radix + d | None => d end)%Z) s'
      | None => acc
      end
  end.

(** [parseInt(s)] without a radix: white space, a sign, [0x] or [0X] for
    base 16, then the digits; [NaN] when there is none. *)
Definition parseInt (s : string) : num :=
  let s1 := trim_start s in
  let '(sign, s2) :=
    match s1 with
    | String "-" r => ((-1)%Z, r)
    | String "+" r => (1%Z, r)
    | _ => (1%Z, s1)
    end in
  let '(radix, s3) :=
    match s2 with
    | String "0" (String "x" r) => (16%Z, r)
    | String "0" (String "X" r) => (16%Z, r)
    | _ => (10%Z, s2)
    end in
  match digits radix None s3 with
  | Some n => Num (sign * n)
  | None => NaN
  end.

(** [Math.ceil(total / limit)] for a count and a limit.  The limit of a
    request is never 0; the quotient by 0 is not a number of this model. *)
Definition ceil_div (total : Z) (limit : num) : num :=
  match limit with
  | Num l => if (l =? 0)%Z then NaN else Num (Qceiling (inject_Z total / inject_Z l))
  | NaN => NaN
  end.

(** *** Substrings and the regular expressions of the filters *)

(** Equality of characters under the [i] flag. *)
Definition eqb_i (a b : ascii) : bool := Ascii.eqb (lower_char a) (lower_char b).

Fixpoint prefix_i (p s : string) : bool :=
  match p, s with
  | EmptyString, _ => true
  | String a p', String b s' => eqb_i a b && prefix_i p' s'
  | String _ _, EmptyString => false
  end.

(** [needle] occurs in [hay], letter case aside. *)
Fixpoint includes_i (needle hay : string) : bool :=
  prefix_i needle hay ||
  match hay with
  | String _ hay' => includes_i needle hay'
  | EmptyString => false
  end.

(** [Array.prototype.includes] on an array of strings. *)
Definition includes (l : list string) (s : string) : bool :=
  existsb (String.eqb s) l.

(** The characters with a meaning of their own in a pattern. *)
Definition is_syntax_char (c : ascii) : bool :=
  existsb (Ascii.eqb c)
    (list_ascii_of_string "^$\.*+?()[]{}|").

(** The patterns read here are the sequences of ordinary characters and
    dots; [new RegExp(pattern, 'i')] on any other pattern is outside this
    fragment. *)
Inductive atom := Lit (c : ascii) | AnyChar.

Fixpoint compile (pattern : string) : option (list atom) :=
  match pattern with
  | EmptyString => Some []
  | String c p' =>
      match compile p' with
      | Some atoms =>
          if Ascii.eqb c "." then Some (AnyChar :: atoms)
          else if is_syntax_char c then None
          else Some (Lit c :: atoms)
      | None => None
      end
  end.

(** A dot takes every character but the line feed. *)
Definition atom_matches (a : atom) (c : ascii) : bool :=
  match a with
  | Lit l => eqb_i l c
  | AnyChar => negb (Ascii.eqb c "010")
  end.

Fixpoint match_here (atoms : list atom) (s : string) : bool :=
  match atoms, s with
  | [], _ => true
  | a :: atoms', String c s' => atom_matches a c && match_here atoms' s'
  | _ :: _, EmptyString => false
  end.

Fixpoint match_anywhere (atoms : list atom) (s : string) : bool :=
  match_here atoms s ||
  match s with
  | String _ s' => match_anywhere atoms s'
  | EmptyString => false
  end.

(** The answer of the unanchored, case-insensitive pattern on [s]. *)
Definition regex_test_i (pattern s : string) : option bool :=
  match compile pattern with
  | Some atoms => Some (match_anywhere atoms s)
  | None => None
  end.

End Js.

(** ** models/model.js *)

Module Model.

(** *** Category: the slug of the pre-save hook *)

(** The expression assigned to [this.slug]. *)
Definition slugify (name : string) : string :=
  Js.strip_edge_hyphens
    (Js.collapse_hyphens (Js.replace_non_alnum (Js.toLowerCase name))).

Record Category := {
  cat_id : string;
  cat_name : string;
  cat_description : option string;
  cat_image_url : string;
  cat_image_public_id : string;
  cat_slug : string;
  cat_isActive : bool;
  cat_sortOrder : Z
}.

Definition set_slug (c : Category) (s : string) : Category :=
  {| cat_id := cat_id c; cat_name := cat_name c;
     cat_description := cat_description c;
     cat_image_url := cat_image_url c;
     cat_image_public_id := cat_image_public_id c;
     cat_slug := s;
     cat_isActive := cat_isActive c; cat_sortOrder := cat_sortOrder c |}.

(** The schema's constraints on a category: a name, of at most 50
    characters, and a description of at most 200. *)
Definition category_valid (c : Category) : bool :=
  Js.truthy_str (cat_name c)
  && (String.length (cat_name c) <=? 50)%nat
  && match cat_description c with
     | Some d => (String.length d <=? 200)%nat
     | None => true
     end.

(** [categorySchema.pre('save', ...)]; [name_modified] is what
    [this.isModified('name')] answers. *)
Definition category_pre_save (name_modified : bool) (c : Category) : Category :=
  if name_modified then set_slug c (slugify (cat_name c)) else c.

(** *** Dress: the price virtuals *)

(** [price.discounted] is optional: [None] is [undefined]. *)
Record Price := {
  original : Q;
  discounted : option Q
}.

(** The schema's constraints on a price: [min: 0] on both, and the
    validator [!value || value <= this.price.original] on [discounted]. *)
Definition price_valid (p : Price) : bool :=
  Qle_bool 0 (original p) &&
  match discounted p with
  | Some d => Qle_bool 0 d && (negb (Js.truthy_num d) || Qle_bool d (original p))
  | None => true
  end.

(** [this.price.discounted && this.price.original > 0]. *)
Definition has_discount (p : Price) : bool :=
  match discounted p with
  | Some d => Js.truthy_num d && negb (Qle_bool (original p) 0)
  | None => false
  end.

(** The [discountPercentage] virtual. *)
Definition discountPercentage (p : Price) : Z :=
  match discounted p with
  | Some d =>
      if has_discount p
      then Js.Math_round (((original p - d) / original p) * 100)
      else 0%Z
  | None => 0%Z
  end.

(** The [effectivePrice] virtual: [this.price.discounted || this.price.original]. *)
Definition effectivePrice (p : Price) : Q :=
  match discounted p with
  | Some d => if Js.truthy_num d then d else original p
  | None => original p
  end.

(** The derived prices in the words of the specification:
    [effectivePrice = discounted ?? original] and
    [discountPercentage = round((original-discounted)/original*100)], or 0
    when no discount is set. *)
Definition spec_effectivePrice (p : Price) : Q :=
  match discounted p with
  | Some d => d
  | None => original p
  end.

Definition spec_discountPercentage (p : Price) : Z :=
  match discounted p with
  | Some d => Js.Math_round (((original p - d) / original p) * 100)
  | None => 0%Z
  end.

End Model.

(** ** The documents of the store *)

Module Store.

(** An entry of [images]: [{ url, public_id, alt }]. *)
Record Image := {
  url : string;
  public_id : string;
  alt : string
}.

(** A dress document.  The fields without a part in the handlers' control
    flow (sizes, colors, care instructions, contact number and message,
    rating) are left out. *)
Record Dress := {
  d_id : string;
  d_name : string;
  d_description : string;
  d_category : string;
  d_images : list Image;
  d_price : Model.Price;
  d_material : option string;
  d_tags : list string;
  d_sku : option string;
  d_isActive : bool;
  d_isFeatured : bool;
  d_sortOrder : Z;
  d_views : Z;
  d_createdAt : Z
}.

Definition set_views (d : Dress) (v : Z) : Dress :=
  {| d_id := d_id d; d_name := d_name d; d_description := d_description d;
     d_category := d_category d; d_images := d_images d; d_price := d_price d;
     d_material := d_material d; d_tags := d_tags d; d_sku := d_sku d;
     d_isActive := d_isActive d; d_isFeatured := d_isFeatured d;
     d_sortOrder := d_sortOrder d; d_views := v; d_createdAt := d_createdAt d |}.

Definition set_images (d : Dress) (imgs : list Image) : Dress :=
  {| d_id := d_id d; d_name := d_name d; d_description := d_description d;
     d_category := d_category d; d_images := imgs; d_price := d_price d;
     d_material := d_material d; d_tags := d_tags d; d_sku := d_sku d;
     d_isActive := d_isActive d; d_isFeatured := d_isFeatured d;
     d_sortOrder := d_sortOrder d; d_views := d_views d;
     d_createdAt := d_createdAt d |}.

Definition set_sku (d : Dress) (s : option string) : Dress :=
  {| d_id := d_id d; d_name := d_name d; d_description := d_description d;
     d_category := d_category d; d_images := d_images d; d_price := d_price d;
     d_material := d_material d; d_tags := d_tags d; d_sku := s;
     d_isActive := d_isActive d; d_isFeatured := d_isFeatured d;
     d_sortOrder := d_sortOrder d; d_views := d_views d;
     d_createdAt := d_createdAt d |}.

(** A user document of models/userModel; [password] holds the hash. *)
Record User := {
  u_id : string;
  u_username : string;
  u_email : string;
  u_password : string;
  u_role : string
}.

End Store.

(** ** Asynchronous computations: state, exceptions and the outside world *)

Module Eff.

(** A thrown [Error]: its [message] and, for the store's errors, its
    [code]. *)
Record Err := {
  err_code : option Z;
  err_message : string
}.

Inductive Outcome (A : Type) : Type :=
| Ret (a : A)
| Throw (e : Err).
Arguments Ret {A} a.
Arguments Throw {A} e.

(** The operations on the store that a handler awaits.  [Env] below holds
    the collaborators' answers; its [find_nan_window] is what the store
    makes of a query whose [limit] or [skip] is [NaN], given the documents
    that match, in order. *)
Inductive Op :=
| CategoryFindOne | CategoryFindById | CategorySave
| DressFindOne | DressFindById | DressFindByIdAndUpdate | DressSave
| DressFind | DressCountDocuments | Populate
| UserFindOne.

(** What the collaborators answer during one request: whether the asset
    host rejects the deletion of an asset, whether the store rejects an
    operation (a lost connection, a failed validation, a duplicate key),
    the comparison of a password with a stored hash, the signature of a
    token, the id and the time stamp given to a new document. *)
Record Env := {
  destroy_fault : string -> option Err;
  store_fault : Op -> option Err;
  match_password : Store.User -> string -> bool;
  jwt_sign : string -> string -> string;
  new_id : string;
  now : Z;
  find_nan_window : list Store.Dress -> Outcome (list Store.Dress)
}.

(** The state that outlives a request: the collections, the deletions
    asked of the asset host (latest first) and the lines written with
    [console.error] (latest first). *)
Record World := {
  dresses : gmap string Store.Dress;
  categories : gmap string Model.Category;
  users : list Store.User;
  destroy_calls : list string;
  console : list string
}.

Definition M (A : Type) : Type := Env -> World -> Outcome A * World.

Definition ret {A} (a : A) : M A := fun _ w => (Ret a, w).

Definition throw {A} (e : Err) : M A := fun _ w => (Throw e, w).

Definition bind {A B} (m : M A) (k : A -> M B) : M B :=
  fun env w =>
    match m env w with
    | (Ret a, w') => k a env w'
    | (Throw e, w') => (Throw e, w')
    end.

(** [try { m } catch (error) { h error }]: what [m] did to the world
    before it threw stays done. *)
Definition try_catch {A} (m : M A) (h : Err -> M A) : M A :=
  fun env w =>
    match m env w with
    | (Ret a, w') => (Ret a, w')
    | (Throw e, w') => h e env w'
    end.

Definition ask : M Env := fun env w => (Ret env, w).
Definition get : M World := fun _ w => (Ret w, w).
Definition put (w : World) : M unit := fun _ _ => (Ret tt, w).

(** [if (c) { await m }]. *)
Definition when (c : bool) (m : M unit) : M unit :=
  if c then m else ret tt.

Definition set_dresses (w : World) (ds : gmap string Store.Dress) : World :=
  {| dresses := ds; categories := categories w; users := users w;
     destroy_calls := destroy_calls w; console := console w |}.

Definition set_categories (w : World) (cs : gmap string Model.Category) : World :=
  {| dresses := dresses w; categories := cs; users := users w;
     destroy_calls := destroy_calls w; console := console w |}.

Definition add_destroy_call (w : World) (publicId : string) : World :=
  {| dresses := dresses w; categories := categories w; users := users w;
     destroy_calls := publicId :: destroy_calls w; console := console w |}.

Definition add_console (w : World) (line : string) : World :=
  {| dresses := dresses w; categories := categories w; users := users w;
     destroy_calls := destroy_calls w; console := line :: console w |}.

(** [console.error(line, ...)]. *)
Definition console_error (line : string) : M unit :=
  fun _ w => (Ret tt, add_console w line).

(** The store's answer to an operation, before the operation itself. *)
Definition store_op (op : Op) : M unit :=
  fun env w =>
    match store_fault env op with
    | Some e => (Throw e, w)
    | None => (Ret tt, w)
    end.

End Eff.

Declare Scope eff_scope.
Delimit Scope eff_scope with eff.
Notation "x <- m ;; k" := (Eff.bind m (fun x => k))
  (at level 100, m at next level, right associativity) : eff_scope.
Notation "m ;;; k" := (Eff.bind m (fun _ => k))
  (at level 100, right associativity) : eff_scope.

Local Open Scope eff_scope.

(** ** Responses *)

Module Http.

(** What a response carries next to its envelope. *)
Inductive Payload :=
| NoData
| CategoryData (c : Model.Category)
| DressData (d : Store.Dress)
| PageData (items : list Store.Dress) (total : Z) (page pages : Js.num)
| CategoryPageData (c : Model.Category) (items : list Store.Dress) (total : Z)
    (page pages : Js.num)
| TokenData (token : string) (user : Store.User).

(** [res.status(status).json({ success, message, error, ... })]. *)
Record Response := {
  status : Z;
  success : bool;
  message : option string;
  error : option string;
  data : Payload
}.

Definition failure (st : Z) (msg : string) : Response :=
  {| status := st; success := false; message := Some msg;
     error := None; data := NoData |}.

(** A failure that reports [error.message]. *)
Definition failure_with (st : Z) (msg : string) (e : Eff.Err) : Response :=
  {| status := st; success := false; message := Some msg;
     error := Some (Eff.err_message e); data := NoData |}.

Definition ok (st : Z) (msg : option string) (d : Payload) : Response :=
  {| status := st; success := true; message := msg; error := None; data := d |}.

(** The error taxonomy of the specification, read off the status code. *)
Inductive ErrorKind :=
| ValidationError | Unauthorized | Forbidden | NotFound | Internal.

Definition error_kind (r : Response) : option ErrorKind :=
  if success r then None
  else if (status r =? 400)%Z then Some ValidationError
  else if (status r =? 401)%Z then Some Unauthorized
  else if (status r =? 403)%Z then Some Forbidden
  else if (status r =? 404)%Z then Some NotFound
  else Some Internal.

(** What a middleware does with a request: it passes it on, possibly
    changed, or answers it. *)
Inductive Step (R : Type) :=
| Next (req : R)
| Respond (r : Response).
Arguments Next {R} req.
Arguments Respond {R} r.

End Http.

(** ** middleware/auth.js *)

Module AuthMiddleware.

(** The values a claim of a decoded token can have. *)
Inductive value :=
| Undefined | Null | Bool (b : bool) | Number (z : Z) | Str (s : string).

(** [v === 'admin']. *)
Definition is_admin_role (v : value) : bool :=
  match v with
  | Str s => String.eqb s "admin"
  | _ => false
  end.

(** [req.user = { id, role }]. *)
Record Identity := {
  id : value;
  role : value
}.

(** The parts of a request the guards read: the [Authorization] header and
    [req.user], absent until [protect] has set it. *)
Record Request := {
  authorization : option string;
  user : option Identity
}.

(** [header.split(' ')[1]] for a header that starts with ['Bearer ']: what
    lies between the first space and the next one. *)
Fixpoint until_space (s : string) : string :=
  match s with
  | EmptyString => EmptyString
  | String c s' => if Ascii.eqb c " " then EmptyString else String c (until_space s')
  end.

Definition bearer_token (header : string) : option string :=
  if String.prefix "Bearer " header
  then Some (until_space (String.substring 7 (String.length header - 7) header))
  else None.

(** [protect], with [verify] for [jwt.verify(token, secret)]: [None] when
    it throws. *)
Definition protect (verify : string -> option Identity) (req : Request)
  : Eff.M (Http.Step Request) :=
  let token :=
    match authorization req with
    | Some h => if Js.truthy_str h then bearer_token h else None
    | None => None
    end in
  match token with
  | Some t =>
      if Js.truthy_str t then
        match verify t with
        | Some decoded =>
            Eff.ret (Http.Next {| authorization := authorization req;
                                  user := Some decoded |})
        | None =>
            Eff.console_error "JWT verification error:" ;;;
            Eff.ret (Http.Respond (Http.failure 401 "Not authorized, token failed"))
        end
      else Eff.ret (Http.Respond (Http.failure 401 "Not authorized, no token"))
  | None => Eff.ret (Http.Respond (Http.failure 401 "Not authorized, no token"))
  end.

(** [adminOnly]. *)
Definition adminOnly (req : Request) : Http.Step Request :=
  match user req with
  | Some u =>
      if is_admin_role (role u) then Http.Next req
      else Http.Respond (Http.failure 403 "Access denied: admin only")
  | None => Http.Respond (Http.failure 403 "Access denied: admin only")
  end.

End AuthMiddleware.

(** ** routes/auth.js *)

Module AuthRoutes.

(** [!x] for a body field that is absent or a string. *)
Definition missing (x : option string) : bool :=
  match x with
  | Some s => negb (Js.truthy_str s)
  | None => true
  end.

(** [User.findOne({ email })]. *)
Definition User_findOne (email : string) : Eff.M (option Store.User) :=
  Eff.store_op Eff.UserFindOne ;;;
  w <- Eff.get ;;
  Eff.ret (List.find (fun u => String.eqb (Store.u_email u) email) (Eff.users w)).

(** [POST /api/auth/login] on [{ email, password }]. *)
Definition login (email password : option string) : Eff.M Http.Response :=
  Eff.try_catch
    (match email, password with
     | Some e, Some p =>
         if missing email || missing password
         then Eff.ret (Http.failure 400 "Please provide email and password")
         else
           found <- User_findOne e ;;
           match found with
           | None => Eff.ret (Http.failure 401 "Invalid credentials")
           | Some u =>
               env <- Eff.ask ;;
               if negb (Eff.match_password env u p)
               then Eff.ret (Http.failure 401 "Invalid credentials")
               else
                 let token := Eff.jwt_sign env (Store.u_id u) (Store.u_role u) in
                 Eff.ret (Http.ok 200 None (Http.TokenData token u))
           end
     | _, _ => Eff.ret (Http.failure 400 "Please provide email and password")
     end)
    (fun error =>
       Eff.console_error "Login error:" ;;;
       Eff.ret (Http.failure_with 500 "Server error while logging in" error)).

End AuthRoutes.

(** ** middleware/upload.js: deletions on the asset host *)

Module Upload.

(** [cloudinary.uploader.destroy(publicId)]: the call is made, and the
    host accepts or rejects it. *)
Definition destroy (publicId : string) : Eff.M unit :=
  fun env w =>
    let w' := Eff.add_destroy_call w publicId in
    match Eff.destroy_fault env publicId with
    | Some e => (Eff.Throw e, w')
    | None => (Eff.Ret tt, w')
    end.

(** [deleteFromCloudinary]: the rejection is written to the console and
    thrown again. *)
Definition deleteFromCloudinary (publicId : string) : Eff.M unit :=
  Eff.try_catch
    (destroy publicId)
    (fun error =>
       Eff.console_error "Error deleting from Cloudinary:" ;;;
       Eff.throw error).

(** [Promise.all(promises)] for calls that have all been started: every
    one runs, and the first rejection, if any, is the result. *)
Fixpoint Promise_all (calls : list (Eff.M unit)) : Eff.M unit :=
  match calls with
  | [] => Eff.ret tt
  | c :: rest =>
      fun env w =>
        match c env w with
        | (Eff.Ret _, w') => Promise_all rest env w'
        | (Eff.Throw e, w') => (Eff.Throw e, snd (Promise_all rest env w'))
        end
  end.

(** [deleteMultipleFromCloudinary]. *)
Definition deleteMultipleFromCloudinary (publicIds : list string) : Eff.M unit :=
  Eff.try_catch
    (match publicIds with
     | [] => Eff.ret tt
     | _ => Promise_all (List.map destroy publicIds)
     end)
    (fun error =>
       Eff.console_error "Error deleting multiple images from Cloudinary:" ;;;
       Eff.throw error).

End Upload.

(** ** The document layer: queries and saves as the routes call them *)

Module Odm.

Definition is_hex (c : ascii) : bool :=
  Js.is_digit c || Js.in_range 97 102 c || Js.in_range 65 70 c.

(** [/^[0-9a-fA-F]{24}$/.test(s)]. *)
Definition isObjectId (s : string) : bool :=
  (String.length s =? 24)%nat && forallb is_hex (list_ascii_of_string s).

(** The cast of a string to the type of [_id]: the 24 hexadecimal digits
    of an ObjectId, in lower case; any other string fails the cast.  (Older
    versions of the driver also take the strings of 12 characters.) *)
Definition castObjectId (s : string) : option string :=
  if isObjectId s then Some (Js.toLowerCase s) else None.

Definition CastError (s : string) : Eff.Err :=
  {| Eff.err_code := None;
     Eff.err_message := "Cast to ObjectId failed for value " ++ s |}.

(** A condition on [_id] is cast before the query goes to the store, also
    below [$or]; a failed cast rejects the query. *)
Definition cast_id (s : string) : Eff.M string :=
  match castObjectId s with
  | Some oid => Eff.ret oid
  | None => Eff.throw (CastError s)
  end.

(** The first document of a collection that satisfies a condition. *)
Definition first_match {A} (p : A -> bool) (m : gmap string A) : option A :=
  List.find p (List.map snd (map_to_list m)).

(** The conditions the routes put on a category, next to [isActive: true]. *)
Inductive CategoryQuery :=
| ById (raw : string)                (* { _id: raw } *)
| BySlug (slug : string)             (* { slug } *)
| ByIdOrSlug (raw : string).         (* { $or: [{ _id: raw }, { slug: raw }] } *)

(** [Category.findOne({ ...query, isActive: true })].  The condition on
    [slug] goes through the setter of the schema ([lowercase: true]) like a
    stored value. *)
Definition Category_findOne_active (q : CategoryQuery) : Eff.M (option Model.Category) :=
  Eff.store_op Eff.CategoryFindOne ;;;
  match q with
  | ById raw =>
      oid <- cast_id raw ;;
      w <- Eff.get ;;
      Eff.ret (match Eff.categories w !! oid with
               | Some c => if Model.cat_isActive c then Some c else None
               | None => None
               end)
  | BySlug slug =>
      w <- Eff.get ;;
      Eff.ret (first_match
                 (fun c => String.eqb (Model.cat_slug c) (Js.toLowerCase slug)
                           && Model.cat_isActive c)
                 (Eff.categories w))
  | ByIdOrSlug raw =>
      oid <- cast_id raw ;;
      w <- Eff.get ;;
      Eff.ret (first_match
                 (fun c => (String.eqb (Model.cat_id c) oid
                            || String.eqb (Model.cat_slug c) (Js.toLowerCase raw))
                           && Model.cat_isActive c)
                 (Eff.categories w))
  end.

(** [Category.findById(id)]. *)
Definition Category_findById (raw : string) : Eff.M (option Model.Category) :=
  Eff.store_op Eff.CategoryFindById ;;;
  oid <- cast_id raw ;;
  w <- Eff.get ;;
  Eff.ret (Eff.categories w !! oid).

Definition duplicate_key : Eff.Err :=
  {| Eff.err_code := Some 11000%Z; Eff.err_message := "E11000 duplicate key error" |}.

Definition validation_failed (what : string) : Eff.Err :=
  {| Eff.err_code := None; Eff.err_message := what ++ " validation failed" |}.

(** [category.save()]: the validation, the pre-save hook, then the write,
    which the unique indexes on [name] and [slug] reject with code 11000. *)
Definition Category_save (name_modified : bool) (c : Model.Category)
  : Eff.M Model.Category :=
  let c' := Model.category_pre_save name_modified c in
  (if Model.category_valid c then Eff.ret tt
   else Eff.throw (validation_failed "Category")) ;;;
  Eff.store_op Eff.CategorySave ;;;
  w <- Eff.get ;;
  match first_match
          (fun o => negb (String.eqb (Model.cat_id o) (Model.cat_id c'))
                    && (String.eqb (Model.cat_name o) (Model.cat_name c')
                        || String.eqb (Model.cat_slug o) (Model.cat_slug c')))
          (Eff.categories w) with
  | Some _ => Eff.throw duplicate_key
  | None =>
      Eff.put (Eff.set_categories w (<[Model.cat_id c' := c']> (Eff.categories w))) ;;;
      Eff.ret c'
  end.

(** [Dress.findById(id)]. *)
Definition Dress_findById (raw : string) : Eff.M (option Store.Dress) :=
  Eff.store_op Eff.DressFindById ;;;
  oid <- cast_id raw ;;
  w <- Eff.get ;;
  Eff.ret (Eff.dresses w !! oid).

(** [Dress.findOne({ _id: id, isActive: true }).populate(...)]. *)
Definition Dress_findOne_active (raw : string) : Eff.M (option Store.Dress) :=
  Eff.store_op Eff.DressFindOne ;;;
  oid <- cast_id raw ;;
  w <- Eff.get ;;
  match Eff.dresses w !! oid with
  | Some d =>
      if Store.d_isActive d
      then Eff.store_op Eff.Populate ;;; Eff.ret (Some d)
      else Eff.ret None
  | None => Eff.ret None
  end.

(** [Dress.findByIdAndUpdate(id, { $inc: { views: 1 } })]. *)
Definition Dress_inc_views (raw : string) : Eff.M unit :=
  Eff.store_op Eff.DressFindByIdAndUpdate ;;;
  oid <- cast_id raw ;;
  w <- Eff.get ;;
  Eff.put (Eff.set_dresses w
             (alter (fun d => Store.set_views d (Store.d_views d + 1)) oid
                    (Eff.dresses w))).

(** [String(n).padStart(4, '0')]. *)
Definition pad4 (n : nat) : string :=
  let s := NilEmpty.string_of_uint (Nat.to_uint n) in
  String.concat "" (List.repeat "0" (4 - String.length s)) ++ s.

(** The pre-save hook of a dress: a new document without a SKU gets
    [DRESS] and the padded count of the collection plus one. *)
Definition dress_pre_save (isNew : bool) (d : Store.Dress) : Eff.M Store.Dress :=
  match Store.d_sku d with
  | None =>
      if isNew then
        Eff.store_op Eff.DressCountDocuments ;;;
        w <- Eff.get ;;
        Eff.ret (Store.set_sku d (Some ("DRESS" ++ pad4 (size (Eff.dresses w) + 1))))
      else Eff.ret d
  | Some s =>
      if Js.truthy_str s then Eff.ret d
      else if isNew then
        Eff.store_op Eff.DressCountDocuments ;;;
        w <- Eff.get ;;
        Eff.ret (Store.set_sku d (Some ("DRESS" ++ pad4 (size (Eff.dresses w) + 1))))
      else Eff.ret d
  end.

(** The schema's constraints on a dress, for the fields kept here. *)
Definition dress_valid (d : Store.Dress) : bool :=
  Js.truthy_str (Store.d_name d)
  && (String.length (Store.d_name d) <=? 100)%nat
  && Js.truthy_str (Store.d_description d)
  && (String.length (Store.d_description d) <=? 1000)%nat
  && Js.truthy_str (Store.d_category d)
  && Model.price_valid (Store.d_price d)
  && forallb (fun i => Js.truthy_str (Store.url i) && Js.truthy_str (Store.public_id i))
             (Store.d_images d)
  && match Store.d_material d with
     | Some m => (String.length m <=? 100)%nat
     | None => true
     end.

(** [dress.save()]: the validation, the hook, then the write. *)
Definition Dress_save (isNew : bool) (d : Store.Dress) : Eff.M Store.Dress :=
  (if dress_valid d then Eff.ret tt
   else Eff.throw (validation_failed "Dress")) ;;;
  d' <- dress_pre_save isNew d ;;
  Eff.store_op Eff.DressSave ;;;
  w <- Eff.get ;;
  Eff.put (Eff.set_dresses w (<[Store.d_id d' := d']> (Eff.dresses w))) ;;;
  Eff.ret d'.

(** [doc.populate('category', 'name slug')]. *)
Definition populate (d : Store.Dress) : Eff.M Store.Dress :=
  Eff.store_op Eff.Populate ;;;
  Eff.ret d.

(** The orders of the [sortOptions] tables. *)
Inductive SortSpec :=
| CreatedDesc | CreatedAsc | PriceAsc | PriceDesc
| NameAsc | NameDesc | FeaturedFirst.

(** [a] may come before [b] in the order. *)
Definition before (o : SortSpec) (a b : Store.Dress) : bool :=
  match o with
  | CreatedDesc => (Store.d_createdAt b <=? Store.d_createdAt a)%Z
  | CreatedAsc => (Store.d_createdAt a <=? Store.d_createdAt b)%Z
  | PriceAsc =>
      Qle_bool (Model.original (Store.d_price a)) (Model.original (Store.d_price b))
  | PriceDesc =>
      Qle_bool (Model.original (Store.d_price b)) (Model.original (Store.d_price a))
  | NameAsc => String.leb (Store.d_name a) (Store.d_name b)
  | NameDesc => String.leb (Store.d_name b) (Store.d_name a)
  | FeaturedFirst =>
      if Bool.eqb (Store.d_isFeatured a) (Store.d_isFeatured b)
      then (Store.d_createdAt b <=? Store.d_createdAt a)%Z
      else Store.d_isFeatured a
  end.

Fixpoint insert_sorted (o : SortSpec) (d : Store.Dress) (l : list Store.Dress)
  : list Store.Dress :=
  match l with
  | [] => [d]
  | x :: l' => if before o d x then d :: l else x :: insert_sorted o d l'
  end.

Definition sort_dresses (o : SortSpec) (l : list Store.Dress) : list Store.Dress :=
  List.fold_right (insert_sorted o) [] l.

(** The documents of the collection that satisfy a filter, in an order. *)
Definition matching (filter : Store.Dress -> bool) (o : SortSpec) (w : Eff.World)
  : list Store.Dress :=
  sort_dresses o (List.filter filter (List.map snd (map_to_list (Eff.dresses w)))).

(** [Dress.find(filter).populate(...).sort(o).limit(limit).skip(skip)]:
    the documents after the first [skip] ones, [limit] at most. *)
Definition Dress_find (filter : Store.Dress -> bool) (o : SortSpec)
    (limit skip : Js.num) : Eff.M (list Store.Dress) :=
  Eff.store_op Eff.DressFind ;;;
  env <- Eff.ask ;;
  w <- Eff.get ;;
  found <-
    match limit, skip with
    | Js.Num l, Js.Num s =>
        Eff.ret (List.firstn (Z.to_nat l) (List.skipn (Z.to_nat s) (matching filter o w)))
    | _, _ =>
        match Eff.find_nan_window env (matching filter o w) with
        | Eff.Ret ds => Eff.ret ds
        | Eff.Throw e => Eff.throw e
        end
    end ;;
  Eff.store_op Eff.Populate ;;;
  Eff.ret found.

(** [Dress.countDocuments(filter)]. *)
Definition Dress_countDocuments (filter : Store.Dress -> bool) : Eff.M Z :=
  Eff.store_op Eff.DressCountDocuments ;;;
  w <- Eff.get ;;
  Eff.ret (Z.of_nat (List.length
             (List.filter filter (List.map snd (map_to_list (Eff.dresses w)))))).

End Odm.

(** ** routes/routes.js *)

Module Routes.

Import Eff Http Odm.

(** [!x] for a field that is absent or a string. *)
Definition missing (x : option string) : bool :=
  match x with
  | Some s => negb (Js.truthy_str s)
  | None => true
  end.

(** *** Categories *)

(** The body of a category request: [{ name, description, sortOrder,
    isActive, imageUrl, public_id }]. *)
Record CategoryBody := {
  cb_name : option string;
  cb_description : option string;
  cb_sortOrder : option Z;
  cb_isActive : option bool;
  cb_imageUrl : option string;
  cb_public_id : option string
}.

(** [GET /api/category/:identifier]. *)
Definition get_category (identifier : string) : M Response :=
  try_catch
    (let query := if isObjectId identifier then ById identifier else BySlug identifier in
     found <- Category_findOne_active query ;;
     match found with
     | None => ret (failure 404 "Category not found")
     | Some category => ret (ok 200 None (CategoryData category))
     end)
    (fun error => ret (failure_with 500 "Error fetching category" error)).

(** [new Category({ name, description, image, sortOrder })]: the schema
    trims the strings and fills the defaults. *)
Definition new_category (env : Env) (body : CategoryBody) (imageUrl public_id : string)
  : Model.Category :=
  {| Model.cat_id := new_id env;
     Model.cat_name := Js.trim (default "" (cb_name body));
     Model.cat_description := option_map Js.trim (cb_description body);
     Model.cat_image_url := imageUrl;
     Model.cat_image_public_id := public_id;
     Model.cat_slug := "";
     Model.cat_isActive := true;
     Model.cat_sortOrder := default 0%Z (cb_sortOrder body) |}.

(** [POST /api/category]. *)
Definition post_category (body : CategoryBody) : M Response :=
  try_catch
    (match cb_imageUrl body, cb_public_id body with
     | Some imageUrl, Some public_id =>
         if missing (cb_imageUrl body) || missing (cb_public_id body)
         then ret (failure 400 "imageUrl and public_id are required")
         else
           env <- ask ;;
           saved <- Category_save (negb (missing (cb_name body)))
                                  (new_category env body imageUrl public_id) ;;
           ret (ok 201 (Some "Category created successfully") (CategoryData saved))
     | _, _ => ret (failure 400 "imageUrl and public_id are required")
     end)
    (fun error =>
       (* If the DB save fails, remove the uploaded image from Cloudinary *)
       match cb_public_id body with
       | Some public_id =>
           when (Js.truthy_str public_id) (Upload.deleteFromCloudinary public_id)
       | None => ret tt
       end ;;;
       if bool_decide (err_code error = Some 11000%Z)
       then ret (failure 400 "Category name already exists")
       else ret (failure_with 500 "Error creating category" error)).

Definition set_category_fields (c : Model.Category) (body : CategoryBody)
  : Model.Category :=
  {| Model.cat_id := Model.cat_id c;
     Model.cat_name :=
       match cb_name body with
       | Some n => if Js.truthy_str n then Js.trim n else Model.cat_name c
       | None => Model.cat_name c
       end;
     Model.cat_description :=
       match cb_description body with
       | Some d => Some (Js.trim d)
       | None => Model.cat_description c
       end;
     Model.cat_image_url := Model.cat_image_url c;
     Model.cat_image_public_id := Model.cat_image_public_id c;
     Model.cat_slug := Model.cat_slug c;
     Model.cat_isActive := default (Model.cat_isActive c) (cb_isActive body);
     Model.cat_sortOrder := default (Model.cat_sortOrder c) (cb_sortOrder body) |}.

Definition set_category_image (c : Model.Category) (imageUrl public_id : string)
  : Model.Category :=
  {| Model.cat_id := Model.cat_id c; Model.cat_name := Model.cat_name c;
     Model.cat_description := Model.cat_description c;
     Model.cat_image_url := imageUrl;
     Model.cat_image_public_id := public_id;
     Model.cat_slug := Model.cat_slug c;
     Model.cat_isActive := Model.cat_isActive c;
     Model.cat_sortOrder := Model.cat_sortOrder c |}.

(** [PUT /api/category/:id]. *)
Definition put_category (id : string) (body : CategoryBody) : M Response :=
  try_catch
    (found <- Category_findById id ;;
     match found with
     | None => ret (failure 404 "Category not found")
     | Some category =>
         let c1 := set_category_fields category body in
         c2 <-
           match cb_imageUrl body, cb_public_id body with
           | Some imageUrl, Some public_id =>
               if Js.truthy_str imageUrl && Js.truthy_str public_id then
                 (* Delete old Cloudinary image *)
                 Upload.deleteFromCloudinary (Model.cat_image_public_id category) ;;;
                 ret (set_category_image c1 imageUrl public_id)
               else ret c1
           | _, _ => ret c1
           end ;;
         updated <- Category_save
                      (negb (String.eqb (Model.cat_name c2) (Model.cat_name category)))
                      c2 ;;
         ret (ok 200 (Some "Category updated successfully") (CategoryData updated))
     end)
    (fun error =>
       (* If update failed and a new image was uploaded, delete that new image *)
       match cb_public_id body with
       | Some public_id =>
           when (Js.truthy_str public_id) (Upload.deleteFromCloudinary public_id)
       | None => ret tt
       end ;;;
       ret (failure_with 500 "Error updating category" error)).

(** *** Dresses: the paginated lists *)

(** [Math.max(1, parseInt(page))], [page] being 1 when the query has
    none. *)
Definition pageNum (page : option string) : Js.num :=
  Js.Math_max (Js.Num 1)
    (match page with Some s => Js.parseInt s | None => Js.Num 1 end).

(** [Math.max(1, Math.min(50, parseInt(limit)))], [limit] being 12 when
    the query has none. *)
Definition limitNum (limit : option string) : Js.num :=
  Js.Math_max (Js.Num 1)
    (Js.Math_min (Js.Num 50)
       (match limit with Some s => Js.parseInt s | None => Js.Num 12 end)).

(** [(pageNum - 1) * limitNum]. *)
Definition skip (page limit : option string) : Js.num :=
  Js.mul (Js.sub (pageNum page) (Js.Num 1)) (limitNum limit).

(** [sortOptions[sort] || { createdAt: -1 }] of [GET /api/dresses]. *)
Definition sortOptions (sort : option string) : SortSpec :=
  match sort with
  | None => CreatedDesc
  | Some s =>
      if String.eqb s "-createdAt" then CreatedDesc
      else if String.eqb s "createdAt" then CreatedAsc
      else if String.eqb s "price" then PriceAsc
      else if String.eqb s "-price" then PriceDesc
      else if String.eqb s "name" then NameAsc
      else if String.eqb s "-name" then NameDesc
      else if String.eqb s "featured" then FeaturedFirst
      else CreatedDesc
  end.

(** The table of the category route has no ['-name']. *)
Definition sortOptions_category (sort : option string) : SortSpec :=
  match sort with
  | Some s => if String.eqb s "-name" then CreatedDesc else sortOptions sort
  | None => CreatedDesc
  end.

(** [GET /api/dresses].  [filter] is the condition that the filter object
    built from the query stands for; it includes [isActive: true]. *)
Definition get_dresses (filter : Store.Dress -> bool)
    (sort page limit : option string) : M Response :=
  try_catch
    (dresses <- Dress_find filter (sortOptions sort) (limitNum limit) (skip page limit) ;;
     total <- Dress_countDocuments filter ;;
     ret (ok 200 None
            (PageData dresses total (pageNum page) (Js.ceil_div total (limitNum limit)))))
    (fun error => ret (failure_with 500 "Error fetching dresses" error)).

(** [GET /api/dresses/category/:categoryId]. *)
Definition get_dresses_by_category (categoryId : string)
    (sort page limit : option string) : M Response :=
  try_catch
    ((* Verify category exists by ID or slug *)
     found <- Category_findOne_active (ByIdOrSlug categoryId) ;;
     match found with
     | None => ret (failure 404 "Category not found")
     | Some category =>
         let filter := fun d =>
           String.eqb (Store.d_category d) (Model.cat_id category)
           && Store.d_isActive d in
         dresses <- Dress_find filter (sortOptions_category sort)
                               (limitNum limit) (skip page limit) ;;
         total <- Dress_countDocuments filter ;;
         ret (ok 200 None
                (CategoryPageData category dresses total (pageNum page)
                   (Js.ceil_div total (limitNum limit))))
     end)
    (fun error => ret (failure_with 500 "Error fetching dresses by category" error)).

(** [GET /api/dress/:id]. *)
Definition get_dress (id : string) : M Response :=
  try_catch
    (found <- Dress_findOne_active id ;;
     match found with
     | None => ret (failure 404 "Dress not found")
     | Some dress =>
         (* Increment view count (fire-and-forget) *)
         Dress_inc_views id ;;;
         ret (ok 200 None (DressData dress))
     end)
    (fun error => ret (failure_with 500 "Error fetching dress" error)).

(** *** Dresses: create and update *)

(** A body field that may arrive as an object or as JSON text:
    [undefined], the empty text, a value (given as such or as text that
    parses to it), or text that [JSON.parse] rejects. *)
Inductive Field (A : Type) : Type :=
| Absent
| Blank
| Given (a : A)
| Malformed.
Arguments Absent {A}.
Arguments Blank {A}.
Arguments Given {A} a.
Arguments Malformed {A}.

(** [typeof x === 'string' ? JSON.parse(x) : x]; [None] when the parse
    throws, as it does on the empty text. *)
Definition parse_field {A} (f : Field A) : option (option A) :=
  match f with
  | Absent => Some None
  | Given a => Some (Some a)
  | Blank | Malformed => None
  end.

(** [if (x) parsed = typeof x === 'string' ? JSON.parse(x) : x]: a falsy
    field is not parsed. *)
Definition parse_field_if_set {A} (f : Field A) : option (option A) :=
  match f with
  | Absent | Blank => Some None
  | Given a => Some (Some a)
  | Malformed => None
  end.

(** The body of a dress request.  [b_isFeatured] and [b_isActive] are
    [Some true] for [true] and ['true'], [Some false] for any other value;
    [b_images] and [b_newImages] are [None] unless the field is an
    array. *)
Record DressBody := {
  b_name : option string;
  b_description : option string;
  b_category : option string;
  b_price : Field Model.Price;
  b_material : option string;
  b_tags : Field (list string);
  b_isFeatured : option bool;
  b_isActive : option bool;
  b_sortOrder : option Z;
  b_images : option (list Store.Image);
  b_removeImages : Field (list string);
  b_newImages : option (list Store.Image)
}.

(** The setter of [tags]: trimmed, in lower case. *)
Definition clean_tags (tags : list string) : list string :=
  List.map (fun t => Js.toLowerCase (Js.trim t)) tags.

(** [new Dress({ ... })]; without a price there is no document that could
    pass the validation. *)
Definition new_dress (env : Env) (body : DressBody)
    (parsedPrice : option Model.Price) (parsedTags : option (list string))
    (images : list Store.Image) : option Store.Dress :=
  match parsedPrice with
  | Some price =>
      Some {| Store.d_id := new_id env;
              Store.d_name := Js.trim (default "" (b_name body));
              Store.d_description := Js.trim (default "" (b_description body));
              Store.d_category := default "" (b_category body);
              Store.d_images := images;
              Store.d_price := price;
              Store.d_material := option_map Js.trim (b_material body);
              Store.d_tags := clean_tags (default [] parsedTags);
              Store.d_sku := None;
              Store.d_isActive := true;
              Store.d_isFeatured := default false (b_isFeatured body);
              Store.d_sortOrder := default 0%Z (b_sortOrder body);
              Store.d_views := 0;
              Store.d_createdAt := now env |}
  | None => None
  end.

(** [POST /api/dress]. *)
Definition post_dress (body : DressBody) : M Response :=
  try_catch
    (match b_images body with
     | None | Some [] =>
         ret (failure 400 "At least one dress image is required in images array")
     | Some images =>
         match parse_field (b_price body), parse_field (b_tags body) with
         | Some parsedPrice, Some parsedTags =>
             env <- ask ;;
             savedDress <-
               match new_dress env body parsedPrice parsedTags images with
               | Some dress => Dress_save true dress
               | None => throw (validation_failed "Dress")
               end ;;
             populated <- populate savedDress ;;
             ret (ok 201 (Some "Dress created successfully") (DressData populated))
         | _, _ => ret (failure 400 "Invalid JSON format in request data")
         end
     end)
    (fun error =>
       (* If saving fails, delete the uploaded images from Cloudinary *)
       match b_images body with
       | Some images =>
           Upload.deleteMultipleFromCloudinary (List.map Store.public_id images)
       | None => ret tt
       end ;;;
       ret (failure_with 500 "Error creating dress" error)).

(** The assignments under "Update provided fields". *)
Definition set_dress_fields (d : Store.Dress) (body : DressBody)
    (parsedPrice : option Model.Price) (parsedTags : option (list string))
  : Store.Dress :=
  let assign_if_set (setter : string -> string) (x : option string) (old : string) :=
    match x with
    | Some v => if Js.truthy_str v then setter v else old
    | None => old
    end in
  {| Store.d_id := Store.d_id d;
     Store.d_name := assign_if_set Js.trim (b_name body) (Store.d_name d);
     Store.d_description :=
       match b_description body with
       | Some v => Js.trim v
       | None => Store.d_description d
       end;
     Store.d_category := assign_if_set (fun v => v) (b_category body) (Store.d_category d);
     Store.d_images := Store.d_images d;
     Store.d_price := default (Store.d_price d) parsedPrice;
     Store.d_material :=
       match b_material body with
       | Some v => if Js.truthy_str v then Some (Js.trim v) else Store.d_material d
       | None => Store.d_material d
       end;
     Store.d_tags :=
       match parsedTags with
       | Some tags => clean_tags tags
       | None => Store.d_tags d
       end;
     Store.d_sku := Store.d_sku d;
     Store.d_isActive := default (Store.d_isActive d) (b_isActive body);
     Store.d_isFeatured := default (Store.d_isFeatured d) (b_isFeatured body);
     Store.d_sortOrder := default (Store.d_sortOrder d) (b_sortOrder body);
     Store.d_views := Store.d_views d;
     Store.d_createdAt := Store.d_createdAt d |}.

(** [dress.images.filter((img) => !parsedRemoveImages.includes(img.public_id))]. *)
Definition remaining_images (removed : list string) (images : list Store.Image)
  : list Store.Image :=
  List.filter (fun img => negb (Js.includes removed (Store.public_id img))) images.

(** [PUT /api/dress/:id]. *)
Definition put_dress (id : string) (body : DressBody) : M Response :=
  try_catch
    (found <- Dress_findById id ;;
     match found with
     | None => ret (failure 404 "Dress not found")
     | Some dress =>
         match parse_field_if_set (b_price body),
               parse_field_if_set (b_tags body),
               parse_field_if_set (b_removeImages body) with
         | Some parsedPrice, Some parsedTags, Some parsedRemoveImages =>
             let d1 := set_dress_fields dress body parsedPrice parsedTags in
             (* 1) Remove images if requested *)
             d2 <-
               match parsedRemoveImages with
               | Some ((_ :: _) as removed) =>
                   Upload.deleteMultipleFromCloudinary removed ;;;
                   ret (Store.set_images d1 (remaining_images removed (Store.d_images d1)))
               | _ => ret d1
               end ;;
             (* 2) Add new images if provided *)
             let d3 :=
               match b_newImages body with
               | Some ((_ :: _) as newImages) =>
                   Store.set_images d2 (Store.d_images d2 ++ newImages)
               | _ => d2
               end in
             (* Ensure there is at least one image remaining *)
             if (List.length (Store.d_images d3) =? 0)%nat
             then ret (failure 400 "Dress must have at least one image")
             else
               updatedDress <- Dress_save false d3 ;;
               populated <- populate updatedDress ;;
               ret (ok 200 (Some "Dress updated successfully") (DressData populated))
         | _, _, _ => ret (failure 400 "Invalid JSON format in request data")
         end
     end)
    (fun error =>
       (* If new images were added but error occurred, delete them *)
       match b_newImages body with
       | Some newImages =>
           Upload.deleteMultipleFromCloudinary (List.map Store.public_id newImages)
       | None => ret tt
       end ;;;
       ret (failure_with 500 "Error updating dress" error)).

(** *** Search *)

(** The [$or] of the four patterns, next to [isActive: true]: the name,
    the description, the material when there is one, any tag. *)
Definition search_filter (atoms : list Js.atom) (d : Store.Dress) : bool :=
  Store.d_isActive d
  && (Js.match_anywhere atoms (Store.d_name d)
      || Js.match_anywhere atoms (Store.d_description d)
      || match Store.d_material d with
         | Some m => Js.match_anywhere atoms m
         | None => false
         end
      || existsb (Js.match_anywhere atoms) (Store.d_tags d)).

(** The table of the search route, but for its ['relevance'] entry. *)
Definition sortOptions_search (sort : option string) : option SortSpec :=
  match sort with
  | Some s =>
      if String.eqb s "relevance" then None
      else if String.eqb s "featured" then Some CreatedDesc
      else Some (sortOptions_category sort)
  | None => Some CreatedDesc
  end.

(** [GET /api/dresses/search].  [extra] is the condition of the category
    and price entries of the filter.  The answer is [None] for a query
    outside the patterns read here and for the order ['relevance']. *)
Definition search_dresses (q : option string) (extra : Store.Dress -> bool)
    (sort page limit : option string) : option (M Response) :=
  if missing q then Some (ret (failure 400 "Search query (q) is required"))
  else
    match Js.compile (default "" q), sortOptions_search sort with
    | Some atoms, Some order =>
        let filter := fun d => search_filter atoms d && extra d in
        Some
          (try_catch
             (dresses <- Dress_find filter order (limitNum limit) (skip page limit) ;;
              total <- Dress_countDocuments filter ;;
              ret (ok 200 None
                     (PageData dresses total (pageNum page)
                        (Js.ceil_div total (limitNum limit)))))
             (fun error => ret (failure_with 500 "Error searching dresses" error)))
    | _, _ => None
    end.

End Routes.

(** ** The properties in the words of the specification *)

Module Props.

Fixpoint all_chars (p : ascii -> bool) (s : string) : bool :=
  match s with
  | EmptyString => true
  | String c s' => p c && all_chars p s'
  end.

(** A lowercase alphanumeric or a hyphen. *)
Definition slug_char (c : ascii) : bool :=
  Js.is_lower c || Js.is_digit c || Js.is_hyphen c.

(** No two hyphens next to each other. *)
Fixpoint single_hyphens (s : string) : bool :=
  match s with
  | String a ((String b _) as s') =>
      negb (Js.is_hyphen a && Js.is_hyphen b) && single_hyphens s'
  | _ => true
  end.

Definition starts_with_hyphen (s : string) : bool :=
  match s with
  | String c _ => Js.is_hyphen c
  | EmptyString => false
  end.

Fixpoint ends_with_hyphen (s : string) : bool :=
  match s with
  | EmptyString => false
  | String c EmptyString => Js.is_hyphen c
  | String _ s' => ends_with_hyphen s'
  end.

(** A well-formed slug. *)
Definition slug_ok (s : string) : Prop :=
  all_chars slug_char s = true
  /\ single_hyphens s = true
  /\ starts_with_hyphen s = false
  /\ ends_with_hyphen s = false.

(** The query is a case-insensitive substring of the name, the
    description, the material or a tag. *)
Definition substring_match (q : string) (d : Store.Dress) : bool :=
  Js.includes_i q (Store.d_name d)
  || Js.includes_i q (Store.d_description d)
  || match Store.d_material d with
     | Some m => Js.includes_i q m
     | None => false
     end
  || existsb (Js.includes_i q) (Store.d_tags d).

(** A query without any character that a pattern gives a meaning to, and
    the pattern it is then: its characters, each for itself. *)
Definition plain (q : string) : Prop :=
  all_chars (fun c => negb (Js.is_syntax_char c)) q = true.

Fixpoint literals (q : string) : list Js.atom :=
  match q with
  | EmptyString => []
  | String c q' => Js.Lit c :: literals q'
  end.

(** No active category of the world goes by the identifier, as an id or as
    a slug. *)
Definition no_active_category (w : Eff.World) (identifier : string) : Prop :=
  forall k c,
    Eff.categories w !! k = Some c ->
    Model.cat_isActive c = true ->
    Odm.castObjectId identifier <> Some k
    /\ Odm.castObjectId identifier <> Some (Model.cat_id c)
    /\ Model.cat_slug c <> Js.toLowerCase identifier.

(** The image set an update asks for: the stored images without the
    removed ones, then the new ones. *)
Definition requested_images (dress : Store.Dress) (body : Routes.DressBody)
  : list Store.Image :=
  Routes.remaining_images
    (match Routes.b_removeImages body with
     | Routes.Given removed => removed
     | _ => []
     end)
    (Store.d_images dress)
  ++ default [] (Routes.b_newImages body).

(** The collaborators answer every call of a request. *)
Definition store_answers (env : Eff.Env) : Prop :=
  forall op, Eff.store_fault env op = None.

Definition host_deletes (env : Eff.Env) (publicIds : list string) : Prop :=
  forall p, In p publicIds -> Eff.destroy_fault env p = None.

(** A query string that [parseInt] reads as a number. *)
Definition numeric (x : option string) : Prop :=
  match x with
  | Some s => Js.parseInt s <> Js.NaN
  | None => True
  end.

End Props.

(** ** Sample data *)

Module Sample.

(** Collaborators that answer every call; a password matches its stored
    form when the two are the same text. *)
Definition env : Eff.Env :=
  {| Eff.destroy_fault := fun _ => None;
     Eff.store_fault := fun _ => None;
     Eff.match_password := fun u p => String.eqb (Store.u_password u) p;
     Eff.jwt_sign := fun id role => id ++ "." ++ role;
     Eff.new_id := "65f000000000000000000009";
     Eff.now := 1700000000;
     Eff.find_nan_window := fun ds => Eff.Ret ds |}.

Definition host_down : Eff.Err :=
  {| Eff.err_code := None; Eff.err_message := "asset host unreachable" |}.

Definition store_down : Eff.Err :=
  {| Eff.err_code := None; Eff.err_message := "connection closed" |}.

(** The asset host rejects every deletion. *)
Definition env_host_down : Eff.Env :=
  {| Eff.destroy_fault := fun _ => Some host_down;
     Eff.store_fault := Eff.store_fault env;
     Eff.match_password := Eff.match_password env;
     Eff.jwt_sign := Eff.jwt_sign env;
     Eff.new_id := Eff.new_id env;
     Eff.now := Eff.now env;
     Eff.find_nan_window := Eff.find_nan_window env |}.

(** The store rejects the increment of the view count, and only it. *)
Definition env_increment_fails : Eff.Env :=
  {| Eff.destroy_fault := Eff.destroy_fault env;
     Eff.store_fault := fun op =>
       match op with
       | Eff.DressFindByIdAndUpdate => Some store_down
       | _ => None
       end;
     Eff.match_password := Eff.match_password env;
     Eff.jwt_sign := Eff.jwt_sign env;
     Eff.new_id := Eff.new_id env;
     Eff.now := Eff.now env;
     Eff.find_nan_window := Eff.find_nan_window env |}.

Definition summer : Model.Category :=
  {| Model.cat_id := "65f000000000000000000001";
     Model.cat_name := "Summer Dresses";
     Model.cat_description := None;
     Model.cat_image_url := "https://img.example/summer.jpg";
     Model.cat_image_public_id := "categories/summer";
     Model.cat_slug := "summer-dresses";
     Model.cat_isActive := true;
     Model.cat_sortOrder := 0 |}.

Definition front : Store.Image :=
  {| Store.url := "https://img.example/abc-front.jpg";
     Store.public_id := "dresses/abc-front";
     Store.alt := "" |}.

Definition back : Store.Image :=
  {| Store.url := "https://img.example/abc-back.jpg";
     Store.public_id := "dresses/abc-back";
     Store.alt := "" |}.

Definition abc : Store.Dress :=
  {| Store.d_id := "65f000000000000000000002";
     Store.d_name := "abc";
     Store.d_description := "plain cotton";
     Store.d_category := "65f000000000000000000001";
     Store.d_images := [front; back];
     Store.d_price := {| Model.original := 100; Model.discounted := None |};
     Store.d_material := None;
     Store.d_tags := ["casual"];
     Store.d_sku := Some "DRESS0001";
     Store.d_isActive := true;
     Store.d_isFeatured := false;
     Store.d_sortOrder := 0;
     Store.d_views := 41;
     Store.d_createdAt := 1690000000 |}.

Definition alice : Store.User :=
  {| Store.u_id := "65f000000000000000000003";
     Store.u_username := "alice";
     Store.u_email := "alice@example.com";
     Store.u_password := "correct horse";
     Store.u_role := "user" |}.

Definition world : Eff.World :=
  {| Eff.dresses := {[ Store.d_id abc := abc ]};
     Eff.categories := {[ Model.cat_id summer := summer ]};
     Eff.users := [alice];
     Eff.destroy_calls := [];
     Eff.console := [] |}.

(** A category request under the name of the stored category. *)
Definition duplicate_category : Routes.CategoryBody :=
  {| Routes.cb_name := Some "Summer Dresses";
     Routes.cb_description := None;
     Routes.cb_sortOrder := None;
     Routes.cb_isActive := None;
     Routes.cb_imageUrl := Some "https://img.example/new.jpg";
     Routes.cb_public_id := Some "categories/new" |}.

Definition sleeve : Store.Image :=
  {| Store.url := "https://img.example/gown-sleeve.jpg";
     Store.public_id := "dresses/gown-sleeve";
     Store.alt := "" |}.

(** A dress request that the schema rejects: the discounted price exceeds
    the original one. *)
Definition overpriced_dress : Routes.DressBody :=
  {| Routes.b_name := Some "Gown";
     Routes.b_description := Some "silk";
     Routes.b_category := Some "65f000000000000000000001";
     Routes.b_price :=
       Routes.Given {| Model.original := 100; Model.discounted := Some 150%Q |};
     Routes.b_material := None;
     Routes.b_tags := Routes.Absent;
     Routes.b_isFeatured := None;
     Routes.b_isActive := None;
     Routes.b_sortOrder := None;
     Routes.b_images := Some [sleeve];
     Routes.b_removeImages := Routes.Absent;
     Routes.b_newImages := None |}.

(** An update that removes both images of the stored dress and adds
    none. *)
Definition remove_all_images : Routes.DressBody :=
  {| Routes.b_name := None;
     Routes.b_description := None;
     Routes.b_category := None;
     Routes.b_price := Routes.Absent;
     Routes.b_material := None;
     Routes.b_tags := Routes.Absent;
     Routes.b_isFeatured := None;
     Routes.b_isActive := None;
     Routes.b_sortOrder := None;
     Routes.b_images := None;
     Routes.b_removeImages := Routes.Given ["dresses/abc-front"; "dresses/abc-back"];
     Routes.b_newImages := None |}.

(** The same dress request with a price that is not JSON. *)
Definition unparsable_dress : Routes.DressBody :=
  {| Routes.b_name := Some "Gown";
     Routes.b_description := Some "silk";
     Routes.b_category := Some "65f000000000000000000001";
     Routes.b_price := Routes.Malformed;
     Routes.b_material := None;
     Routes.b_tags := Routes.Absent;
     Routes.b_isFeatured := None;
     Routes.b_isActive := None;
     Routes.b_sortOrder := None;
     Routes.b_images := Some [sleeve];
     Routes.b_removeImages := Routes.Absent;
     Routes.b_newImages := None |}.

(** Thirty active dresses, created one after the other. *)
Definition numbered (n : nat) : Store.Dress :=
  {| Store.d_id := "65f00000000000000000" ++ Odm.pad4 n;
     Store.d_name := "dress " ++ Odm.pad4 n;
     Store.d_description := "plain cotton";
     Store.d_category := "65f000000000000000000001";
     Store.d_images := [front];
     Store.d_price := {| Model.original := 100; Model.discounted := None |};
     Store.d_material := None;
     Store.d_tags := [];
     Store.d_sku := Some ("DRESS" ++ Odm.pad4 (n + 1));
     Store.d_isActive := true;
     Store.d_isFeatured := false;
     Store.d_sortOrder := 0;
     Store.d_views := 0;
     Store.d_createdAt := 1690000000 + Z.of_nat n |}.

Definition catalog : Eff.World :=
  {| Eff.dresses :=
       list_to_map (List.map (fun n => (Store.d_id (numbered n), numbered n))
                             (List.seq 0 30));
     Eff.categories := {[ Model.cat_id summer := summer ]};
     Eff.users := [];
     Eff.destroy_calls := [];
     Eff.console := [] |}.

End Sample.

(** ** The guards in front of a handler *)

Module Pipeline.

Import Eff Http AuthMiddleware.

(** [router.post(path, protect, adminOnly, handler)]: each guard either
    answers the request or passes it on to what follows. *)
Definition admin_route (verify : string -> option Identity)
    (handler : Request -> M Response) (req : Request) : M Response :=
  step <- protect verify req ;;
  match step with
  | Respond r => ret r
  | Next req1 =>
      match adminOnly req1 with
      | Respond r => ret r
      | Next req2 => handler req2
      end
  end.

End Pipeline.

(** ** routes/auth.js: registration *)

Module Register.

Import Eff Http.

(** The body of a registration: [{ username, email, password, role }]. *)
Record Body := {
  r_username : option string;
  r_email : option string;
  r_password : option string;
  r_role : option string
}.

(** [User.findOne({ $or: [{ email }, { username }] })]. *)
Definition User_findOne_either (email username : string) : M (option Store.User) :=
  store_op UserFindOne ;;;
  w <- get ;;
  ret (List.find (fun u => String.eqb (Store.u_email u) email
                           || String.eqb (Store.u_username u) username)
                 (users w)).

Definition set_users (w : World) (us : list Store.User) : World :=
  {| dresses := dresses w; categories := categories w; users := us;
     destroy_calls := destroy_calls w; console := console w |}.

(** [user.save()].  models/userModel is not among the sources: [hash] is
    what its pre-save hook stores for a password, [save_fault] what the
    store answers to the write. *)
Definition User_save (hash : string -> string) (save_fault : option Err)
    (u : Store.User) : M unit :=
  match save_fault with
  | Some e => throw e
  | None =>
      w <- get ;;
      put (set_users w
             (users w ++
              [{| Store.u_id := Store.u_id u;
                  Store.u_username := Store.u_username u;
                  Store.u_email := Store.u_email u;
                  Store.u_password := hash (Store.u_password u);
                  Store.u_role := Store.u_role u |}])%list)
  end.

(** [POST /api/auth/register]. *)
Definition register (hash : string -> string) (save_fault : option Err)
    (body : Body) : M Response :=
  try_catch
    (match r_username body, r_email body, r_password body with
     | Some username, Some email, Some password =>
         if negb (Js.truthy_str username) || negb (Js.truthy_str email)
            || negb (Js.truthy_str password)
         then ret (failure 400 "Please provide username, email, and password")
         else
           existing <- User_findOne_either email username ;;
           match existing with
           | Some _ => ret (failure 400 "Username or email already in use")
           | None =>
               env <- ask ;;
               User_save hash save_fault
                 {| Store.u_id := new_id env;
                    Store.u_username := username;
                    Store.u_email := email;
                    Store.u_password := password;
                    Store.u_role :=
                      match r_role body with
                      | Some r => if String.eqb r "admin" then "admin" else "user"
                      | None => "user"
                      end |} ;;;
               ret (ok 201 (Some "User registered successfully") NoData)
           end
     | _, _, _ => ret (failure 400 "Please provide username, email, and password")
     end)
    (fun error =>
       console_error "Register error:" ;;;
       ret (failure_with 500 "Server error while registering" error)).

End Register.

(** ** routes/routes.js: the deletions *)

Module Deletes.

Import Eff Http Odm.

(** The store's answer to a [findByIdAndDelete], given with the request. *)
Definition store_answer (fault : option Err) : M unit :=
  match fault with
  | Some e => throw e
  | None => ret tt
  end.

(** [Category.findByIdAndDelete(id)]. *)
Definition Category_findByIdAndDelete (fault : option Err) (raw : string) : M unit :=
  store_answer fault ;;;
  oid <- cast_id raw ;;
  w <- get ;;
  put (set_categories w (delete oid (categories w))).

(** [Dress.findByIdAndDelete(id)]. *)
Definition Dress_findByIdAndDelete (fault : option Err) (raw : string) : M unit :=
  store_answer fault ;;;
  oid <- cast_id raw ;;
  w <- get ;;
  put (set_dresses w (delete oid (dresses w))).

(** A count inside a template literal. *)
Definition count_text (n : Z) : string :=
  NilEmpty.string_of_uint (Nat.to_uint (Z.to_nat n)).

(** [DELETE /api/category/:id]. *)
Definition delete_category (delete_fault : option Err) (id : string) : M Response :=
  try_catch
    (found <- Category_findById id ;;
     match found with
     | None => ret (failure 404 "Category not found")
     | Some category =>
         (* If there are dresses in this category, don't delete *)
         oid <- cast_id id ;;
         dressCount <- Dress_countDocuments
                         (fun d => String.eqb (Store.d_category d) oid) ;;
         if (0 <? dressCount)%Z
         then ret (failure 400
                     ("Cannot delete category. " ++ count_text dressCount
                      ++ " dresses belong to this category."))
         else
           (* Delete the Cloudinary image *)
           Upload.deleteFromCloudinary (Model.cat_image_public_id category) ;;;
           (* Delete the document *)
           Category_findByIdAndDelete delete_fault id ;;;
           ret (ok 200 (Some "Category deleted successfully") NoData)
     end)
    (fun error => ret (failure_with 500 "Error deleting category" error)).

(** [DELETE /api/dress/:id]. *)
Definition delete_dress (delete_fault : option Err) (id : string) : M Response :=
  try_catch
    (found <- Dress_findById id ;;
     match found with
     | None => ret (failure 404 "Dress not found")
     | Some dress =>
         (* Delete all Cloudinary images *)
         let publicIds := List.map Store.public_id (Store.d_images dress) in
         when (0 <? List.length publicIds)%nat
              (Upload.deleteMultipleFromCloudinary publicIds) ;;;
         (* Delete dress document *)
         Dress_findByIdAndDelete delete_fault id ;;;
         ret (ok 200 (Some "Dress deleted successfully") NoData)
     end)
    (fun error => ret (failure_with 500 "Error deleting dress" error)).

End Deletes.

(** ** routes/routes.js: the featured dresses *)

Module Featured.

Import Eff Http.


Fixpoint insert_by (le : Store.Dress -> Store.Dress -> bool) (d : Store.Dress)
    (l : list Store.Dress) : list Store.Dress :=
  match l with
  | [] => [d]
  | x :: l' => if le d x then d :: l else x :: insert_by le d l'
  end.

Definition sort_by (le : Store.Dress -> Store.Dress -> bool) (l : list Store.Dress)
  : list Store.Dress :=
  List.fold_right (insert_by le) [] l.





End Featured.

(** ** models/model.js: the contact number *)

Module Whatsapp.

(** [/^\+?[1-9]\d{1,14}$/.test(v)]: an optional plus sign, a digit from 1
    to 9, then 1 to 14 digits. *)
Definition all_digits (s : string) : bool :=
  forallb Js.is_digit (list_ascii_of_string s).

Definition national (s : string) : bool :=
  match s with
  | String c rest =>
      Js.in_range 49 57 c
      && all_digits rest
      && (1 <=? String.length rest)%nat && (String.length rest <=? 14)%nat
  | EmptyString => false
  end.

Definition valid_number (v : string) : bool :=
  match v with
  | String "+" rest => national rest
  | _ => national v
  end.

(** [this.whatsappNumber.replace(/[\s+]/g, '')]: white space and plus
    signs are dropped. *)
Fixpoint cleanNumber (s : string) : string :=
  match s with
  | EmptyString => EmptyString
  | String c s' =>
      if Js.is_space c || Ascii.eqb c "+" then cleanNumber s'
      else String c (cleanNumber s')
  end.

End Whatsapp.

(** ** Further properties in the words of the code *)

Module Props2.

(** A well-formed collection of dresses: every dress is stored under its
    own id, has an image, and has a price that the schema accepts. *)
Definition dresses_ok (w : Eff.World) : Prop :=
  forall k d,
    Eff.dresses w !! k = Some d ->
    Store.d_id d = k
    /\ Store.d_images d <> []
    /\ Model.price_valid (Store.d_price d) = true.

(** A well-formed collection of categories: every category is stored under
    its own id with the slug of its name, and no two categories share a
    name or a slug. *)
Definition categories_ok (w : Eff.World) : Prop :=
  (forall k c,
      Eff.categories w !! k = Some c ->
      Model.cat_id c = k /\ Model.cat_slug c = Model.slugify (Model.cat_name c))
  /\ (forall k1 c1 k2 c2,
         Eff.categories w !! k1 = Some c1 ->
         Eff.categories w !! k2 = Some c2 ->
         Model.cat_name c1 = Model.cat_name c2 \/ Model.cat_slug c1 = Model.cat_slug c2 ->
         k1 = k2).

(** A computation keeps a property of the world, whatever the
    collaborators answer and whether or not it throws. *)
Definition preserves (I : Eff.World -> Prop) {A} (m : Eff.M A) : Prop :=
  forall env w, I w -> I (snd (m env w)).

(** A property of the collections alone. *)
Definition data_only (I : Eff.World -> Prop) : Prop :=
  forall w w',
    Eff.dresses w' = Eff.dresses w -> Eff.categories w' = Eff.categories w ->
    I w -> I w'.

(** The collections and the users of two worlds are the same. *)
Definition same_data (w w' : Eff.World) : Prop :=
  Eff.dresses w' = Eff.dresses w
  /\ Eff.categories w' = Eff.categories w
  /\ Eff.users w' = Eff.users w.




(** A text without a space. *)
Definition no_space (s : string) : bool :=
  Props.all_chars (fun c => negb (Ascii.eqb c " ")) s.


(** The views of a dress set aside. *)
Definition without_views (d : Store.Dress) : Store.Dress := Store.set_views d 0.


End Props2.

(** ** Further sample data *)

Module Sample2.

Definition admin_identity : AuthMiddleware.Identity :=
  {| AuthMiddleware.id := AuthMiddleware.Str "65f000000000000000000004";
     AuthMiddleware.role := AuthMiddleware.Str "admin" |}.

Definition user_identity : AuthMiddleware.Identity :=
  {| AuthMiddleware.id := AuthMiddleware.Str "65f000000000000000000003";
     AuthMiddleware.role := AuthMiddleware.Str "user" |}.

(** Two tokens verify; every other text does not. *)
Definition verify (token : string) : option AuthMiddleware.Identity :=
  if String.eqb token "admin-token" then Some admin_identity
  else if String.eqb token "user-token" then Some user_identity
  else None.

Definition with_header (h : option string) : AuthMiddleware.Request :=
  {| AuthMiddleware.authorization := h; AuthMiddleware.user := None |}.

(** A hash that only marks the password. *)
Definition hash (p : string) : string := "hashed:" ++ p.

(** Collaborators as in [Sample.env], with the comparison that goes with
    [hash]. *)
Definition env : Eff.Env :=
  {| Eff.destroy_fault := fun _ => None;
     Eff.store_fault := fun _ => None;
     Eff.match_password := fun u p => String.eqb (Store.u_password u) (hash p);
     Eff.jwt_sign := Eff.jwt_sign Sample.env;
     Eff.new_id := "65f000000000000000000009";
     Eff.now := 1700000000;
     Eff.find_nan_window := fun ds => Eff.Ret ds |}.

Definition bob : Register.Body :=
  {| Register.r_username := Some "bob";
     Register.r_email := Some "bob@example.com";
     Register.r_password := Some "tr0ub4dor";
     Register.r_role := Some "superuser" |}.

(** A category that no dress refers to. *)
Definition winter : Model.Category :=
  {| Model.cat_id := "65f000000000000000000005";
     Model.cat_name := "Winter Coats";
     Model.cat_description := None;
     Model.cat_image_url := "https://img.example/winter.jpg";
     Model.cat_image_public_id := "categories/winter";
     Model.cat_slug := "winter-coats";
     Model.cat_isActive := true;
     Model.cat_sortOrder := 1 |}.

Definition world : Eff.World :=
  {| Eff.dresses := {[ Store.d_id Sample.abc := Sample.abc ]};
     Eff.categories :=
       <[ Model.cat_id winter := winter ]> {[ Model.cat_id Sample.summer := Sample.summer ]};
     Eff.users := [Sample.alice];
     Eff.destroy_calls := [];
     Eff.console := [] |}.

(** A dress request that passes the validation. *)
Definition gown : Routes.DressBody :=
  {| Routes.b_name := Some " Gown ";
     Routes.b_description := Some "silk";
     Routes.b_category := Some "65f000000000000000000001";
     Routes.b_price :=
       Routes.Given {| Model.original := 100; Model.discounted := Some 80%Q |};
     Routes.b_material := None;
     Routes.b_tags := Routes.Given [" Evening "];
     Routes.b_isFeatured := Some true;
     Routes.b_isActive := None;
     Routes.b_sortOrder := None;
     Routes.b_images := Some [Sample.sleeve];
     Routes.b_removeImages := Routes.Absent;
     Routes.b_newImages := None |}.

(** An update that swaps the front image of the stored dress for another
    one and renames the dress. *)
Definition swap_front : Routes.DressBody :=
  {| Routes.b_name := Some "abc deluxe";
     Routes.b_description := None;
     Routes.b_category := None;
     Routes.b_price := Routes.Absent;
     Routes.b_material := None;
     Routes.b_tags := Routes.Absent;
     Routes.b_isFeatured := None;
     Routes.b_isActive := None;
     Routes.b_sortOrder := None;
     Routes.b_images := None;
     Routes.b_removeImages := Routes.Given ["dresses/abc-front"];
     Routes.b_newImages := Some [Sample.sleeve] |}.

Definition spring : Routes.CategoryBody :=
  {| Routes.cb_name := Some "Spring Collection";
     Routes.cb_description := None;
     Routes.cb_sortOrder := None;
     Routes.cb_isActive := None;
     Routes.cb_imageUrl := Some "https://img.example/spring.jpg";
     Routes.cb_public_id := Some "categories/spring" |}.

End Sample2.

(** * Theorems *)

(** ** The slug of a category *)

Section Slug.

Import Js Props.

Lemma lowered_char_in_slug_alphabet (c : ascii) :
  slug_char (if is_alnum (lower_char c) then lower_char c else "-"%char) = true.
Proof. destruct c as [[] [] [] [] [] [] [] []]; reflexivity. Qed.

Lemma replaced_in_slug_alphabet (s : string) :
  all_chars slug_char (replace_non_alnum (toLowerCase s)) = true.
Proof.
  induction s as [|c s IH]; simpl; [reflexivity|].
  rewrite lowered_char_in_slug_alphabet. exact IH.
Qed.

Lemma collapse_keeps_alphabet (p : ascii -> bool) (s : string) :
  all_chars p s = true -> all_chars p (collapse_hyphens s) = true.
Proof.
  induction s as [|c s IH]; [reflexivity|].
  intros H. simpl in H. apply andb_prop in H as [Hc Hs].
  specialize (IH Hs). cbn [collapse_hyphens].
  destruct (is_hyphen c).
  - destruct s as [|c' s']; [simpl; now rewrite Hc|].
    destruct (is_hyphen c'); [exact IH|].
    cbn [all_chars]. rewrite Hc. exact IH.
  - cbn [all_chars]. rewrite Hc. exact IH.
Qed.

(** After the collapse, the first character is the first character of the
    input as far as being a hyphen goes. *)
Lemma collapse_head (s : string) :
  starts_with_hyphen (collapse_hyphens s) = starts_with_hyphen s.
Proof.
  induction s as [|c s IH]; [reflexivity|].
  cbn [collapse_hyphens]. destruct (is_hyphen c) eqn:Hc.
  - destruct s as [|c' s']; [reflexivity|].
    destruct (is_hyphen c') eqn:Hc'.
    + rewrite IH. simpl. now rewrite Hc, Hc'.
    + reflexivity.
  - simpl. now rewrite Hc.
Qed.

Lemma single_hyphens_cons (c : ascii) (s : string) :
  single_hyphens s = true ->
  (is_hyphen c && starts_with_hyphen s = false) ->
  single_hyphens (String c s) = true.
Proof.
  intros Hs Hc. destruct s as [|b s']; [reflexivity|].
  cbn [single_hyphens]. simpl in Hc. rewrite Hc. exact Hs.
Qed.

Lemma collapse_single_hyphens (s : string) :
  single_hyphens (collapse_hyphens s) = true.
Proof.
  induction s as [|c s IH]; [reflexivity|].
  cbn [collapse_hyphens]. destruct (is_hyphen c) eqn:Hc.
  - destruct s as [|c' s']; [reflexivity|].
    destruct (is_hyphen c') eqn:Hc'; [exact IH|].
    apply single_hyphens_cons; [exact IH|].
    rewrite collapse_head. simpl. rewrite Hc'. apply andb_false_r.
  - apply single_hyphens_cons; [exact IH|]. now rewrite Hc.
Qed.

Lemma strip_trailing_keeps_alphabet (p : ascii -> bool) (s : string) :
  all_chars p s = true -> all_chars p (strip_trailing_hyphen s) = true.
Proof.
  induction s as [|c s IH]; [reflexivity|].
  intros H. simpl in H. apply andb_prop in H as [Hc Hs].
  cbn [strip_trailing_hyphen]. destruct s as [|c' s'].
  - destruct (is_hyphen c); [reflexivity|]. simpl. now rewrite Hc.
  - cbn [all_chars]. rewrite Hc. exact (IH Hs).
Qed.

Lemma strip_trailing_head (s : string) :
  starts_with_hyphen s = false ->
  starts_with_hyphen (strip_trailing_hyphen s) = false.
Proof.
  destruct s as [|c s]; [reflexivity|].
  intros H. cbn [strip_trailing_hyphen]. destruct s as [|c' s'].
  - simpl in H. now rewrite H.
  - exact H.
Qed.

Lemma strip_trailing_head_le (s : string) :
  starts_with_hyphen (strip_trailing_hyphen s) = true ->
  starts_with_hyphen s = true.
Proof.
  destruct (starts_with_hyphen s) eqn:H; [reflexivity|].
  now rewrite (strip_trailing_head s H).
Qed.

Lemma strip_trailing_single_hyphens (s : string) :
  single_hyphens s = true -> single_hyphens (strip_trailing_hyphen s) = true.
Proof.
  induction s as [|c s IH]; [reflexivity|].
  intros H. cbn [strip_trailing_hyphen]. destruct s as [|c' s'].
  - now destruct (is_hyphen c).
  - cbn [single_hyphens] in H. apply andb_prop in H as [Hcc Hs].
    apply single_hyphens_cons; [exact (IH Hs)|].
    destruct (is_hyphen c) eqn:Hc; [|reflexivity]. rewrite andb_true_l.
    destruct (starts_with_hyphen (strip_trailing_hyphen (String c' s'))) eqn:Hh;
      [|reflexivity].
    apply strip_trailing_head_le in Hh. simpl in Hh.
    rewrite Hh in Hcc. discriminate.
Qed.

Lemma strip_trailing_end (s : string) :
  single_hyphens s = true -> ends_with_hyphen (strip_trailing_hyphen s) = false.
Proof.
  induction s as [|c s IH]; [reflexivity|].
  intros H. cbn [strip_trailing_hyphen]. destruct s as [|c' s'].
  - destruct (is_hyphen c) eqn:Hc; [reflexivity|]. simpl. exact Hc.
  - cbn [single_hyphens] in H. apply andb_prop in H as [Hcc Hs].
    specialize (IH Hs).
    destruct (strip_trailing_hyphen (String c' s')) as [|d t] eqn:Ht.
    + (* the rest was a lone hyphen: [c] is not one *)
      destruct s' as [|c'' s'']; [|cbn [strip_trailing_hyphen] in Ht; discriminate].
      cbn [strip_trailing_hyphen] in Ht.
      destruct (is_hyphen c') eqn:Hc'; [|discriminate].
      simpl. rewrite andb_true_r in Hcc. now destruct (is_hyphen c).
    + exact IH.
Qed.

Lemma strip_leading_keeps_alphabet (p : ascii -> bool) (s : string) :
  all_chars p s = true -> all_chars p (strip_leading_hyphen s) = true.
Proof.
  destruct s as [|c s]; [reflexivity|].
  intros H. simpl. destruct (is_hyphen c); [|exact H].
  simpl in H. now apply andb_prop in H as [_ Hs].
Qed.

Lemma single_hyphens_tail (c : ascii) (s : string) :
  single_hyphens (String c s) = true -> single_hyphens s = true.
Proof.
  destruct s as [|b s']; [reflexivity|].
  cbn [single_hyphens]. intros H. now apply andb_prop in H as [_ Hs].
Qed.

Lemma strip_leading_single_hyphens (s : string) :
  single_hyphens s = true -> single_hyphens (strip_leading_hyphen s) = true.
Proof.
  destruct s as [|c s]; [reflexivity|].
  intros H. simpl. destruct (is_hyphen c); [|exact H].
  exact (single_hyphens_tail c s H).
Qed.

Lemma strip_leading_head (s : string) :
  single_hyphens s = true -> starts_with_hyphen (strip_leading_hyphen s) = false.
Proof.
  destruct s as [|c s]; [reflexivity|].
  intros H. simpl. destruct (is_hyphen c) eqn:Hc; [|simpl; exact Hc].
  destruct s as [|b s']; [reflexivity|].
  cbn [single_hyphens] in H. apply andb_prop in H as [Hcb _].
  rewrite Hc in Hcb. simpl in *. now destruct (is_hyphen b).
Qed.

Lemma slugify_ok (name : string) : slug_ok (Model.slugify name).
Proof.
  unfold Model.slugify, strip_edge_hyphens.
  set (s := collapse_hyphens (replace_non_alnum (toLowerCase name))).
  assert (Ha : all_chars slug_char s = true)
    by apply collapse_keeps_alphabet, replaced_in_slug_alphabet.
  assert (Hs : single_hyphens s = true) by apply collapse_single_hyphens.
  pose proof (strip_leading_single_hyphens s Hs) as Hs'.
  repeat split.
  - now apply strip_trailing_keeps_alphabet, strip_leading_keeps_alphabet.
  - now apply strip_trailing_single_hyphens.
  - now apply strip_trailing_head, strip_leading_head.
  - now apply strip_trailing_end.
Qed.

End Slug.

(** C8. The slug that the pre-save hook derives is a function of the name
    alone: whenever the name was modified, the hook stores [slugify name].
    For every name that slug consists of lowercase alphanumerics and
    hyphens only, has no two hyphens in a row, and neither starts nor ends
    with a hyphen. *)
Theorem slug_is_well_formed_function_of_name (c : Model.Category) :
  Model.cat_slug (Model.category_pre_save true c) = Model.slugify (Model.cat_name c)
  /\ Model.cat_name (Model.category_pre_save true c) = Model.cat_name c
  /\ Props.slug_ok (Model.slugify (Model.cat_name c)).
Proof.
  split; [reflexivity|]. split; [reflexivity|]. apply slugify_ok.
Qed.

(** A save that succeeds after a change of the name stores the category
    under the slug of its name. *)
Lemma Category_save_stores_the_slug (env : Eff.Env) (w w' : Eff.World)
    (c c' : Model.Category) :
  Odm.Category_save true c env w = (Eff.Ret c', w') ->
  Model.cat_slug c' = Model.slugify (Model.cat_name c)
  /\ Eff.categories w' !! Model.cat_id c = Some c'.
Proof.
  unfold Odm.Category_save, Eff.bind, Eff.store_op, Eff.get, Eff.put, Eff.ret, Eff.throw.
  destruct (Model.category_valid c); [|discriminate].
  destruct (Eff.store_fault env Eff.CategorySave); [discriminate|].
  destruct (Odm.first_match _ _); [discriminate|].
  intros H. injection H as <- <-. split; [reflexivity|].
  cbn. apply lookup_insert_eq.
Qed.

(** A name that was not modified keeps the stored slug. *)
Lemma slug_kept_without_rename (c : Model.Category) :
  Model.category_pre_save false c = c.
Proof. reflexivity. Qed.

(** Renaming the sample category stores it under the new slug. *)
Example renamed_category_gets_new_slug :
  fst (Routes.put_category "65f000000000000000000001"
         {| Routes.cb_name := Some "Winter Coats & Jackets";
            Routes.cb_description := None; Routes.cb_sortOrder := None;
            Routes.cb_isActive := None; Routes.cb_imageUrl := None;
            Routes.cb_public_id := None |}
         Sample.env Sample.world)
  = Eff.Ret (Http.ok 200 (Some "Category updated successfully")
               (Http.CategoryData
                  {| Model.cat_id := "65f000000000000000000001";
                     Model.cat_name := "Winter Coats & Jackets";
                     Model.cat_description := None;
                     Model.cat_image_url := "https://img.example/summer.jpg";
                     Model.cat_image_public_id := "categories/summer";
                     Model.cat_slug := "winter-coats-jackets";
                     Model.cat_isActive := true;
                     Model.cat_sortOrder := 0 |})).
Proof. vm_compute. reflexivity. Qed.

Example slug_of_sample_name :
  Model.slugify "  Summer -- Dresses! 2024 " = "summer-dresses-2024".
Proof. reflexivity. Qed.

(** ** The derived prices *)

Section Prices.

Import Model.

(** Without a discounted price both virtuals are as specified. *)
Lemma prices_without_discount (o : Q) :
  effectivePrice {| original := o; discounted := None |} = o
  /\ discountPercentage {| original := o; discounted := None |} = 0%Z.
Proof. split; reflexivity. Qed.

(** With a discounted price other than zero, the effective price is the
    discounted one. *)
Lemma effectivePrice_of_discount (o d : Q) :
  ~ (d == 0)%Q ->
  effectivePrice {| original := o; discounted := Some d |} = d.
Proof.
  intros Hd. unfold effectivePrice, Js.truthy_num. simpl.
  destruct (Qeq_bool d 0) eqn:E; [|reflexivity].
  apply Qeq_bool_iff in E. contradiction.
Qed.

(** With a discounted price other than zero and a positive original
    price, the percentage is the rounded share of the reduction. *)
Lemma discountPercentage_of_discount (o d : Q) :
  ~ (d == 0)%Q -> (0 < o)%Q ->
  discountPercentage {| original := o; discounted := Some d |}
  = Js.Math_round (((o - d) / o) * 100).
Proof.
  intros Hd Ho. unfold discountPercentage, has_discount, Js.truthy_num. simpl.
  destruct (Qeq_bool d 0) eqn:E; [apply Qeq_bool_iff in E; contradiction|].
  destruct (Qle_bool o 0) eqn:L; [|reflexivity].
  apply Qle_bool_iff in L. exfalso. exact (Qlt_not_le _ _ Ho L).
Qed.

End Prices.

(** C1. A price of 100 discounted to 0 is a price the schema accepts; the
    specified effective price is 0 and the specified percentage 100, but
    the virtuals answer 100 and 0: a discounted price of zero is read as no
    discount at all. *)
Theorem zero_discount_read_as_no_discount :
  let p := {| Model.original := 100; Model.discounted := Some 0%Q |} in
  Model.price_valid p = true
  /\ Model.spec_effectivePrice p = 0%Q
  /\ Model.effectivePrice p = 100%Q
  /\ Model.spec_discountPercentage p = 100%Z
  /\ Model.discountPercentage p = 0%Z.
Proof. repeat split; reflexivity. Qed.

(** ** The admin gate *)

(** C10. A request without an identity, or with an identity whose role is
    anything but ['admin'], is answered by [adminOnly] with 403 Forbidden
    and is never passed on.  [adminOnly] is a function of the request alone:
    it has a value for every request and cannot throw. *)
Theorem adminOnly_forbids_without_admin (req : AuthMiddleware.Request) :
  (AuthMiddleware.user req = None
   \/ exists u, AuthMiddleware.user req = Some u
                /\ AuthMiddleware.role u <> AuthMiddleware.Str "admin") ->
  AuthMiddleware.adminOnly req
    = Http.Respond (Http.failure 403 "Access denied: admin only")
  /\ Http.error_kind (Http.failure 403 "Access denied: admin only") = Some Http.Forbidden
  /\ forall passed, AuthMiddleware.adminOnly req <> Http.Next passed.
Proof.
  intros H.
  assert (E : AuthMiddleware.adminOnly req
              = Http.Respond (Http.failure 403 "Access denied: admin only")).
  { unfold AuthMiddleware.adminOnly. destruct H as [-> | [u [-> Hr]]]; [reflexivity|].
    destruct (AuthMiddleware.role u) as [| |b|z|s]; try reflexivity.
    simpl. destruct (String.eqb s "admin") eqn:Es; [|reflexivity].
    apply String.eqb_eq in Es. subst s. contradiction. }
  split; [exact E|]. split; [reflexivity|].
  intros passed. rewrite E. discriminate.
Qed.

Lemma adminOnly_forbids_without_admin_witness :
  AuthMiddleware.adminOnly
    {| AuthMiddleware.authorization := None; AuthMiddleware.user := None |}
    = Http.Respond (Http.failure 403 "Access denied: admin only")
  /\ Http.error_kind (Http.failure 403 "Access denied: admin only") = Some Http.Forbidden
  /\ forall passed,
       AuthMiddleware.adminOnly
         {| AuthMiddleware.authorization := None; AuthMiddleware.user := None |}
       <> Http.Next passed.
Proof.
  apply (adminOnly_forbids_without_admin
           {| AuthMiddleware.authorization := None; AuthMiddleware.user := None |}).
  left. reflexivity.
Defined.

(** The gate opens exactly for an identity whose role is ['admin']. *)
Lemma adminOnly_passes_iff (req : AuthMiddleware.Request) :
  AuthMiddleware.adminOnly req = Http.Next req
  <-> exists u, AuthMiddleware.user req = Some u
                /\ AuthMiddleware.role u = AuthMiddleware.Str "admin".
Proof.
  unfold AuthMiddleware.adminOnly. split.
  - destruct (AuthMiddleware.user req) as [u|]; [|discriminate].
    destruct (AuthMiddleware.role u) as [| |b|z|s] eqn:Hr; try discriminate.
    simpl. destruct (String.eqb s "admin") eqn:Es; [|discriminate].
    apply String.eqb_eq in Es. subst s. intros _. exists u. now split.
  - intros [u [-> ->]]. reflexivity.
Qed.

(** ** Login *)

(** C9. A login with the email of an existing user and a password that
    does not match, and a login with an email that no user has, are
    answered alike: both with 401 Unauthorized and the same body, and the
    world is left as it was. *)
Theorem login_failures_are_alike (env : Eff.Env) (w : Eff.World)
    (email1 password1 email2 password2 : string) (u : Store.User) :
  Eff.store_fault env Eff.UserFindOne = None ->
  email1 <> "" -> password1 <> "" -> email2 <> "" -> password2 <> "" ->
  List.find (fun x => String.eqb (Store.u_email x) email1) (Eff.users w) = Some u ->
  Eff.match_password env u password1 = false ->
  List.find (fun x => String.eqb (Store.u_email x) email2) (Eff.users w) = None ->
  AuthRoutes.login (Some email1) (Some password1) env w
    = (Eff.Ret (Http.failure 401 "Invalid credentials"), w)
  /\ AuthRoutes.login (Some email2) (Some password2) env w
    = (Eff.Ret (Http.failure 401 "Invalid credentials"), w)
  /\ Http.error_kind (Http.failure 401 "Invalid credentials") = Some Http.Unauthorized.
Proof.
  intros Hstore He1 Hp1 He2 Hp2 Hfound Hwrong Hnone.
  assert (T : forall s, s <> "" -> Js.truthy_str s = true).
  { intros s Hs. unfold Js.truthy_str. destruct (String.eqb s "") eqn:E; [|reflexivity].
    apply String.eqb_eq in E. contradiction. }
  unfold AuthRoutes.login, AuthRoutes.missing, AuthRoutes.User_findOne,
    Eff.try_catch, Eff.bind, Eff.store_op, Eff.get, Eff.ask, Eff.ret.
  rewrite (T _ He1), (T _ Hp1), (T _ He2), (T _ Hp2). cbn.
  rewrite Hstore, Hfound, Hnone. cbn. rewrite Hwrong. repeat split.
Qed.

Lemma login_failures_are_alike_witness :
  AuthRoutes.login (Some "alice@example.com") (Some "guess") Sample.env Sample.world
    = (Eff.Ret (Http.failure 401 "Invalid credentials"), Sample.world)
  /\ AuthRoutes.login (Some "bob@example.com") (Some "guess") Sample.env Sample.world
    = (Eff.Ret (Http.failure 401 "Invalid credentials"), Sample.world)
  /\ Http.error_kind (Http.failure 401 "Invalid credentials") = Some Http.Unauthorized.
Proof.
  apply (login_failures_are_alike Sample.env Sample.world
           "alice@example.com" "guess" "bob@example.com" "guess" Sample.alice);
    first [reflexivity | discriminate].
Defined.


(** ** Running a handler *)

Ltac unfold_eff :=
  unfold Eff.try_catch, Eff.bind, Eff.when, Eff.store_op, Eff.get, Eff.put,
    Eff.ask, Eff.ret, Eff.throw, Eff.console_error in *.

Lemma truthy_str_nonempty (s : string) : s <> "" -> Js.truthy_str s = true.
Proof.
  intros Hs. unfold Js.truthy_str.
  destruct (String.eqb s "") eqn:E; [|reflexivity].
  apply String.eqb_eq in E. contradiction.
Qed.

(** ** The view count of a fetched dress *)

Section Views.

Variables (env : Eff.Env) (w : Eff.World) (id oid : string) (d : Store.Dress).

Hypothesis id_cast : Odm.castObjectId id = Some oid.
Hypothesis stored : Eff.dresses w !! oid = Some d.
Hypothesis active : Store.d_isActive d = true.
Hypothesis found_ok : Eff.store_fault env Eff.DressFindOne = None.
Hypothesis populate_ok : Eff.store_fault env Eff.Populate = None.

(** When the store accepts the increment, the fetch answers with the dress
    as it was read and leaves the stored count one higher. *)
Lemma get_dress_counts_the_view :
  Eff.store_fault env Eff.DressFindByIdAndUpdate = None ->
  Routes.get_dress id env w
  = (Eff.Ret (Http.ok 200 None (Http.DressData d)),
     Eff.set_dresses w
       (<[oid := Store.set_views d (Store.d_views d + 1)]> (Eff.dresses w))).
Proof.
  intros Hinc.
  unfold Routes.get_dress, Odm.Dress_findOne_active, Odm.Dress_inc_views, Odm.cast_id.
  unfold_eff. rewrite found_ok, id_cast. cbn. rewrite stored, active, populate_ok.
  cbn. rewrite Hinc. cbn. do 2 f_equal.
  apply map_eq. intros k.
  destruct (decide (k = oid)) as [->|Hne].
  - rewrite lookup_alter_eq, lookup_insert_eq, stored. reflexivity.
  - rewrite lookup_alter_ne, lookup_insert_ne by congruence. reflexivity.
Qed.

(** When the store rejects the increment, the fetch fails with it. *)
Lemma get_dress_fails_with_the_increment (e : Eff.Err) :
  Eff.store_fault env Eff.DressFindByIdAndUpdate = Some e ->
  Routes.get_dress id env w
  = (Eff.Ret (Http.failure_with 500 "Error fetching dress" e), w).
Proof.
  intros Hinc.
  unfold Routes.get_dress, Odm.Dress_findOne_active, Odm.Dress_inc_views, Odm.cast_id.
  unfold_eff. rewrite found_ok, id_cast. cbn. rewrite stored, active, populate_ok.
  cbn. rewrite Hinc. reflexivity.
Qed.

(** Two fetches in a row report the counts N and N+1, and the store then
    holds N+2. *)
Lemma two_fetches_in_a_row :
  Eff.store_fault env Eff.DressFindByIdAndUpdate = None ->
  let '(first, w1) := Routes.get_dress id env w in
  let '(second, w2) := Routes.get_dress id env w1 in
  first = Eff.Ret (Http.ok 200 None (Http.DressData d))
  /\ second = Eff.Ret (Http.ok 200 None
                        (Http.DressData (Store.set_views d (Store.d_views d + 1))))
  /\ Store.d_views <$> (Eff.dresses w2 !! oid) = Some (Store.d_views d + 2)%Z.
Proof.
  intros Hinc. rewrite (get_dress_counts_the_view Hinc).
  set (d1 := Store.set_views d (Store.d_views d + 1)).
  set (w1 := Eff.set_dresses w (<[oid := d1]> (Eff.dresses w))).
  assert (H1 : Routes.get_dress id env w1
               = (Eff.Ret (Http.ok 200 None (Http.DressData d1)),
                  Eff.set_dresses w1
                    (<[oid := Store.set_views d1 (Store.d_views d1 + 1)]> (Eff.dresses w1)))).
  { unfold Routes.get_dress, Odm.Dress_findOne_active, Odm.Dress_inc_views, Odm.cast_id.
    unfold_eff. rewrite found_ok, id_cast. cbn. rewrite lookup_insert_eq. cbn.
    rewrite active, populate_ok. cbn. rewrite Hinc. cbn. do 2 f_equal.
    apply map_eq. intros k.
    destruct (decide (k = oid)) as [->|Hne].
    - rewrite lookup_alter_eq, !lookup_insert_eq. reflexivity.
    - rewrite lookup_alter_ne, !lookup_insert_ne by congruence. reflexivity. }
  rewrite H1. split; [reflexivity|]. split; [reflexivity|].
  cbn. rewrite lookup_insert_eq. cbn. f_equal. lia.
Qed.

End Views.

(** C3. The handler awaits the increment inside its [try] block, under
    the comment "fire-and-forget": for the stored, active sample dress and a
    store that rejects only the increment, the fetch is answered with 500
    "Error fetching dress", although the same fetch succeeds with the dress
    when the increment is accepted. *)
Theorem failed_increment_fails_the_fetch :
  Eff.dresses Sample.world !! Store.d_id Sample.abc = Some Sample.abc
  /\ Routes.get_dress (Store.d_id Sample.abc) Sample.env_increment_fails Sample.world
     = (Eff.Ret (Http.failure_with 500 "Error fetching dress" Sample.store_down),
        Sample.world)
  /\ fst (Routes.get_dress (Store.d_id Sample.abc) Sample.env Sample.world)
     = Eff.Ret (Http.ok 200 None (Http.DressData Sample.abc)).
Proof.
  split; [vm_compute; reflexivity|]. split.
  - apply (get_dress_fails_with_the_increment
             Sample.env_increment_fails Sample.world
             (Store.d_id Sample.abc) (Store.d_id Sample.abc) Sample.abc);
      reflexivity || (vm_compute; reflexivity).
  - rewrite (get_dress_counts_the_view
               Sample.env Sample.world
               (Store.d_id Sample.abc) (Store.d_id Sample.abc) Sample.abc);
      reflexivity || (vm_compute; reflexivity).
Qed.


(** ** Compensation after a failed create or update *)

Lemma deleteFromCloudinary_accepted (env : Eff.Env) (w : Eff.World) (p : string) :
  Eff.destroy_fault env p = None ->
  Upload.deleteFromCloudinary p env w = (Eff.Ret tt, Eff.add_destroy_call w p).
Proof.
  intros H. unfold Upload.deleteFromCloudinary, Upload.destroy, Eff.try_catch.
  now rewrite H.
Qed.

(** A rejected deletion is written to the console and thrown again. *)
Lemma deleteFromCloudinary_rejected (env : Eff.Env) (w : Eff.World) (p : string)
    (e : Eff.Err) :
  Eff.destroy_fault env p = Some e ->
  Upload.deleteFromCloudinary p env w
  = (Eff.Throw e,
     Eff.add_console (Eff.add_destroy_call w p) "Error deleting from Cloudinary:").
Proof.
  intros H. unfold Upload.deleteFromCloudinary, Upload.destroy, Eff.try_catch.
  now rewrite H.
Qed.

(** Every deletion of a batch is asked of the host, whatever the host
    answers, and nothing else in the world changes. *)
Lemma Promise_all_calls (env : Eff.Env) (ps : list string) (w : Eff.World) :
  snd (Upload.Promise_all (List.map Upload.destroy ps) env w)
  = {| Eff.dresses := Eff.dresses w; Eff.categories := Eff.categories w;
       Eff.users := Eff.users w;
       Eff.destroy_calls := (List.rev ps ++ Eff.destroy_calls w)%list;
       Eff.console := Eff.console w |}.
Proof.
  revert w. induction ps as [|p ps IH]; intros w; [now destruct w|].
  cbn [List.map Upload.Promise_all]. unfold Upload.destroy at 1.
  destruct (Eff.destroy_fault env p);
    [ destruct (Upload.Promise_all (List.map Upload.destroy ps) env
                  (Eff.add_destroy_call w p)) as [o w'] eqn:E
    | destruct (Upload.Promise_all (List.map Upload.destroy ps) env
                  (Eff.add_destroy_call w p)) as [o w'] eqn:E ];
    pose proof (IH (Eff.add_destroy_call w p)) as IH'; rewrite E in IH';
    cbn [snd] in *; rewrite IH'; cbn; now rewrite <- app_assoc.
Qed.

(** A batch whose deletions the host accepts resolves. *)
Lemma Promise_all_accepted (env : Eff.Env) (ps : list string) (w : Eff.World) :
  Props.host_deletes env ps ->
  fst (Upload.Promise_all (List.map Upload.destroy ps) env w) = Eff.Ret tt.
Proof.
  revert w. induction ps as [|p ps IH]; intros w H; [reflexivity|].
  cbn [List.map Upload.Promise_all]. unfold Upload.destroy at 1.
  rewrite (H p) by now left.
  apply IH. intros q Hq. apply H. now right.
Qed.

Section Compensation.

Variables (env : Eff.Env) (w : Eff.World).
Variables (body : Routes.CategoryBody) (imageUrl public_id : string) (cause : Eff.Err).

Hypothesis has_url : Routes.cb_imageUrl body = Some imageUrl.
Hypothesis has_id : Routes.cb_public_id body = Some public_id.
Hypothesis url_set : imageUrl <> "".
Hypothesis id_set : public_id <> "".
Hypothesis valid :
  Model.category_valid (Routes.new_category env body imageUrl public_id) = true.
Hypothesis save_fails : Eff.store_fault env Eff.CategorySave = Some cause.

Lemma post_category_reaches_catch :
  Routes.post_category body env w
  = Eff.bind
      (Eff.when (Js.truthy_str public_id) (Upload.deleteFromCloudinary public_id))
      (fun _ =>
         if bool_decide (Eff.err_code cause = Some 11000%Z)
         then Eff.ret (Http.failure 400 "Category name already exists")
         else Eff.ret (Http.failure_with 500 "Error creating category" cause))
      env w.
Proof.
  unfold Routes.post_category, Routes.missing, Odm.Category_save.
  rewrite has_url, has_id, (truthy_str_nonempty _ url_set),
    (truthy_str_nonempty _ id_set).
  cbn [negb orb]. unfold_eff. cbn beta. rewrite valid, save_fails. reflexivity.
Qed.

(** When the save of a new category fails and the host accepts the
    deletion of the uploaded image, the answer reports the cause. *)
Lemma post_category_compensated :
  Eff.destroy_fault env public_id = None ->
  Routes.post_category body env w
  = (Eff.Ret (if bool_decide (Eff.err_code cause = Some 11000%Z)
              then Http.failure 400 "Category name already exists"
              else Http.failure_with 500 "Error creating category" cause),
     Eff.add_destroy_call w public_id).
Proof.
  intros Hhost. rewrite post_category_reaches_catch.
  rewrite (truthy_str_nonempty _ id_set). unfold Eff.when, Eff.bind.
  rewrite (deleteFromCloudinary_accepted _ _ _ Hhost).
  now destruct (bool_decide (Eff.err_code cause = Some 11000%Z)).
Qed.

(** When the host rejects that deletion, the handler throws the host's
    error and sends nothing; the cause of the failed save is lost. *)
Lemma post_category_compensation_rejected (e : Eff.Err) :
  Eff.destroy_fault env public_id = Some e ->
  Routes.post_category body env w
  = (Eff.Throw e,
     Eff.add_console (Eff.add_destroy_call w public_id)
       "Error deleting from Cloudinary:").
Proof.
  intros Hhost. rewrite post_category_reaches_catch.
  rewrite (truthy_str_nonempty _ id_set). unfold Eff.when, Eff.bind.
  now rewrite (deleteFromCloudinary_rejected _ _ _ _ Hhost).
Qed.

End Compensation.

(** C2. A category is created under a name that is taken, with an
    uploaded image; a dress is created with a price the schema rejects, with
    an uploaded image.  With an asset host that accepts deletions the
    uploaded asset is deleted and the answer names the cause.  With an asset
    host that rejects them the deletion is attempted and logged, and then
    the handler throws the host's error: no answer with the cause of the
    failed save is produced. *)
Theorem failed_compensation_replaces_the_cause :
  Routes.post_category Sample.duplicate_category Sample.env Sample.world
  = (Eff.Ret (Http.failure 400 "Category name already exists"),
     Eff.add_destroy_call Sample.world "categories/new")
  /\ Routes.post_category Sample.duplicate_category Sample.env_host_down Sample.world
     = (Eff.Throw Sample.host_down,
        Eff.add_console (Eff.add_destroy_call Sample.world "categories/new")
          "Error deleting from Cloudinary:")
  /\ Routes.post_dress Sample.overpriced_dress Sample.env Sample.world
     = (Eff.Ret (Http.failure_with 500 "Error creating dress"
                   (Odm.validation_failed "Dress")),
        Eff.add_destroy_call Sample.world "dresses/gown-sleeve")
  /\ Routes.post_dress Sample.overpriced_dress Sample.env_host_down Sample.world
     = (Eff.Throw Sample.host_down,
        Eff.add_console (Eff.add_destroy_call Sample.world "dresses/gown-sleeve")
          "Error deleting multiple images from Cloudinary:").
Proof. repeat split; vm_compute; reflexivity. Qed.

(** A create that fails on its JSON fields is answered before any
    compensation: the uploaded image stays on the asset host. *)
Example rejected_json_is_not_compensated :
  Routes.post_dress Sample.unparsable_dress Sample.env Sample.world
  = (Eff.Ret (Http.failure 400 "Invalid JSON format in request data"), Sample.world).
Proof. vm_compute. reflexivity. Qed.

(** ** An update that would leave a dress without images *)

Lemma deleteMultiple_accepted (env : Eff.Env) (ps : list string) (w : Eff.World) :
  Props.host_deletes env ps ->
  Upload.deleteMultipleFromCloudinary ps env w
  = (Eff.Ret tt,
     {| Eff.dresses := Eff.dresses w; Eff.categories := Eff.categories w;
        Eff.users := Eff.users w;
        Eff.destroy_calls := (List.rev ps ++ Eff.destroy_calls w)%list;
        Eff.console := Eff.console w |}).
Proof.
  intros H. unfold Upload.deleteMultipleFromCloudinary, Eff.try_catch.
  destruct ps as [|p ps]; [now destruct w|].
  pose proof (Promise_all_accepted env (p :: ps) w H) as Hfst.
  pose proof (Promise_all_calls env (p :: ps) w) as Hsnd.
  destruct (Upload.Promise_all (List.map Upload.destroy (p :: ps)) env w) as [o w'].
  cbn [fst snd] in *. now subst.
Qed.

(** Deletions on the asset host leave the collections alone, whatever the
    host answers. *)
Lemma deleteMultiple_keeps_dresses (env : Eff.Env) (ps : list string) (w : Eff.World) :
  Eff.dresses (snd (Upload.deleteMultipleFromCloudinary ps env w)) = Eff.dresses w.
Proof.
  unfold Upload.deleteMultipleFromCloudinary, Eff.try_catch.
  destruct ps as [|p ps]; [reflexivity|].
  pose proof (Promise_all_calls env (p :: ps) w) as Hsnd.
  destruct (Upload.Promise_all (List.map Upload.destroy (p :: ps)) env w) as [[u|e] w'];
    cbn [snd] in *; subst w'; reflexivity.
Qed.

Lemma remaining_images_none_removed (images : list Store.Image) :
  Routes.remaining_images [] images = images.
Proof.
  unfold Routes.remaining_images. induction images as [|i l IH]; [reflexivity|].
  cbn [List.filter Js.includes existsb negb]. f_equal. exact IH.
Qed.

Lemma set_dress_fields_images (d : Store.Dress) (body : Routes.DressBody)
    (price : option Model.Price) (tags : option (list string)) :
  Store.d_images (Routes.set_dress_fields d body price tags) = Store.d_images d.
Proof. reflexivity. Qed.

Section EmptyImageSet.

Variables (env : Eff.Env) (w : Eff.World) (id oid : string).
Variables (dress : Store.Dress) (body : Routes.DressBody).

Hypothesis find_ok : Eff.store_fault env Eff.DressFindById = None.
Hypothesis id_cast : Odm.castObjectId id = Some oid.
Hypothesis stored : Eff.dresses w !! oid = Some dress.
Hypothesis empties : Props.requested_images dress body = [].

Lemma nothing_added :
  match Routes.b_newImages body with
  | Some (_ :: _) => False
  | _ => True
  end.
Proof.
  unfold Props.requested_images in empties.
  destruct (Routes.b_newImages body) as [[|n ns]|]; try exact I.
  apply app_eq_nil in empties as [_ H]. discriminate.
Qed.

Lemma nothing_remains (removed : list string) :
  Routes.b_removeImages body = Routes.Given removed ->
  Routes.remaining_images removed (Store.d_images dress) = [].
Proof.
  intros H. unfold Props.requested_images in empties. rewrite H in empties.
  now apply app_eq_nil in empties as [? _].
Qed.

Lemma nothing_stored_without_removal :
  (forall removed, Routes.b_removeImages body <> Routes.Given removed) ->
  Store.d_images dress = [].
Proof.
  intros H. unfold Props.requested_images in empties.
  destruct (Routes.b_removeImages body) as [| |removed|] eqn:E;
    try (rewrite remaining_images_none_removed in empties;
         now apply app_eq_nil in empties as [? _]).
  now destruct (H removed).
Qed.

(** The request up to the removal of the images. *)
Lemma put_dress_rejected_when_host_deletes :
  (forall removed, Routes.b_removeImages body = Routes.Given removed ->
                   Props.host_deletes env removed) ->
  exists r w',
    Routes.put_dress id body env w = (Eff.Ret r, w')
    /\ (r = Http.failure 400 "Dress must have at least one image"
        \/ r = Http.failure 400 "Invalid JSON format in request data")
    /\ Eff.dresses w' = Eff.dresses w.
Proof.
  intros Hhost. pose proof nothing_added as Hnew.
  unfold Routes.put_dress, Odm.Dress_findById, Odm.cast_id.
  unfold_eff. rewrite find_ok, id_cast. cbn beta iota. rewrite stored.
  destruct (Routes.b_newImages body) as [[|n ns]|]; try contradiction.
  all: destruct (Routes.b_price body) as [| |price|]; cbn [Routes.parse_field_if_set];
    try (eexists _, w; split; [reflexivity|]; split; [now right|reflexivity]).
  all: destruct (Routes.b_tags body) as [| |tags|]; cbn [Routes.parse_field_if_set];
    try (eexists _, w; split; [reflexivity|]; split; [now right|reflexivity]).
  all: destruct (Routes.b_removeImages body) as [| |removed|] eqn:Erem;
    cbn [Routes.parse_field_if_set];
    try (eexists _, w; split; [reflexivity|]; split; [now right|reflexivity]).
  all: try (rewrite set_dress_fields_images,
              (nothing_stored_without_removal ltac:(intros ?; congruence));
            cbn; eexists _, w; split; [reflexivity|]; split; [now left|reflexivity]).
  all: pose proof (nothing_remains removed Erem) as Hrem;
    destruct removed as [|p ps];
    [ rewrite remaining_images_none_removed in Hrem;
      rewrite set_dress_fields_images, Hrem; cbn;
      eexists _, w; split; [reflexivity|]; split; [now left|reflexivity]
    | rewrite (deleteMultiple_accepted env (p :: ps) w (Hhost _ eq_refl));
      rewrite set_dress_fields_images, Hrem; cbn -[List.rev];
      eexists _, _; split; [reflexivity|]; split; [now left|reflexivity] ].
Qed.

(** Whatever the asset host answers, such a request writes nothing to the
    collection. *)
Lemma put_dress_never_saves_an_empty_set :
  Eff.dresses (snd (Routes.put_dress id body env w)) = Eff.dresses w.
Proof.
  pose proof nothing_added as Hnew.
  unfold Routes.put_dress, Odm.Dress_findById, Odm.cast_id.
  unfold_eff. rewrite find_ok, id_cast. cbn beta iota. rewrite stored.
  destruct (Routes.b_newImages body) as [[|n ns]|]; try contradiction.
  all: destruct (Routes.b_price body) as [| |price|]; cbn [Routes.parse_field_if_set];
    try reflexivity.
  all: destruct (Routes.b_tags body) as [| |tags|]; cbn [Routes.parse_field_if_set];
    try reflexivity.
  all: destruct (Routes.b_removeImages body) as [| |removed|] eqn:Erem;
    cbn [Routes.parse_field_if_set]; try reflexivity.
  all: try (rewrite set_dress_fields_images,
              (nothing_stored_without_removal ltac:(intros ?; congruence));
            reflexivity).
  all: pose proof (nothing_remains removed Erem) as Hrem;
    destruct removed as [|p ps];
    [ rewrite remaining_images_none_removed in Hrem;
      rewrite set_dress_fields_images, Hrem; reflexivity
    | pose proof (deleteMultiple_keeps_dresses env (p :: ps) w) as Hkeep;
      destruct (Upload.deleteMultipleFromCloudinary (p :: ps) env w) as [[u|e] w1];
      cbn [snd] in Hkeep;
      [ rewrite set_dress_fields_images, Hrem; cbn; exact Hkeep
      | cbn; exact Hkeep ] ].
Qed.

End EmptyImageSet.

(** C4. An update of a stored dress whose removals and additions leave no
    image is answered with 400 (a validation error), and the collection, so
    the stored image set of the dress, is as before: the record is not
    saved.  The lookup of the dress and the deletions that the request asks
    of the asset host are assumed to succeed. *)
Theorem emptying_update_is_rejected (env : Eff.Env) (w : Eff.World)
    (id oid : string) (dress : Store.Dress) (body : Routes.DressBody) :
  Eff.store_fault env Eff.DressFindById = None ->
  Odm.castObjectId id = Some oid ->
  Eff.dresses w !! oid = Some dress ->
  Props.requested_images dress body = [] ->
  (forall removed, Routes.b_removeImages body = Routes.Given removed ->
                   Props.host_deletes env removed) ->
  exists r w',
    Routes.put_dress id body env w = (Eff.Ret r, w')
    /\ Http.error_kind r = Some Http.ValidationError
    /\ Eff.dresses w' = Eff.dresses w
    /\ Store.d_images <$> (Eff.dresses w' !! oid) = Some (Store.d_images dress).
Proof.
  intros Hfind Hcast Hstored Hempty Hhost.
  destruct (put_dress_rejected_when_host_deletes
              env w id oid dress body Hfind Hcast Hstored Hempty Hhost)
    as (r & w' & Hrun & Hr & Hsame).
  exists r, w'. split; [exact Hrun|]. split.
  - destruct Hr as [-> | ->]; reflexivity.
  - split; [exact Hsame|]. rewrite Hsame, Hstored. reflexivity.
Qed.

Lemma emptying_update_is_rejected_witness :
  exists r w',
    Routes.put_dress (Store.d_id Sample.abc) Sample.remove_all_images
      Sample.env Sample.world = (Eff.Ret r, w')
    /\ Http.error_kind r = Some Http.ValidationError
    /\ Eff.dresses w' = Eff.dresses Sample.world
    /\ Store.d_images <$> (Eff.dresses w' !! Store.d_id Sample.abc)
       = Some (Store.d_images Sample.abc).
Proof.
  apply (emptying_update_is_rejected Sample.env Sample.world
           (Store.d_id Sample.abc) (Store.d_id Sample.abc)
           Sample.abc Sample.remove_all_images).
  - reflexivity.
  - vm_compute. reflexivity.
  - vm_compute. reflexivity.
  - vm_compute. reflexivity.
  - intros removed _ p _. reflexivity.
Defined.

(** On the sample the answer is the one about the missing image; by then
    the deletion of both assets has been asked of the host. *)
Example emptying_update_on_sample :
  Routes.put_dress (Store.d_id Sample.abc) Sample.remove_all_images
    Sample.env Sample.world
  = (Eff.Ret (Http.failure 400 "Dress must have at least one image"),
     Eff.add_destroy_call (Eff.add_destroy_call Sample.world "dresses/abc-front")
       "dresses/abc-back").
Proof. vm_compute. reflexivity. Qed.


(** ** Pagination *)

Section Pagination.

Import Js.


Lemma limitNum_of_number (limit : option string) :
  Props.numeric limit ->
  exists l, Routes.limitNum limit = Num l /\ (1 <= l <= 50)%Z.
Proof.
  unfold Routes.limitNum, Props.numeric. destruct limit as [s|].
  - destruct (parseInt s) as [z|]; [|congruence].
    intros _. exists (Z.max 1 (Z.min 50 z)). split; [reflexivity|lia].
  - intros _. exists 12%Z. split; [reflexivity|lia].
Qed.

(** What is not a number stays one through the clamps. *)
Lemma pageNum_of_non_number (s : string) :
  parseInt s = NaN -> Routes.pageNum (Some s) = NaN.
Proof. unfold Routes.pageNum. now intros ->. Qed.

Lemma limitNum_of_non_number (s : string) :
  parseInt s = NaN -> Routes.limitNum (Some s) = NaN.
Proof. unfold Routes.limitNum. now intros ->. Qed.

Lemma insert_sorted_length (o : Odm.SortSpec) (d : Store.Dress) (l : list Store.Dress) :
  List.length (Odm.insert_sorted o d l) = S (List.length l).
Proof.
  induction l as [|x l IH]; [reflexivity|].
  cbn [Odm.insert_sorted]. destruct (Odm.before o d x); cbn [List.length]; congruence.
Qed.

Lemma sort_dresses_length (o : Odm.SortSpec) (l : list Store.Dress) :
  List.length (Odm.sort_dresses o l) = List.length l.
Proof.
  unfold Odm.sort_dresses. induction l as [|x l IH]; [reflexivity|].
  cbn [List.fold_right]. rewrite insert_sorted_length. cbn [List.length]. congruence.
Qed.

Variables (env : Eff.Env) (w : Eff.World) (filter : Store.Dress -> bool).
Variables (sort page limit : option string) (p l : Z).

Hypothesis answers : Props.store_answers env.
Hypothesis page_is : Routes.pageNum page = Num p.
Hypothesis limit_is : Routes.limitNum limit = Num l.

(** With numbers for the page and the limit, the list is the window of
    [l] documents after the first [(p - 1) * l] in the order asked for, next
    to the count of all matching documents and the number of pages. *)
Lemma get_dresses_window :
  Routes.get_dresses filter sort page limit env w
  = (Eff.Ret
       (Http.ok 200 None
          (Http.PageData
             (List.firstn (Z.to_nat l)
                (List.skipn (Z.to_nat ((p - 1) * l))
                   (Odm.matching filter (Routes.sortOptions sort) w)))
             (Z.of_nat (List.length (Odm.matching filter (Routes.sortOptions sort) w)))
             (Num p)
             (ceil_div
                (Z.of_nat (List.length (Odm.matching filter (Routes.sortOptions sort) w)))
                (Num l)))),
     w).
Proof.
  unfold Routes.get_dresses, Routes.skip, Odm.Dress_find, Odm.Dress_countDocuments.
  rewrite page_is, limit_is. unfold_eff. rewrite !answers. cbn.
  unfold Odm.matching. rewrite sort_dresses_length. reflexivity.
Qed.

End Pagination.

(** The first page of 12 over 30 matching documents: 12 documents, a total
    of 30, 3 pages. *)
Lemma first_page_of_thirty (env : Eff.Env) (w : Eff.World)
    (filter : Store.Dress -> bool) (sort : option string) :
  Props.store_answers env ->
  List.length (Odm.matching filter (Routes.sortOptions sort) w) = 30%nat ->
  exists items,
    Routes.get_dresses filter sort (Some "1") (Some "12") env w
    = (Eff.Ret (Http.ok 200 None (Http.PageData items 30 (Js.Num 1) (Js.Num 3))), w)
    /\ List.length items = 12%nat.
Proof.
  intros Hans Hlen.
  rewrite (get_dresses_window env w filter sort (Some "1") (Some "12") 1 12 Hans
             eq_refl eq_refl).
  rewrite Hlen. eexists. split; [reflexivity|].
  rewrite List.length_firstn, List.length_skipn, Hlen. reflexivity.
Qed.

(** With a page that is not a number, whatever the store makes of the
    query, the handler answers with a failure or reports [NaN] as the
    page. *)
Lemma get_dresses_page_of_non_number (env : Eff.Env) (w : Eff.World)
    (filter : Store.Dress -> bool) (sort limit : option string) (s : string) :
  Js.parseInt s = Js.NaN ->
  exists r,
    fst (Routes.get_dresses filter sort (Some s) limit env w) = Eff.Ret r
    /\ (Http.success r = false
        \/ exists items total pages,
             Http.data r = Http.PageData items total Js.NaN pages).
Proof.
  intros H. unfold Routes.get_dresses, Routes.skip.
  rewrite (pageNum_of_non_number s H). cbn [Js.sub Js.mul].
  unfold Odm.Dress_find, Odm.Dress_countDocuments. unfold_eff.
  destruct (Eff.store_fault env Eff.DressFind);
    [eexists; split; [reflexivity|now left]|].
  destruct (Routes.limitNum limit);
    (destruct (Eff.find_nan_window env _);
       [|eexists; split; [reflexivity|now left]]);
    (destruct (Eff.store_fault env Eff.Populate);
       [eexists; split; [reflexivity|now left]|]);
    (destruct (Eff.store_fault env Eff.DressCountDocuments);
       [eexists; split; [reflexivity|now left]|]);
    eexists; (split; [reflexivity|]); right; cbn; eauto.
Qed.

Example first_page_of_the_catalog :
  exists items,
    Routes.get_dresses Store.d_isActive None (Some "1") (Some "12")
      Sample.env Sample.catalog
    = (Eff.Ret (Http.ok 200 None (Http.PageData items 30 (Js.Num 1) (Js.Num 3))),
       Sample.catalog)
    /\ List.length items = 12%nat.
Proof.
  apply first_page_of_thirty; [intros op; reflexivity|].
  vm_compute. reflexivity.
Qed.

(** C5. A page or a limit that is not a number is not clamped:
    [parseInt] answers [NaN], [Math.max] and [Math.min] pass it on, and the
    page, the limit and the offset of the request are [NaN]; the page is
    not at least 1 and the limit is not within 1 and 50.  The same holds
    for the empty text.  The answer of the handler reports [NaN] as the
    page. *)
Theorem non_numeric_page_is_not_clamped :
  Routes.pageNum (Some "abc") = Js.NaN
  /\ Js.geb (Routes.pageNum (Some "abc")) (Js.Num 1) = false
  /\ Routes.limitNum (Some "abc") = Js.NaN
  /\ Js.geb (Routes.limitNum (Some "abc")) (Js.Num 1)
     && Js.leb (Routes.limitNum (Some "abc")) (Js.Num 50) = false
  /\ Routes.skip (Some "abc") None = Js.NaN
  /\ Routes.pageNum (Some "") = Js.NaN
  /\ fst (Routes.get_dresses Store.d_isActive None (Some "abc") None
            Sample.env Sample.world)
     = Eff.Ret (Http.ok 200 None
                  (Http.PageData [Sample.abc] 1 Js.NaN (Js.Num 1))).
Proof. repeat split; vm_compute; reflexivity. Qed.

(** Out-of-range numbers are clamped. *)
Example clamps_on_numbers :
  Routes.pageNum (Some "0") = Js.Num 1
  /\ Routes.pageNum (Some "-3") = Js.Num 1
  /\ Routes.pageNum (Some "7") = Js.Num 7
  /\ Routes.limitNum (Some "0") = Js.Num 1
  /\ Routes.limitNum (Some "500") = Js.Num 50
  /\ Routes.limitNum None = Js.Num 12
  /\ Routes.limitNum (Some "12 per page") = Js.Num 12.
Proof. repeat split; reflexivity. Qed.

(** ** Search *)

Section Search.

Import Js Props.

Lemma dot_is_syntax (c : ascii) :
  is_syntax_char c = false -> Ascii.eqb c "." = false.
Proof.
  intros H. destruct (Ascii.eqb c ".") eqn:E; [|reflexivity].
  apply Ascii.eqb_eq in E. subst c. discriminate.
Qed.

Lemma compile_plain (q : string) : plain q -> compile q = Some (literals q).
Proof.
  unfold plain. induction q as [|c q IH]; [reflexivity|].
  cbn [Props.all_chars]. intros H. apply andb_prop in H as [Hc Hq].
  apply negb_true_iff in Hc. cbn [compile literals].
  now rewrite (IH Hq), (dot_is_syntax c Hc), Hc.
Qed.

Lemma match_here_literals (q s : string) :
  match_here (literals q) s = prefix_i q s.
Proof.
  revert s. induction q as [|c q IH]; intros s; [now destruct s|].
  destruct s as [|b s]; [reflexivity|].
  cbn [literals match_here prefix_i atom_matches]. now rewrite IH.
Qed.

Lemma match_anywhere_literals (q s : string) :
  match_anywhere (literals q) s = includes_i q s.
Proof.
  induction s as [|b s IH]; cbn [match_anywhere includes_i];
    rewrite match_here_literals; [reflexivity|]. now rewrite IH.
Qed.

(** For a plain query the filter of the search is the case-insensitive
    substring test on the four fields of an active dress. *)
Lemma search_filter_plain (q : string) (d : Store.Dress) :
  Routes.search_filter (literals q) d
  = Store.d_isActive d && Props.substring_match q d.
Proof.
  unfold Routes.search_filter, Props.substring_match.
  rewrite !match_anywhere_literals. f_equal. f_equal; [f_equal|].
  - destruct (Store.d_material d); [apply match_anywhere_literals|reflexivity].
  - induction (Store.d_tags d) as [|t ts IH]; [reflexivity|].
    cbn [existsb]. now rewrite match_anywhere_literals, IH.
Qed.

(** A search without a query, or with the empty one, is a validation
    error. *)
Lemma search_without_query (extra : Store.Dress -> bool)
    (sort page limit : option string) (env : Eff.Env) (w : Eff.World) :
  option_map (fun m => m env w) (Routes.search_dresses None extra sort page limit)
  = Some (Eff.Ret (Http.failure 400 "Search query (q) is required"), w)
  /\ option_map (fun m => m env w) (Routes.search_dresses (Some "") extra sort page limit)
     = Some (Eff.Ret (Http.failure 400 "Search query (q) is required"), w)
  /\ Http.error_kind (Http.failure 400 "Search query (q) is required")
     = Some Http.ValidationError.
Proof. repeat split. Qed.

End Search.

(** C6. The query is handed to [new RegExp] as a pattern, not as text.
    For the query [a.c] the dot stands for any character: the active sample
    dress named "abc" satisfies the filter and is returned, although [a.c]
    is a substring of none of its name, description, material and tags. *)
Theorem pattern_query_matches_without_substring :
  Js.compile "a.c" = Some [Js.Lit "a"; Js.AnyChar; Js.Lit "c"]
  /\ Routes.search_filter [Js.Lit "a"; Js.AnyChar; Js.Lit "c"] Sample.abc = true
  /\ Store.d_isActive Sample.abc && Props.substring_match "a.c" Sample.abc = false
  /\ option_map (fun m => fst (m Sample.env Sample.world))
       (Routes.search_dresses (Some "a.c") (fun _ => true) None None None)
     = Some (Eff.Ret (Http.ok 200 None
                        (Http.PageData [Sample.abc] 1 (Js.Num 1) (Js.Num 1)))).
Proof. repeat split; vm_compute; reflexivity. Qed.


(** ** Resolving a category by id or slug *)

Lemma first_match_none {A} (p : A -> bool) (m : gmap string A) :
  (forall k a, m !! k = Some a -> p a = false) ->
  Odm.first_match p m = None.
Proof.
  intros H. unfold Odm.first_match.
  assert (Hall : forall a, In a (List.map snd (map_to_list m)) -> p a = false).
  { intros a Ha. apply List.in_map_iff in Ha as [[k a'] [<- Hin]].
    apply list_elem_of_In, elem_of_map_to_list in Hin. exact (H k a' Hin). }
  induction (List.map snd (map_to_list m)) as [|x l IH]; [reflexivity|].
  cbn [List.find]. rewrite (Hall x) by now left.
  apply IH. intros a Ha. apply Hall. now right.
Qed.

Section CategoryResolution.

Variables (env : Eff.Env) (w : Eff.World) (identifier : string).

Hypothesis find_ok : Eff.store_fault env Eff.CategoryFindOne = None.

(** [GET /api/category/:identifier] answers 404 for every identifier that
    no active category goes by. *)
Lemma get_category_not_found :
  Props.no_active_category w identifier ->
  Routes.get_category identifier env w
  = (Eff.Ret (Http.failure 404 "Category not found"), w).
Proof.
  intros Hnone. unfold Routes.get_category, Odm.Category_findOne_active, Odm.cast_id.
  destruct (Odm.isObjectId identifier) eqn:Eid; unfold_eff; rewrite find_ok.
  - unfold Odm.castObjectId. rewrite Eid. cbn beta iota.
    destruct (Eff.categories w !! Js.toLowerCase identifier) as [c|] eqn:Ec;
      [|reflexivity].
    destruct (Model.cat_isActive c) eqn:Eact; [|reflexivity].
    destruct (Hnone _ _ Ec Eact) as [Hk _]. unfold Odm.castObjectId in Hk.
    rewrite Eid in Hk. congruence.
  - cbn beta iota. rewrite first_match_none; [reflexivity|].
    intros k c Hc. destruct (Model.cat_isActive c) eqn:Eact;
      [|apply andb_false_r].
    destruct (Hnone _ _ Hc Eact) as (_ & _ & Hslug).
    rewrite andb_true_r. now apply String.eqb_neq.
Qed.

(** The list of a category answers 404 for an identifier of 24 hexadecimal
    digits that no active category goes by. *)
Lemma get_dresses_by_category_not_found (sort page limit : option string) :
  Odm.isObjectId identifier = true ->
  Props.no_active_category w identifier ->
  Routes.get_dresses_by_category identifier sort page limit env w
  = (Eff.Ret (Http.failure 404 "Category not found"), w).
Proof.
  intros Eid Hnone.
  unfold Routes.get_dresses_by_category, Odm.Category_findOne_active, Odm.cast_id.
  unfold_eff. rewrite find_ok. unfold Odm.castObjectId. rewrite Eid. cbn beta iota.
  rewrite first_match_none; [reflexivity|].
  intros k c Hc. destruct (Model.cat_isActive c) eqn:Eact; [|apply andb_false_r].
  destruct (Hnone _ _ Hc Eact) as (_ & Hid & Hslug).
  unfold Odm.castObjectId in Hid. rewrite Eid in Hid.
  rewrite andb_true_r. apply orb_false_iff. split; apply String.eqb_neq; congruence.
Qed.

(** For any other identifier the cast of the [_id] condition rejects the
    query, whatever the collection holds: the answer is 500. *)
Lemma get_dresses_by_category_cast_fails (sort page limit : option string) :
  Odm.isObjectId identifier = false ->
  Routes.get_dresses_by_category identifier sort page limit env w
  = (Eff.Ret (Http.failure_with 500 "Error fetching dresses by category"
                (Odm.CastError identifier)),
     w).
Proof.
  intros Eid.
  unfold Routes.get_dresses_by_category, Odm.Category_findOne_active, Odm.cast_id.
  unfold_eff. rewrite find_ok. unfold Odm.castObjectId. rewrite Eid. reflexivity.
Qed.

End CategoryResolution.

(** C7. An identifier that is not 24 hexadecimal digits is a slug.  The
    category route resolves the slug of the stored, active sample category
    and answers 404 for a slug that no category has.  The list of a
    category answers 500 for both, with the failed cast to an id as the
    error: neither the list nor NotFound. *)
Theorem slug_fails_the_category_list :
  Odm.first_match
    (fun c => String.eqb (Model.cat_slug c) "summer-dresses" && Model.cat_isActive c)
    (Eff.categories Sample.world) = Some Sample.summer
  /\ Odm.isObjectId "summer-dresses" = false
  /\ Routes.get_category "summer-dresses" Sample.env Sample.world
     = (Eff.Ret (Http.ok 200 None (Http.CategoryData Sample.summer)), Sample.world)
  /\ Routes.get_dresses_by_category "summer-dresses" None None None
       Sample.env Sample.world
     = (Eff.Ret (Http.failure_with 500 "Error fetching dresses by category"
                   (Odm.CastError "summer-dresses")),
        Sample.world)
  /\ Routes.get_category "winter-coats" Sample.env Sample.world
     = (Eff.Ret (Http.failure 404 "Category not found"), Sample.world)
  /\ Routes.get_dresses_by_category "winter-coats" None None None
       Sample.env Sample.world
     = (Eff.Ret (Http.failure_with 500 "Error fetching dresses by category"
                   (Odm.CastError "winter-coats")),
        Sample.world)
  /\ Http.error_kind (Http.failure_with 500 "Error fetching dresses by category"
                        (Odm.CastError "winter-coats")) = Some Http.Internal.
Proof. repeat split; vm_compute; reflexivity. Qed.

(** By its id the sample category is resolved and its dresses are
    listed. *)
Example category_list_by_id :
  fst (Routes.get_dresses_by_category "65F000000000000000000001" None None None
         Sample.env Sample.world)
  = Eff.Ret (Http.ok 200 None
               (Http.CategoryPageData Sample.summer [Sample.abc] 1 (Js.Num 1) (Js.Num 1))).
Proof. vm_compute. reflexivity. Qed.


(** * Further properties of the handlers *)

(** ** The guards of the admin routes *)

Lemma substring_whole (s : string) : String.substring 0 (String.length s) s = s.
Proof. induction s as [|c s IH]; [reflexivity|]. cbn. now rewrite IH. Qed.

Lemma prefix_nil (s : string) : String.prefix "" s = true.
Proof. now destruct s. Qed.

Lemma until_space_all (t : string) :
  Props2.no_space t = true -> AuthMiddleware.until_space t = t.
Proof.
  unfold Props2.no_space. induction t as [|c t IH]; [reflexivity|].
  cbn [Props.all_chars AuthMiddleware.until_space]. intros H.
  apply andb_prop in H as [Hc Ht]. apply negb_true_iff in Hc.
  rewrite Hc. now rewrite (IH Ht).
Qed.

Lemma bearer_token_of_header (t : string) :
  Props2.no_space t = true ->
  AuthMiddleware.bearer_token ("Bearer " ++ t) = Some t.
Proof.
  intros H. unfold AuthMiddleware.bearer_token.
  change ("Bearer " ++ t)
    with (String "B" (String "e" (String "a" (String "r" (String "e"
            (String "r" (String " " t))))))).
  cbn [String.prefix String.length Nat.sub String.substring].
  repeat (destruct (ascii_dec _ _) as [_|Hne]; [|now destruct Hne]).
  rewrite prefix_nil, Nat.sub_0_r, substring_whole. now rewrite (until_space_all t H).
Qed.

Lemma bearer_header_truthy (t : string) : Js.truthy_str ("Bearer " ++ t) = true.
Proof. reflexivity. Qed.

(** X1. Without an [Authorization] header, or with one that does not
    start with ['Bearer '], a request to an admin route is answered with 401
    and nothing else happens: the handler does not run, whatever it is. *)
Theorem admin_route_without_token
    (verify : string -> option AuthMiddleware.Identity)
    (handler : AuthMiddleware.Request -> Eff.M Http.Response)
    (req : AuthMiddleware.Request) (env : Eff.Env) (w : Eff.World) :
  (AuthMiddleware.authorization req = None
   \/ exists h, AuthMiddleware.authorization req = Some h
                /\ String.prefix "Bearer " h = false) ->
  Pipeline.admin_route verify handler req env w
  = (Eff.Ret (Http.failure 401 "Not authorized, no token"), w)
  /\ Http.error_kind (Http.failure 401 "Not authorized, no token")
     = Some Http.Unauthorized.
Proof.
  intros H. split; [|reflexivity].
  unfold Pipeline.admin_route, AuthMiddleware.protect, AuthMiddleware.bearer_token.
  destruct H as [-> | (h & -> & Hp)]; [reflexivity|].
  rewrite Hp. now destruct (Js.truthy_str h).
Qed.

Lemma admin_route_without_token_witness :
  Pipeline.admin_route Sample2.verify (fun _ => Routes.post_dress Sample2.gown)
    (Sample2.with_header (Some "Basic YWRtaW46YWRtaW4=")) Sample2.env Sample2.world
  = (Eff.Ret (Http.failure 401 "Not authorized, no token"), Sample2.world)
  /\ Http.error_kind (Http.failure 401 "Not authorized, no token")
     = Some Http.Unauthorized.
Proof.
  apply (admin_route_without_token Sample2.verify
           (fun _ => Routes.post_dress Sample2.gown)
           (Sample2.with_header (Some "Basic YWRtaW46YWRtaW4="))
           Sample2.env Sample2.world).
  right. exists "Basic YWRtaW46YWRtaW4=". split; reflexivity.
Defined.

(** X2. A bearer token that does not verify is answered with 401, after
    one line on the console; the handler does not run. *)
Theorem admin_route_with_bad_token
    (verify : string -> option AuthMiddleware.Identity)
    (handler : AuthMiddleware.Request -> Eff.M Http.Response)
    (req : AuthMiddleware.Request) (t : string) (env : Eff.Env) (w : Eff.World) :
  AuthMiddleware.authorization req = Some ("Bearer " ++ t) ->
  t <> "" -> Props2.no_space t = true ->
  verify t = None ->
  Pipeline.admin_route verify handler req env w
  = (Eff.Ret (Http.failure 401 "Not authorized, token failed"),
     Eff.add_console w "JWT verification error:").
Proof.
  intros Hh Ht Hs Hv.
  unfold Pipeline.admin_route, AuthMiddleware.protect.
  rewrite Hh, bearer_header_truthy, (bearer_token_of_header t Hs),
    (truthy_str_nonempty t Ht), Hv.
  reflexivity.
Qed.

Lemma admin_route_with_bad_token_witness :
  Pipeline.admin_route Sample2.verify (fun _ => Routes.post_dress Sample2.gown)
    (Sample2.with_header (Some "Bearer forged")) Sample2.env Sample2.world
  = (Eff.Ret (Http.failure 401 "Not authorized, token failed"),
     Eff.add_console Sample2.world "JWT verification error:").
Proof.
  apply (admin_route_with_bad_token Sample2.verify
           (fun _ => Routes.post_dress Sample2.gown)
           (Sample2.with_header (Some "Bearer forged")) "forged"
           Sample2.env Sample2.world);
    first [reflexivity | discriminate].
Defined.

(** X3. With a bearer token that verifies, the identity of the token is
    attached to the request and the handler runs on it exactly when the
    role of that identity is ['admin']; any other role is answered with 403
    and the handler does not run. *)
Theorem admin_route_with_token
    (verify : string -> option AuthMiddleware.Identity)
    (handler : AuthMiddleware.Request -> Eff.M Http.Response)
    (req : AuthMiddleware.Request) (t : string) (who : AuthMiddleware.Identity)
    (env : Eff.Env) (w : Eff.World) :
  AuthMiddleware.authorization req = Some ("Bearer " ++ t) ->
  t <> "" -> Props2.no_space t = true ->
  verify t = Some who ->
  Pipeline.admin_route verify handler req env w
  = if AuthMiddleware.is_admin_role (AuthMiddleware.role who)
    then handler {| AuthMiddleware.authorization := Some ("Bearer " ++ t);
                    AuthMiddleware.user := Some who |} env w
    else (Eff.Ret (Http.failure 403 "Access denied: admin only"), w).
Proof.
  intros Hh Ht Hs Hv.
  unfold Pipeline.admin_route, AuthMiddleware.protect, AuthMiddleware.adminOnly.
  rewrite Hh, bearer_header_truthy, (bearer_token_of_header t Hs),
    (truthy_str_nonempty t Ht), Hv.
  unfold Eff.bind, Eff.ret. cbn.
  now destruct (AuthMiddleware.is_admin_role (AuthMiddleware.role who)).
Qed.

Lemma admin_route_with_token_witness :
  Pipeline.admin_route Sample2.verify (fun _ => Routes.post_dress Sample2.gown)
    (Sample2.with_header (Some "Bearer user-token")) Sample2.env Sample2.world
  = if AuthMiddleware.is_admin_role (AuthMiddleware.role Sample2.user_identity)
    then Routes.post_dress Sample2.gown Sample2.env Sample2.world
    else (Eff.Ret (Http.failure 403 "Access denied: admin only"), Sample2.world).
Proof.
  apply (admin_route_with_token Sample2.verify
           (fun _ => Routes.post_dress Sample2.gown)
           (Sample2.with_header (Some "Bearer user-token")) "user-token"
           Sample2.user_identity Sample2.env Sample2.world);
    first [reflexivity | discriminate].
Defined.

(** ** Registration and login *)

Lemma find_after_misses {A} (p : A -> bool) (l : list A) (x : A) :
  (forall a, In a l -> p a = false) -> p x = true ->
  List.find p (l ++ [x])%list = Some x.
Proof.
  intros Hl Hx. induction l as [|a l IH]; cbn; [now rewrite Hx|].
  rewrite (Hl a) by now left. apply IH. intros b Hb. apply Hl. now right.
Qed.

Lemma find_misses {A} (p : A -> bool) (l : list A) :
  (forall a, In a l -> p a = false) -> List.find p l = None.
Proof.
  intros Hl. induction l as [|a l IH]; [reflexivity|]. cbn.
  rewrite (Hl a) by now left. apply IH. intros b Hb. apply Hl. now right.
Qed.

(** X4. A registration under an email or a username that a stored user
    has is answered with 400 and stores nothing. *)
Theorem register_taken (hash : string -> string) (save_fault : option Eff.Err)
    (env : Eff.Env) (w : Eff.World) (body : Register.Body)
    (username email password : string) (taken : Store.User) :
  Register.r_username body = Some username ->
  Register.r_email body = Some email ->
  Register.r_password body = Some password ->
  username <> "" -> email <> "" -> password <> "" ->
  Eff.store_fault env Eff.UserFindOne = None ->
  In taken (Eff.users w) ->
  (Store.u_email taken = email \/ Store.u_username taken = username) ->
  Register.register hash save_fault body env w
  = (Eff.Ret (Http.failure 400 "Username or email already in use"), w).
Proof.
  intros Hu He Hp Nu Ne Np Hstore Hin Htaken.
  unfold Register.register, Register.User_findOne_either.
  rewrite Hu, He, Hp, (truthy_str_nonempty _ Nu), (truthy_str_nonempty _ Ne),
    (truthy_str_nonempty _ Np).
  unfold_eff. cbn. rewrite Hstore.
  destruct (List.find _ (Eff.users w)) as [u|] eqn:Ef; [reflexivity|].
  exfalso. pose proof (List.find_none _ _ Ef taken Hin) as Hno. cbn in Hno.
  apply orb_false_iff in Hno as [H1 H2].
  apply String.eqb_neq in H1, H2. destruct Htaken; contradiction.
Qed.

Lemma register_taken_witness :
  Register.register Sample2.hash None
    {| Register.r_username := Some "alice2";
       Register.r_email := Some "alice@example.com";
       Register.r_password := Some "pw";
       Register.r_role := None |}
    Sample2.env Sample2.world
  = (Eff.Ret (Http.failure 400 "Username or email already in use"), Sample2.world).
Proof.
  apply (register_taken Sample2.hash None Sample2.env Sample2.world _
           "alice2" "alice@example.com" "pw" Sample.alice);
    try reflexivity; try discriminate.
  - now left.
  - now left.
Defined.

(** X5. A registration under a new email and a new username stores the
    user with the hashed password, with the role ['admin'] only when that
    very role was asked for and ['user'] otherwise; a login with the same
    email and password then succeeds with a token for that user.  The
    comparison of the environment is assumed to accept a password against
    its own hash. *)
Theorem register_then_login (hash : string -> string)
    (env : Eff.Env) (w : Eff.World) (username email password : string)
    (role : option string) :
  username <> "" -> email <> "" -> password <> "" ->
  Eff.store_fault env Eff.UserFindOne = None ->
  (forall u, In u (Eff.users w) ->
             Store.u_email u <> email /\ Store.u_username u <> username) ->
  (forall u, Store.u_password u = hash password ->
             Eff.match_password env u password = true) ->
  let stored :=
    {| Store.u_id := Eff.new_id env;
       Store.u_username := username;
       Store.u_email := email;
       Store.u_password := hash password;
       Store.u_role :=
         match role with
         | Some r => if String.eqb r "admin" then "admin" else "user"
         | None => "user"
         end |} in
  let w1 := Register.set_users w (Eff.users w ++ [stored])%list in
  Register.register hash None
    {| Register.r_username := Some username; Register.r_email := Some email;
       Register.r_password := Some password; Register.r_role := role |} env w
  = (Eff.Ret (Http.ok 201 (Some "User registered successfully") Http.NoData), w1)
  /\ AuthRoutes.login (Some email) (Some password) env w1
     = (Eff.Ret (Http.ok 200 None
                   (Http.TokenData
                      (Eff.jwt_sign env (Store.u_id stored) (Store.u_role stored))
                      stored)),
        w1).
Proof.
  intros Nu Ne Np Hstore Hnew Hmatch stored w1. split.
  - unfold Register.register, Register.User_findOne_either, Register.User_save.
    cbn [Register.r_username Register.r_email Register.r_password Register.r_role].
    rewrite (truthy_str_nonempty _ Nu), (truthy_str_nonempty _ Ne),
      (truthy_str_nonempty _ Np).
    unfold_eff. cbn. rewrite Hstore, find_misses; [reflexivity|].
    intros u Hu. destruct (Hnew u Hu) as [H1 H2].
    apply orb_false_iff. split; now apply String.eqb_neq.
  - unfold AuthRoutes.login, AuthRoutes.missing, AuthRoutes.User_findOne.
    rewrite (truthy_str_nonempty _ Ne), (truthy_str_nonempty _ Np).
    unfold_eff. cbn. rewrite Hstore.
    rewrite (find_after_misses _ (Eff.users w) stored).
    + rewrite (Hmatch stored eq_refl). reflexivity.
    + intros u Hu. destruct (Hnew u Hu) as [H1 _]. now apply String.eqb_neq.
    + apply String.eqb_refl.
Qed.

Lemma register_then_login_witness :
  let stored :=
    {| Store.u_id := Eff.new_id Sample2.env;
       Store.u_username := "bob";
       Store.u_email := "bob@example.com";
       Store.u_password := Sample2.hash "tr0ub4dor";
       Store.u_role := "user" |} in
  let w1 := Register.set_users Sample2.world
              (Eff.users Sample2.world ++ [stored])%list in
  Register.register Sample2.hash None Sample2.bob Sample2.env Sample2.world
  = (Eff.Ret (Http.ok 201 (Some "User registered successfully") Http.NoData), w1)
  /\ AuthRoutes.login (Some "bob@example.com") (Some "tr0ub4dor") Sample2.env w1
     = (Eff.Ret (Http.ok 200 None
                   (Http.TokenData
                      (Eff.jwt_sign Sample2.env (Store.u_id stored) (Store.u_role stored))
                      stored)),
        w1).
Proof.
  apply (register_then_login Sample2.hash Sample2.env Sample2.world
           "bob" "bob@example.com" "tr0ub4dor" (Some "superuser")).
  - discriminate.
  - discriminate.
  - discriminate.
  - reflexivity.
  - intros u [<-|[]]. split; discriminate.
  - intros u Hu. cbn. rewrite Hu. apply String.eqb_refl.
Defined.

(** X6. A login changes no collection and no user, whatever the
    credentials and whatever the store answers. *)
Theorem login_keeps_data (email password : option string)
    (env : Eff.Env) (w : Eff.World) :
  Props2.same_data w (snd (AuthRoutes.login email password env w)).
Proof.
  unfold AuthRoutes.login, AuthRoutes.missing, AuthRoutes.User_findOne,
    Props2.same_data.
  unfold_eff.
  destruct email as [e|], password as [p|]; cbn; try (repeat split; reflexivity).
  destruct (Js.truthy_str e), (Js.truthy_str p); cbn; try (repeat split; reflexivity).
  destruct (Eff.store_fault env Eff.UserFindOne); cbn; try (repeat split; reflexivity).
  destruct (List.find _ (Eff.users w)) as [u|]; cbn; try (repeat split; reflexivity).
  destruct (Eff.match_password env u p); cbn; repeat split; reflexivity.
Qed.

(** ** Deleting a category or a dress *)

Lemma values_of_collection {A} (m : gmap string A) (a : A) :
  In a (List.map snd (map_to_list m)) <-> exists k, m !! k = Some a.
Proof.
  split.
  - intros H. apply List.in_map_iff in H as [[k a'] [<- Hin]].
    exists k. now apply list_elem_of_In, elem_of_map_to_list in Hin.
  - intros [k Hk]. apply List.in_map_iff. exists (k, a). split; [reflexivity|].
    now apply list_elem_of_In, elem_of_map_to_list.
Qed.

Lemma count_of_referring (w : Eff.World) (f : Store.Dress -> bool)
    (k : string) (d : Store.Dress) :
  Eff.dresses w !! k = Some d -> f d = true ->
  (1 <= Z.of_nat (List.length
                    (List.filter f (List.map snd (map_to_list (Eff.dresses w))))))%Z.
Proof.
  intros Hk Hf.
  assert (Hin : In d (List.filter f (List.map snd (map_to_list (Eff.dresses w))))).
  { apply List.filter_In. split; [|exact Hf]. apply values_of_collection. eauto. }
  destruct (List.filter f _) as [|x l]; [destruct Hin|]. cbn [List.length]. lia.
Qed.

Lemma count_without_referring (w : Eff.World) (f : Store.Dress -> bool) :
  (forall k d, Eff.dresses w !! k = Some d -> f d = false) ->
  List.filter f (List.map snd (map_to_list (Eff.dresses w))) = [].
Proof.
  intros H.
  assert (Hall : forall d, In d (List.map snd (map_to_list (Eff.dresses w))) -> f d = false).
  { intros d Hd. apply values_of_collection in Hd as [k Hk]. eauto. }
  induction (List.map snd (map_to_list (Eff.dresses w))) as [|x l IH]; [reflexivity|].
  cbn [List.filter]. rewrite (Hall x) by now left.
  apply IH. intros d Hd. apply Hall. now right.
Qed.

Section DeleteCategory.

Variables (delete_fault : option Eff.Err) (env : Eff.Env) (w : Eff.World).
Variables (id oid : string) (category : Model.Category).

Hypothesis find_ok : Eff.store_fault env Eff.CategoryFindById = None.
Hypothesis count_ok : Eff.store_fault env Eff.DressCountDocuments = None.
Hypothesis id_cast : Odm.castObjectId id = Some oid.
Hypothesis stored : Eff.categories w !! oid = Some category.

Lemma delete_category_counts :
  Deletes.delete_category delete_fault id env w
  = let n := Z.of_nat (List.length
                         (List.filter (fun d => String.eqb (Store.d_category d) oid)
                            (List.map snd (map_to_list (Eff.dresses w))))) in
    Eff.try_catch
      (if (0 <? n)%Z
       then Eff.ret (Http.failure 400
                       ("Cannot delete category. " ++ Deletes.count_text n
                        ++ " dresses belong to this category."))
       else Eff.bind (Upload.deleteFromCloudinary (Model.cat_image_public_id category))
              (fun _ => Eff.bind (Deletes.Category_findByIdAndDelete delete_fault id)
                 (fun _ => Eff.ret (Http.ok 200 (Some "Category deleted successfully")
                                      Http.NoData))))
      (fun error => Eff.ret (Http.failure_with 500 "Error deleting category" error))
      env w.
Proof.
  unfold Deletes.delete_category, Odm.Category_findById, Odm.Dress_countDocuments,
    Odm.cast_id.
  unfold Eff.try_catch at 1 2. unfold Eff.bind at 1 2 3 4 5 6 7 8.
  unfold Eff.store_op, Eff.get, Eff.ret at 1 2 3 4.
  rewrite find_ok, id_cast. cbn beta iota. unfold Eff.ret at 1 2. cbn beta iota.
  rewrite stored, count_ok. reflexivity.
Qed.

End DeleteCategory.

(** X7. A category that a dress refers to is not deleted: the answer is
    400 with the number of such dresses, the world is as before, and no
    deletion is asked of the asset host. *)
Theorem delete_category_in_use (delete_fault : option Eff.Err)
    (env : Eff.Env) (w : Eff.World) (id oid : string) (category : Model.Category)
    (k : string) (dress : Store.Dress) :
  Eff.store_fault env Eff.CategoryFindById = None ->
  Eff.store_fault env Eff.DressCountDocuments = None ->
  Odm.castObjectId id = Some oid ->
  Eff.categories w !! oid = Some category ->
  Eff.dresses w !! k = Some dress ->
  Store.d_category dress = oid ->
  exists n,
    (1 <= n)%Z
    /\ Deletes.delete_category delete_fault id env w
       = (Eff.Ret (Http.failure 400
                     ("Cannot delete category. " ++ Deletes.count_text n
                      ++ " dresses belong to this category.")),
          w).
Proof.
  intros Hfind Hcount Hcast Hstored Hk Hcat.
  rewrite (delete_category_counts delete_fault env w id oid category
             Hfind Hcount Hcast Hstored).
  pose proof (count_of_referring w (fun d => String.eqb (Store.d_category d) oid)
                k dress Hk) as Hn.
  cbn beta in Hn. rewrite Hcat, String.eqb_refl in Hn. specialize (Hn eq_refl).
  cbv zeta. set (n := Z.of_nat _) in *. exists n. split; [exact Hn|].
  unfold Eff.try_catch. destruct (0 <? n)%Z eqn:E; [reflexivity|].
  apply Z.ltb_ge in E. lia.
Qed.

Lemma delete_category_in_use_witness :
  exists n,
    (1 <= n)%Z
    /\ Deletes.delete_category None (Model.cat_id Sample.summer) Sample2.env Sample2.world
       = (Eff.Ret (Http.failure 400
                     ("Cannot delete category. " ++ Deletes.count_text n
                      ++ " dresses belong to this category.")),
          Sample2.world).
Proof.
  apply (delete_category_in_use None Sample2.env Sample2.world
           (Model.cat_id Sample.summer) (Model.cat_id Sample.summer) Sample.summer
           (Store.d_id Sample.abc) Sample.abc);
    first [reflexivity | vm_compute; reflexivity].
Defined.

(** X8. A category that no dress refers to is deleted when the asset
    host accepts the deletion of its image: the deletion of the image has
    been asked, the category is gone from the collection, nothing else
    changed. *)
Theorem delete_category_unreferenced (env : Eff.Env) (w : Eff.World)
    (id oid : string) (category : Model.Category) :
  Eff.store_fault env Eff.CategoryFindById = None ->
  Eff.store_fault env Eff.DressCountDocuments = None ->
  Odm.castObjectId id = Some oid ->
  Eff.categories w !! oid = Some category ->
  (forall k d, Eff.dresses w !! k = Some d -> Store.d_category d <> oid) ->
  Eff.destroy_fault env (Model.cat_image_public_id category) = None ->
  Deletes.delete_category None id env w
  = (Eff.Ret (Http.ok 200 (Some "Category deleted successfully") Http.NoData),
     Eff.set_categories
       (Eff.add_destroy_call w (Model.cat_image_public_id category))
       (delete oid (Eff.categories w))).
Proof.
  intros Hfind Hcount Hcast Hstored Hnone Hhost.
  rewrite (delete_category_counts None env w id oid category
             Hfind Hcount Hcast Hstored).
  rewrite count_without_referring
    by (intros k d Hd; apply String.eqb_neq; eauto).
  cbv zeta. change (0 <? Z.of_nat (List.length (@nil Store.Dress)))%Z with false.
  cbv iota.
  unfold Eff.try_catch, Eff.bind.
  rewrite (deleteFromCloudinary_accepted _ _ _ Hhost).
  unfold Deletes.Category_findByIdAndDelete, Deletes.store_answer, Odm.cast_id.
  unfold_eff. rewrite Hcast. reflexivity.
Qed.

Lemma delete_category_unreferenced_witness :
  Deletes.delete_category None (Model.cat_id Sample2.winter) Sample2.env Sample2.world
  = (Eff.Ret (Http.ok 200 (Some "Category deleted successfully") Http.NoData),
     Eff.set_categories
       (Eff.add_destroy_call Sample2.world (Model.cat_image_public_id Sample2.winter))
       (delete (Model.cat_id Sample2.winter) (Eff.categories Sample2.world))).
Proof.
  apply (delete_category_unreferenced Sample2.env Sample2.world
           (Model.cat_id Sample2.winter) (Model.cat_id Sample2.winter) Sample2.winter);
    try reflexivity; try (vm_compute; reflexivity).
  intros k d Hd. unfold Sample2.world in Hd. cbn [Eff.dresses] in Hd.
  apply lookup_singleton_Some in Hd as [_ <-]. discriminate.
Defined.

(** X9. When the asset host rejects the deletion of the image, the
    category stays in the collection: the rejection is logged and reported
    with 500, and the document is not deleted. *)
Theorem delete_category_host_rejects (delete_fault : option Eff.Err)
    (env : Eff.Env) (w : Eff.World)
    (id oid : string) (category : Model.Category) (e : Eff.Err) :
  Eff.store_fault env Eff.CategoryFindById = None ->
  Eff.store_fault env Eff.DressCountDocuments = None ->
  Odm.castObjectId id = Some oid ->
  Eff.categories w !! oid = Some category ->
  (forall k d, Eff.dresses w !! k = Some d -> Store.d_category d <> oid) ->
  Eff.destroy_fault env (Model.cat_image_public_id category) = Some e ->
  Deletes.delete_category delete_fault id env w
  = (Eff.Ret (Http.failure_with 500 "Error deleting category" e),
     Eff.add_console
       (Eff.add_destroy_call w (Model.cat_image_public_id category))
       "Error deleting from Cloudinary:")
  /\ Eff.categories
       (snd (Deletes.delete_category delete_fault id env w)) !! oid
     = Some category.
Proof.
  intros Hfind Hcount Hcast Hstored Hnone Hhost.
  rewrite (delete_category_counts delete_fault env w id oid category
             Hfind Hcount Hcast Hstored).
  rewrite count_without_referring
    by (intros k d Hd; apply String.eqb_neq; eauto).
  cbv zeta. change (0 <? Z.of_nat (List.length (@nil Store.Dress)))%Z with false.
  cbv iota.
  unfold Eff.try_catch, Eff.bind.
  rewrite (deleteFromCloudinary_rejected _ _ _ _ Hhost).
  split; [reflexivity|exact Hstored].
Qed.

Lemma delete_category_host_rejects_witness :
  Deletes.delete_category None (Model.cat_id Sample2.winter)
    Sample.env_host_down Sample2.world
  = (Eff.Ret (Http.failure_with 500 "Error deleting category" Sample.host_down),
     Eff.add_console
       (Eff.add_destroy_call Sample2.world (Model.cat_image_public_id Sample2.winter))
       "Error deleting from Cloudinary:")
  /\ Eff.categories
       (snd (Deletes.delete_category None (Model.cat_id Sample2.winter)
               Sample.env_host_down Sample2.world)) !! Model.cat_id Sample2.winter
     = Some Sample2.winter.
Proof.
  apply (delete_category_host_rejects None Sample.env_host_down Sample2.world
           (Model.cat_id Sample2.winter) (Model.cat_id Sample2.winter)
           Sample2.winter Sample.host_down);
    try reflexivity; try (vm_compute; reflexivity).
  intros k d Hd. unfold Sample2.world in Hd. cbn [Eff.dresses] in Hd.
  apply lookup_singleton_Some in Hd as [_ <-]. discriminate.
Defined.

Lemma Promise_all_rejected (env : Eff.Env) (ps : list string) (w : Eff.World)
    (p : string) (e : Eff.Err) :
  In p ps -> Eff.destroy_fault env p = Some e ->
  exists e', fst (Upload.Promise_all (List.map Upload.destroy ps) env w) = Eff.Throw e'.
Proof.
  revert w. induction ps as [|q ps IH]; intros w Hin He; [destruct Hin|].
  cbn [List.map Upload.Promise_all]. unfold Upload.destroy at 1.
  destruct (Eff.destroy_fault env q) as [eq|] eqn:Eq.
  - exists eq. reflexivity.
  - destruct Hin as [->|Hin]; [congruence|]. now apply IH.
Qed.

Lemma deleteMultiple_rejected (env : Eff.Env) (ps : list string) (w : Eff.World)
    (p : string) (e : Eff.Err) :
  In p ps -> Eff.destroy_fault env p = Some e ->
  exists e',
    Upload.deleteMultipleFromCloudinary ps env w
    = (Eff.Throw e',
       {| Eff.dresses := Eff.dresses w; Eff.categories := Eff.categories w;
          Eff.users := Eff.users w;
          Eff.destroy_calls := (List.rev ps ++ Eff.destroy_calls w)%list;
          Eff.console :=
            "Error deleting multiple images from Cloudinary:" :: Eff.console w |}).
Proof.
  intros Hin He. unfold Upload.deleteMultipleFromCloudinary, Eff.try_catch.
  destruct ps as [|q ps]; [destruct Hin|].
  destruct (Promise_all_rejected env (q :: ps) w p e Hin He) as [e' He'].
  pose proof (Promise_all_calls env (q :: ps) w) as Hsnd.
  destruct (Upload.Promise_all (List.map Upload.destroy (q :: ps)) env w) as [o w'].
  cbn [fst snd] in *. subst o w'. exists e'. reflexivity.
Qed.

Section DeleteDress.

Variables (delete_fault : option Eff.Err) (env : Eff.Env) (w : Eff.World).
Variables (id oid : string) (dress : Store.Dress).

Hypothesis find_ok : Eff.store_fault env Eff.DressFindById = None.
Hypothesis id_cast : Odm.castObjectId id = Some oid.
Hypothesis stored : Eff.dresses w !! oid = Some dress.

Lemma delete_dress_found :
  Deletes.delete_dress delete_fault id env w
  = Eff.try_catch
      (Eff.bind
         (Eff.when (0 <? List.length (List.map Store.public_id (Store.d_images dress)))%nat
            (Upload.deleteMultipleFromCloudinary
               (List.map Store.public_id (Store.d_images dress))))
         (fun _ => Eff.bind (Deletes.Dress_findByIdAndDelete delete_fault id)
            (fun _ => Eff.ret (Http.ok 200 (Some "Dress deleted successfully")
                                 Http.NoData))))
      (fun error => Eff.ret (Http.failure_with 500 "Error deleting dress" error))
      env w.
Proof.
  unfold Deletes.delete_dress, Odm.Dress_findById, Odm.cast_id.
  unfold Eff.try_catch at 1 2. unfold Eff.bind at 1 2 3 4.
  unfold Eff.store_op, Eff.get.
  rewrite find_ok, id_cast. unfold Eff.ret at 1 2. cbn beta iota.
  rewrite stored. reflexivity.
Qed.

End DeleteDress.

(** X10. A stored dress is deleted when the asset host accepts the
    deletion of its images: every image of the dress has been asked to be
    deleted, the dress is gone from the collection, nothing else changed. *)
Theorem delete_dress_removes (env : Eff.Env) (w : Eff.World)
    (id oid : string) (dress : Store.Dress) :
  Eff.store_fault env Eff.DressFindById = None ->
  Odm.castObjectId id = Some oid ->
  Eff.dresses w !! oid = Some dress ->
  Props.host_deletes env (List.map Store.public_id (Store.d_images dress)) ->
  Deletes.delete_dress None id env w
  = (Eff.Ret (Http.ok 200 (Some "Dress deleted successfully") Http.NoData),
     {| Eff.dresses := delete oid (Eff.dresses w);
        Eff.categories := Eff.categories w;
        Eff.users := Eff.users w;
        Eff.destroy_calls :=
          (List.rev (List.map Store.public_id (Store.d_images dress))
           ++ Eff.destroy_calls w)%list;
        Eff.console := Eff.console w |}).
Proof.
  intros Hfind Hcast Hstored Hhost.
  rewrite (delete_dress_found None env w id oid dress Hfind Hcast Hstored).
  unfold Eff.try_catch, Eff.bind, Eff.when.
  unfold Deletes.Dress_findByIdAndDelete, Deletes.store_answer, Odm.cast_id.
  destruct (List.map Store.public_id (Store.d_images dress)) as [|p ps] eqn:Eids.
  - cbn. unfold_eff. rewrite Hcast. reflexivity.
  - cbn [List.length Nat.ltb Nat.leb].
    rewrite (deleteMultiple_accepted env (p :: ps) w Hhost).
    unfold_eff. rewrite Hcast. reflexivity.
Qed.

Lemma delete_dress_removes_witness :
  Deletes.delete_dress None (Store.d_id Sample.abc) Sample2.env Sample2.world
  = (Eff.Ret (Http.ok 200 (Some "Dress deleted successfully") Http.NoData),
     {| Eff.dresses := delete (Store.d_id Sample.abc) (Eff.dresses Sample2.world);
        Eff.categories := Eff.categories Sample2.world;
        Eff.users := Eff.users Sample2.world;
        Eff.destroy_calls :=
          (List.rev (List.map Store.public_id (Store.d_images Sample.abc))
           ++ Eff.destroy_calls Sample2.world)%list;
        Eff.console := Eff.console Sample2.world |}).
Proof.
  apply (delete_dress_removes Sample2.env Sample2.world
           (Store.d_id Sample.abc) (Store.d_id Sample.abc) Sample.abc);
    try reflexivity; try (vm_compute; reflexivity).
Defined.

(** X11. When the asset host rejects the deletion of one of its images,
    the dress stays in the collection: the answer is 500 and the document
    is not deleted, although the deletion of every image has been asked. *)
Theorem delete_dress_host_rejects (delete_fault : option Eff.Err)
    (env : Eff.Env) (w : Eff.World)
    (id oid : string) (dress : Store.Dress) (image : Store.Image) (e : Eff.Err) :
  Eff.store_fault env Eff.DressFindById = None ->
  Odm.castObjectId id = Some oid ->
  Eff.dresses w !! oid = Some dress ->
  In image (Store.d_images dress) ->
  Eff.destroy_fault env (Store.public_id image) = Some e ->
  exists e' w',
    Deletes.delete_dress delete_fault id env w
    = (Eff.Ret (Http.failure_with 500 "Error deleting dress" e'), w')
    /\ Eff.dresses w' = Eff.dresses w
    /\ Eff.destroy_calls w'
       = (List.rev (List.map Store.public_id (Store.d_images dress))
          ++ Eff.destroy_calls w)%list.
Proof.
  intros Hfind Hcast Hstored Hin He.
  rewrite (delete_dress_found delete_fault env w id oid dress Hfind Hcast Hstored).
  assert (Hp : In (Store.public_id image)
                  (List.map Store.public_id (Store.d_images dress)))
    by now apply List.in_map.
  destruct (deleteMultiple_rejected env _ w _ e Hp He) as [e' Hrun].
  unfold Eff.try_catch, Eff.bind, Eff.when, Eff.ret.
  destruct (List.map Store.public_id (Store.d_images dress)) as [|p ps] eqn:Eids;
    [destruct Hp|].
  cbn [List.length Nat.ltb Nat.leb]. rewrite Hrun.
  eexists e', _. split; [reflexivity|]. split; reflexivity.
Qed.

Lemma delete_dress_host_rejects_witness :
  exists e' w',
    Deletes.delete_dress None (Store.d_id Sample.abc)
      Sample.env_host_down Sample2.world
    = (Eff.Ret (Http.failure_with 500 "Error deleting dress" e'), w')
    /\ Eff.dresses w' = Eff.dresses Sample2.world
    /\ Eff.destroy_calls w'
       = (List.rev (List.map Store.public_id (Store.d_images Sample.abc))
          ++ Eff.destroy_calls Sample2.world)%list.
Proof.
  apply (delete_dress_host_rejects None Sample.env_host_down Sample2.world
           (Store.d_id Sample.abc) (Store.d_id Sample.abc) Sample.abc
           Sample.front Sample.host_down);
    try reflexivity; try (vm_compute; reflexivity).
  now left.
Defined.

(** ** The order and the pages of a list *)

Section Sorting.

Variable le : Store.Dress -> Store.Dress -> bool.
Hypothesis le_total : forall a b, le a b = false -> le b a = true.



Lemma insert_by_length (d : Store.Dress) (l : list Store.Dress) :
  List.length (Featured.insert_by le d l) = S (List.length l).
Proof.
  induction l as [|y l IH]; [reflexivity|]. cbn [Featured.insert_by].
  destruct (le d y); cbn [List.length]; congruence.
Qed.

Lemma sort_by_length (l : list Store.Dress) :
  List.length (Featured.sort_by le l) = List.length l.
Proof.
  unfold Featured.sort_by. induction l as [|y l IH]; [reflexivity|].
  cbn [List.fold_right]. rewrite insert_by_length. cbn [List.length]. congruence.
Qed.







End Sorting.






(** ** Numbers written in decimal *)















Lemma ceil_div_as_quotient (total l : Z) :
  (1 <= l)%Z ->
  Js.ceil_div total (Js.Num l) = Js.Num (- ((- total) / l))%Z.
Proof.
  intros Hl. unfold Js.ceil_div. destruct l as [|q|q]; try lia.
  cbn [Z.eqb]. f_equal. unfold Qceiling, Qfloor, Qdiv, Qinv, Qmult, Qopp, inject_Z.
  cbn [Qnum Qden]. now rewrite Z.mul_1_r, Pos.mul_1_l.
Qed.

(** X15. For a numeric limit the page count of a list response is the
    least number of pages of that size that hold the total: one page less
    would not. *)
Theorem page_count_is_least (total : Z) (limit : option string) :
  Props.numeric limit ->
  exists l pages,
    Routes.limitNum limit = Js.Num l
    /\ Js.ceil_div total (Routes.limitNum limit) = Js.Num pages
    /\ ((pages - 1) * l < total <= pages * l)%Z.
Proof.
  intros Hlimit. destruct (limitNum_of_number limit Hlimit) as (l & Hl & Hl1).
  exists l, (- ((- total) / l))%Z. rewrite Hl.
  split; [reflexivity|]. split; [apply ceil_div_as_quotient; lia|].
  pose proof (Z.div_mod (- total) l ltac:(lia)) as Hdm.
  pose proof (Z.mod_pos_bound (- total) l ltac:(lia)) as Hmod.
  nia.
Qed.

Lemma page_count_is_least_witness :
  exists l pages,
    Routes.limitNum (Some "12") = Js.Num l
    /\ Js.ceil_div 30 (Routes.limitNum (Some "12")) = Js.Num pages
    /\ ((pages - 1) * l < 30 <= pages * l)%Z.
Proof.
  apply (page_count_is_least 30 (Some "12")). cbn. discriminate.
Defined.

(** ** Slugs are their own slugs *)

Section SlugAgain.

Import Js Props.

Lemma slug_char_is_lowered (c : ascii) : slug_char c = true -> lower_char c = c.
Proof. destruct c as [[] [] [] [] [] [] [] []]; intros H; reflexivity || discriminate. Qed.

Lemma slug_char_is_kept (c : ascii) :
  slug_char c = true -> (if is_alnum c then c else "-"%char) = c.
Proof. destruct c as [[] [] [] [] [] [] [] []]; intros H; reflexivity || discriminate. Qed.

Lemma toLowerCase_of_slug (s : string) :
  all_chars slug_char s = true -> toLowerCase s = s.
Proof.
  induction s as [|c s IH]; [reflexivity|]. cbn [all_chars toLowerCase].
  intros H. apply andb_prop in H as [Hc Hs].
  now rewrite (slug_char_is_lowered c Hc), (IH Hs).
Qed.

Lemma replace_non_alnum_of_slug (s : string) :
  all_chars slug_char s = true -> replace_non_alnum s = s.
Proof.
  induction s as [|c s IH]; [reflexivity|]. cbn [all_chars replace_non_alnum].
  intros H. apply andb_prop in H as [Hc Hs].
  now rewrite (slug_char_is_kept c Hc), (IH Hs).
Qed.

Lemma collapse_of_single_hyphens (s : string) :
  single_hyphens s = true -> collapse_hyphens s = s.
Proof.
  induction s as [|c s IH]; [reflexivity|]. intros H.
  pose proof (single_hyphens_tail c s H) as Hs. cbn [collapse_hyphens].
  rewrite (IH Hs). destruct (is_hyphen c) eqn:Hc; [|reflexivity].
  destruct s as [|b s]; [reflexivity|].
  cbn [single_hyphens] in H. rewrite Hc in H.
  destruct (is_hyphen b); [discriminate|reflexivity].
Qed.

Lemma strip_leading_of_slug (s : string) :
  starts_with_hyphen s = false -> strip_leading_hyphen s = s.
Proof. destruct s as [|c s]; [reflexivity|]. cbn. now intros ->. Qed.

Lemma strip_trailing_of_slug (s : string) :
  ends_with_hyphen s = false -> strip_trailing_hyphen s = s.
Proof.
  induction s as [|c s IH]; [reflexivity|].
  cbn [ends_with_hyphen strip_trailing_hyphen]. destruct s as [|b s].
  - now intros ->.
  - intros H. now rewrite (IH H).
Qed.

End SlugAgain.

(** X16. The slug of a slug is the slug itself: a category named by the
    slug of another one gets the same slug. *)
Theorem slugify_idempotent (name : string) :
  Model.slugify (Model.slugify name) = Model.slugify name.
Proof.
  destruct (slugify_ok name) as (Ha & Hs & Hh & He).
  set (s := Model.slugify name) in *. unfold Model.slugify at 1.
  rewrite (toLowerCase_of_slug s Ha), (replace_non_alnum_of_slug s Ha),
    (collapse_of_single_hyphens s Hs).
  unfold Js.strip_edge_hyphens.
  now rewrite (strip_leading_of_slug s Hh), (strip_trailing_of_slug s He).
Qed.

(** ** The SKU of a new dress *)

Lemma zeros_then (k : nat) (s : string) :
  String.concat "" (List.repeat "0" k) ++ s = Nat.iter k (String "0") s.
Proof.
  induction k as [|k IH]; [reflexivity|].
  change (Nat.iter (S k) (String "0") s) with (String "0" (Nat.iter k (String "0") s)).
  rewrite <- IH. cbn [List.repeat].
  destruct (List.repeat "0" k); reflexivity.
Qed.

Lemma uint_of_zeros (k : nat) (s : string) (d : Decimal.uint) :
  NilEmpty.uint_of_string s = Some d ->
  Nat.of_uint <$> NilEmpty.uint_of_string (Nat.iter k (String "0") s)
  = Some (Nat.of_uint d).
Proof.
  intros Hs. induction k as [|k IH].
  { change (Nat.iter 0 (String "0") s) with s. now rewrite Hs. }
  change (Nat.iter (S k) (String "0") s) with (String "0" (Nat.iter k (String "0") s)).
  cbn [NilEmpty.uint_of_string].
  destruct (NilEmpty.uint_of_string (Nat.iter k (String "0") s)) as [d'|];
    [|discriminate].
  cbn in *. exact IH.
Qed.

(** X17. The number of a SKU can be read back from its padded text:
    different counts of the collection give different SKUs, and a count
    below 10000 gives exactly four digits. *)
Theorem pad4_reads_back (n : nat) :
  Nat.of_uint <$> NilEmpty.uint_of_string (Odm.pad4 n) = Some n
  /\ (4 <= String.length (Odm.pad4 n))%nat
  /\ (String.length (Odm.pad4 n) = 4
      \/ Odm.pad4 n = NilEmpty.string_of_uint (Nat.to_uint n))%nat.
Proof.
  assert (Hlen : forall k s, String.length (Nat.iter k (String "0") s)
                             = (k + String.length s)%nat).
  { intros k s. induction k as [|k IH]; [reflexivity|].
    change (Nat.iter (S k) (String "0") s) with (String "0" (Nat.iter k (String "0") s)).
    cbn [String.length]. now rewrite IH. }
  unfold Odm.pad4. rewrite zeros_then. split; [|split].
  - rewrite (uint_of_zeros _ _ (Nat.to_uint n)); [|apply NilEmpty.usu].
    now rewrite DecimalNat.Unsigned.of_to.
  - rewrite Hlen. lia.
  - rewrite Hlen.
    destruct (Nat.le_gt_cases 4 (String.length (NilEmpty.string_of_uint (Nat.to_uint n))))
      as [Hge|Hlt].
    + right. replace (4 - _)%nat with 0%nat by lia. reflexivity.
    + left. lia.
Qed.

(** ** The contact number *)

Lemma digit_is_kept (c : ascii) :
  Js.is_digit c = true -> Js.is_space c || Ascii.eqb c "+" = false.
Proof. destruct c as [[] [] [] [] [] [] [] []]; intros H; reflexivity || discriminate. Qed.

Lemma first_digit_is_digit (c : ascii) :
  Js.in_range 49 57 c = true -> Js.is_digit c = true.
Proof. destruct c as [[] [] [] [] [] [] [] []]; intros H; reflexivity || discriminate. Qed.

Lemma cleanNumber_of_digits (s : string) :
  Whatsapp.all_digits s = true -> Whatsapp.cleanNumber s = s.
Proof.
  unfold Whatsapp.all_digits. induction s as [|c s IH]; [reflexivity|].
  cbn [list_ascii_of_string forallb Whatsapp.cleanNumber]. intros H.
  apply andb_prop in H as [Hc Hs]. now rewrite (digit_is_kept c Hc), (IH Hs).
Qed.

Lemma national_is_digits (s : string) :
  Whatsapp.national s = true ->
  Whatsapp.all_digits s = true /\ (2 <= String.length s <= 15)%nat.
Proof.
  destruct s as [|c s]; [discriminate|]. cbn [Whatsapp.national String.length].
  intros H. apply andb_prop in H as [H H3]. apply andb_prop in H as [H H2].
  apply andb_prop in H as [H0 H1].
  apply Nat.leb_le in H2, H3. split; [|lia].
  unfold Whatsapp.all_digits in *. cbn [list_ascii_of_string forallb].
  now rewrite (first_digit_is_digit c H0), H1.
Qed.

(** X18. For a contact number that the schema accepts, the number put
    into the link is the number without its plus sign: 2 to 15 digits and
    nothing else. *)
Theorem valid_number_is_cleaned (v : string) :
  Whatsapp.valid_number v = true ->
  Whatsapp.all_digits (Whatsapp.cleanNumber v) = true
  /\ (2 <= String.length (Whatsapp.cleanNumber v) <= 15)%nat
  /\ (v = Whatsapp.cleanNumber v \/ v = String "+" (Whatsapp.cleanNumber v)).
Proof.
  intros H.
  assert (Hcases : (Whatsapp.national v = true /\ Whatsapp.cleanNumber v = v)
                   \/ exists r, v = String "+" r /\ Whatsapp.national r = true
                                /\ Whatsapp.cleanNumber v = r).
  { destruct v as [|c r]; [discriminate|].
    destruct (Ascii.eqb_spec c "+") as [->|Hc].
    - right. exists r. cbn in H. split; [reflexivity|]. split; [exact H|].
      cbn [Whatsapp.cleanNumber]. cbn.
      now apply cleanNumber_of_digits, national_is_digits.
    - left. assert (Hn : Whatsapp.national (String c r) = true).
      { revert H. unfold Whatsapp.valid_number.
        destruct c as [[] [] [] [] [] [] [] []]; try exact (fun h => h).
        now destruct Hc. }
      split; [exact Hn|]. now apply cleanNumber_of_digits, national_is_digits. }
  destruct Hcases as [[Hn ->] | (r & -> & Hn & ->)];
    destruct (national_is_digits _ Hn) as [Hd Hl];
    (split; [exact Hd|]); (split; [exact Hl|]).
  - now left.
  - now right.
Qed.

Lemma valid_number_is_cleaned_witness :
  Whatsapp.all_digits (Whatsapp.cleanNumber "+911234567890") = true
  /\ (2 <= String.length (Whatsapp.cleanNumber "+911234567890") <= 15)%nat
  /\ ("+911234567890" = Whatsapp.cleanNumber "+911234567890"
      \/ "+911234567890" = String "+" (Whatsapp.cleanNumber "+911234567890")).
Proof.
  apply (valid_number_is_cleaned "+911234567890"). reflexivity.
Defined.

(** ** Deletions in a batch *)

(** X19. A batch deletion asks the asset host for every asset of the
    batch, in order, whether or not the host rejects some of them; it
    touches no collection, and it writes to the console only when it
    fails. *)
Theorem deleteMultiple_asks_for_all (env : Eff.Env) (ps : list string) (w : Eff.World) :
  let '(o, w') := Upload.deleteMultipleFromCloudinary ps env w in
  Eff.destroy_calls w' = (List.rev ps ++ Eff.destroy_calls w)%list
  /\ Props2.same_data w w'
  /\ match o with
     | Eff.Ret _ => Eff.console w' = Eff.console w
     | Eff.Throw _ =>
         Eff.console w'
         = "Error deleting multiple images from Cloudinary:" :: Eff.console w
     end.
Proof.
  unfold Upload.deleteMultipleFromCloudinary, Eff.try_catch, Props2.same_data.
  destruct ps as [|p ps]; [repeat split|].
  pose proof (Promise_all_calls env (p :: ps) w) as Hsnd.
  destruct (Upload.Promise_all (List.map Upload.destroy (p :: ps)) env w) as [[u|e] w'];
    cbn [snd] in Hsnd; subst w'; repeat split.
Qed.

(** ** The featured dresses *)



(** ** What a fetch changes *)

Lemma get_dress_frame (id : string) (env : Eff.Env) (w : Eff.World) :
  let w' := snd (Routes.get_dress id env w) in
  Eff.categories w' = Eff.categories w
  /\ Eff.users w' = Eff.users w
  /\ Eff.destroy_calls w' = Eff.destroy_calls w
  /\ forall k, Props2.without_views <$> (Eff.dresses w' !! k)
               = Props2.without_views <$> (Eff.dresses w !! k).
Proof.
  unfold Routes.get_dress, Odm.Dress_findOne_active, Odm.Dress_inc_views, Odm.cast_id.
  unfold_eff.
  destruct (Eff.store_fault env Eff.DressFindOne); [repeat split|].
  destruct (Odm.castObjectId id) as [oid|]; [|repeat split]. cbn beta iota.
  destruct (Eff.dresses w !! oid) as [d|] eqn:Ed; [|repeat split].
  destruct (Store.d_isActive d); [|repeat split].
  destruct (Eff.store_fault env Eff.Populate); [repeat split|].
  destruct (Eff.store_fault env Eff.DressFindByIdAndUpdate); [repeat split|].
  cbn. repeat split. intros k.
  destruct (decide (k = oid)) as [->|Hne].
  - rewrite lookup_alter_eq, Ed. reflexivity.
  - now rewrite lookup_alter_ne by congruence.
Qed.


(** ** Properties of the collections that the handlers keep *)

Section Preservation.

Import Props2.

Variable I : Eff.World -> Prop.

Lemma preserves_ret {A} (a : A) : preserves I (Eff.ret a).
Proof. intros env w Hw. exact Hw. Qed.

Lemma preserves_throw {A} (e : Eff.Err) : preserves I (@Eff.throw A e).
Proof. intros env w Hw. exact Hw. Qed.

Lemma preserves_bind {A B} (m : Eff.M A) (k : A -> Eff.M B) :
  preserves I m -> (forall a, preserves I (k a)) -> preserves I (Eff.bind m k).
Proof.
  intros Hm Hk env w Hw. unfold Eff.bind. specialize (Hm env w Hw).
  destruct (m env w) as [[a|e] w1]; cbn [snd] in *; [now apply Hk|exact Hm].
Qed.

Lemma preserves_try_catch {A} (m : Eff.M A) (h : Eff.Err -> Eff.M A) :
  preserves I m -> (forall e, preserves I (h e)) -> preserves I (Eff.try_catch m h).
Proof.
  intros Hm Hh env w Hw. unfold Eff.try_catch. specialize (Hm env w Hw).
  destruct (m env w) as [[a|e] w1]; cbn [snd] in *; [exact Hm|now apply Hh].
Qed.

Lemma preserves_readonly {A} (m : Eff.M A) :
  (forall env w, snd (m env w) = w) -> preserves I m.
Proof. intros Hm env w Hw. now rewrite Hm. Qed.

Lemma preserves_same_data {A} (m : Eff.M A) :
  data_only I ->
  (forall env w, Eff.dresses (snd (m env w)) = Eff.dresses w
                 /\ Eff.categories (snd (m env w)) = Eff.categories w) ->
  preserves I m.
Proof. intros HI Hm env w Hw. destruct (Hm env w). now apply (HI w). Qed.

End Preservation.

Lemma store_op_readonly (op : Eff.Op) (env : Eff.Env) (w : Eff.World) :
  snd (Eff.store_op op env w) = w.
Proof. unfold Eff.store_op. now destruct (Eff.store_fault env op). Qed.

Lemma cast_id_readonly (raw : string) (env : Eff.Env) (w : Eff.World) :
  snd (Odm.cast_id raw env w) = w.
Proof. unfold Odm.cast_id. now destruct (Odm.castObjectId raw). Qed.

Lemma Dress_findById_readonly (raw : string) (env : Eff.Env) (w : Eff.World) :
  snd (Odm.Dress_findById raw env w) = w.
Proof.
  unfold Odm.Dress_findById, Odm.cast_id. unfold_eff.
  destruct (Eff.store_fault env Eff.DressFindById); [reflexivity|].
  now destruct (Odm.castObjectId raw).
Qed.

Lemma Category_findById_readonly (raw : string) (env : Eff.Env) (w : Eff.World) :
  snd (Odm.Category_findById raw env w) = w.
Proof.
  unfold Odm.Category_findById, Odm.cast_id. unfold_eff.
  destruct (Eff.store_fault env Eff.CategoryFindById); [reflexivity|].
  now destruct (Odm.castObjectId raw).
Qed.

Lemma Dress_countDocuments_readonly (f : Store.Dress -> bool) (env : Eff.Env)
    (w : Eff.World) :
  snd (Odm.Dress_countDocuments f env w) = w.
Proof.
  unfold Odm.Dress_countDocuments. unfold_eff.
  now destruct (Eff.store_fault env Eff.DressCountDocuments).
Qed.

Lemma populate_readonly (d : Store.Dress) (env : Eff.Env) (w : Eff.World) :
  snd (Odm.populate d env w) = w.
Proof.
  unfold Odm.populate. unfold_eff. now destruct (Eff.store_fault env Eff.Populate).
Qed.

Lemma deleteFromCloudinary_same_data (p : string) (env : Eff.Env) (w : Eff.World) :
  Eff.dresses (snd (Upload.deleteFromCloudinary p env w)) = Eff.dresses w
  /\ Eff.categories (snd (Upload.deleteFromCloudinary p env w)) = Eff.categories w.
Proof.
  unfold Upload.deleteFromCloudinary, Upload.destroy. unfold_eff.
  now destruct (Eff.destroy_fault env p).
Qed.

Lemma deleteMultiple_same_data (ps : list string) (env : Eff.Env) (w : Eff.World) :
  Eff.dresses (snd (Upload.deleteMultipleFromCloudinary ps env w)) = Eff.dresses w
  /\ Eff.categories (snd (Upload.deleteMultipleFromCloudinary ps env w))
     = Eff.categories w.
Proof.
  unfold Upload.deleteMultipleFromCloudinary, Eff.try_catch.
  destruct ps as [|p ps]; [now split|].
  pose proof (Promise_all_calls env (p :: ps) w) as Hsnd.
  destruct (Upload.Promise_all (List.map Upload.destroy (p :: ps)) env w) as [[u|e] w'];
    cbn [snd] in *; subst w'; now split.
Qed.

Lemma dresses_ok_data_only : Props2.data_only Props2.dresses_ok.
Proof. intros w w' Hd _ Hw k d. rewrite Hd. apply Hw. Qed.

Lemma categories_ok_data_only : Props2.data_only Props2.categories_ok.
Proof.
  intros w w' _ Hc [H1 H2]. split.
  - intros k c. rewrite Hc. apply H1.
  - intros k1 c1 k2 c2. rewrite Hc. apply H2.
Qed.

Lemma dresses_ok_insert (w : Eff.World) (d : Store.Dress) :
  Props2.dresses_ok w ->
  Store.d_images d <> [] -> Model.price_valid (Store.d_price d) = true ->
  Props2.dresses_ok (Eff.set_dresses w (<[Store.d_id d := d]> (Eff.dresses w))).
Proof.
  intros Hw Hi Hp k x. cbn [Eff.set_dresses Eff.dresses].
  destruct (decide (k = Store.d_id d)) as [->|Hne].
  - rewrite lookup_insert_eq. intros [= <-]. now repeat split.
  - rewrite lookup_insert_ne by congruence. apply Hw.
Qed.

Lemma dress_valid_price (d : Store.Dress) :
  Odm.dress_valid d = true -> Model.price_valid (Store.d_price d) = true.
Proof.
  unfold Odm.dress_valid. intros H.
  repeat (apply andb_prop in H as [H ?]). assumption.
Qed.

Lemma dress_pre_save_spec (isNew : bool) (d : Store.Dress) (env : Eff.Env)
    (w : Eff.World) :
  snd (Odm.dress_pre_save isNew d env w) = w
  /\ forall d', fst (Odm.dress_pre_save isNew d env w) = Eff.Ret d' ->
                Store.d_id d' = Store.d_id d
                /\ Store.d_images d' = Store.d_images d
                /\ Store.d_price d' = Store.d_price d
                /\ (isNew = false -> d' = d).
Proof.
  unfold Odm.dress_pre_save. unfold_eff.
  destruct (Store.d_sku d) as [s|]; [destruct (Js.truthy_str s)|];
    destruct isNew; try destruct (Eff.store_fault env Eff.DressCountDocuments);
    cbn; (split; [reflexivity|]); intros d' [= <-]; repeat split; congruence.
Qed.

Lemma Dress_save_preserves (isNew : bool) (d : Store.Dress) :
  Store.d_images d <> [] ->
  Props2.preserves Props2.dresses_ok (Odm.Dress_save isNew d).
Proof.
  intros Hi env w Hw. unfold Odm.Dress_save, Eff.bind.
  destruct (Odm.dress_valid d) eqn:Ev; [|exact Hw].
  pose proof (dress_valid_price d Ev) as Hp.
  unfold Eff.ret at 1.
  destruct (dress_pre_save_spec isNew d env w) as [Hsnd Hfst].
  destruct (Odm.dress_pre_save isNew d env w) as [[d'|e] w1];
    cbn [snd fst] in *; subst w1; [|exact Hw].
  destruct (Hfst d' eq_refl) as (Hid & Him & Hpr & _).
  unfold Eff.store_op, Eff.get, Eff.put, Eff.ret.
  destruct (Eff.store_fault env Eff.DressSave); [exact Hw|]. cbn [snd].
  apply dresses_ok_insert; [exact Hw|congruence|congruence].
Qed.

Lemma post_dress_preserves (body : Routes.DressBody) :
  Props2.preserves Props2.dresses_ok (Routes.post_dress body).
Proof.
  unfold Routes.post_dress. apply preserves_try_catch.
  - destruct (Routes.b_images body) as [[|i imgs]|]; try apply preserves_ret.
    destruct (Routes.parse_field (Routes.b_price body)) as [price|];
      [|apply preserves_ret].
    destruct (Routes.parse_field (Routes.b_tags body)) as [tags|];
      [|apply preserves_ret].
    apply preserves_bind; [now apply preserves_readonly|]. intros env0.
    apply preserves_bind.
    + destruct (Routes.new_dress env0 body price tags (i :: imgs)) as [d|] eqn:Ed;
        [|apply preserves_throw].
      apply Dress_save_preserves. unfold Routes.new_dress in Ed.
      destruct price; [|discriminate]. injection Ed as <-. discriminate.
    + intros saved. apply preserves_bind; [|intros; apply preserves_ret].
      apply preserves_readonly, populate_readonly.
  - intros error. apply preserves_bind; [|intros; apply preserves_ret].
    destruct (Routes.b_images body); [|apply preserves_ret].
    apply preserves_same_data; [apply dresses_ok_data_only|].
    intros env w. apply deleteMultiple_same_data.
Qed.

Lemma put_dress_preserves (id : string) (body : Routes.DressBody) :
  Props2.preserves Props2.dresses_ok (Routes.put_dress id body).
Proof.
  unfold Routes.put_dress. apply preserves_try_catch.
  - apply preserves_bind; [apply preserves_readonly, Dress_findById_readonly|].
    intros [dress|]; [|apply preserves_ret].
    destruct (Routes.parse_field_if_set (Routes.b_price body)) as [price|];
      [|apply preserves_ret].
    destruct (Routes.parse_field_if_set (Routes.b_tags body)) as [tags|];
      [|apply preserves_ret].
    destruct (Routes.parse_field_if_set (Routes.b_removeImages body)) as [removed|];
      [|apply preserves_ret].
    apply preserves_bind.
    + destruct removed as [[|r rs]|]; try apply preserves_ret.
      apply preserves_bind; [|intros; apply preserves_ret].
      apply preserves_same_data; [apply dresses_ok_data_only|].
      intros env w. apply deleteMultiple_same_data.
    + intros d2.
      set (d3 := match Routes.b_newImages body with
                 | Some ((_ :: _) as newImages) =>
                     Store.set_images d2 (Store.d_images d2 ++ newImages)
                 | _ => d2
                 end).
      destruct (List.length (Store.d_images d3) =? 0)%nat eqn:E;
        [apply preserves_ret|].
      apply preserves_bind.
      * apply Dress_save_preserves. intros H. rewrite H in E. discriminate.
      * intros updated. apply preserves_bind; [|intros; apply preserves_ret].
        apply preserves_readonly, populate_readonly.
  - intros error. apply preserves_bind; [|intros; apply preserves_ret].
    destruct (Routes.b_newImages body); [|apply preserves_ret].
    apply preserves_same_data; [apply dresses_ok_data_only|].
    intros env w. apply deleteMultiple_same_data.
Qed.

Lemma get_dress_preserves (id : string) :
  Props2.preserves Props2.dresses_ok (Routes.get_dress id).
Proof.
  intros env w Hw k d Hd.
  destruct (get_dress_frame id env w) as (_ & _ & _ & Hsame).
  specialize (Hsame k). rewrite Hd in Hsame. cbn in Hsame.
  destruct (Eff.dresses w !! k) as [d0|] eqn:E0; [|discriminate].
  destruct (Hw k d0 E0) as (Hid & Him & Hpr).
  injection Hsame as Hsame. repeat split; congruence.
Qed.

Lemma delete_dress_preserves (delete_fault : option Eff.Err) (id : string) :
  Props2.preserves Props2.dresses_ok (Deletes.delete_dress delete_fault id).
Proof.
  unfold Deletes.delete_dress. apply preserves_try_catch;
    [|intros; apply preserves_ret].
  apply preserves_bind; [apply preserves_readonly, Dress_findById_readonly|].
  intros [dress|]; [|apply preserves_ret].
  apply preserves_bind.
  - unfold Eff.when. destruct (0 <? _)%nat; [|apply preserves_ret].
    apply preserves_same_data; [apply dresses_ok_data_only|].
    intros env w. apply deleteMultiple_same_data.
  - intros _. apply preserves_bind; [|intros; apply preserves_ret].
    intros env w Hw. unfold Deletes.Dress_findByIdAndDelete, Deletes.store_answer,
      Odm.cast_id. unfold_eff.
    destruct delete_fault; [exact Hw|].
    destruct (Odm.castObjectId id) as [oid|]; [|exact Hw].
    cbn. intros k d Hd. cbn [Eff.set_dresses Eff.dresses] in Hd.
    apply lookup_delete_Some in Hd as [_ Hd]. now apply Hw.
Qed.

(** X22. The handlers keep the collection of dresses well formed: if
    every dress is stored under its own id, has at least one image and has
    a price that the schema accepts (a discounted price, when set, not
    above the original one), then the same holds after a create, an update,
    a fetch or a deletion, whatever the request and whatever the store and
    the asset host answer. *)
Theorem dress_handlers_keep_collection_ok (env : Eff.Env) (w : Eff.World)
    (id : string) (body : Routes.DressBody) (delete_fault : option Eff.Err) :
  Props2.dresses_ok w ->
  Props2.dresses_ok (snd (Routes.post_dress body env w))
  /\ Props2.dresses_ok (snd (Routes.put_dress id body env w))
  /\ Props2.dresses_ok (snd (Routes.get_dress id env w))
  /\ Props2.dresses_ok (snd (Deletes.delete_dress delete_fault id env w)).
Proof.
  intros Hw. split; [|split; [|split]].
  - exact (post_dress_preserves body env w Hw).
  - exact (put_dress_preserves id body env w Hw).
  - exact (get_dress_preserves id env w Hw).
  - exact (delete_dress_preserves delete_fault id env w Hw).
Qed.

Lemma dress_handlers_keep_collection_ok_witness :
  Props2.dresses_ok (snd (Routes.post_dress Sample2.gown Sample2.env Sample2.world))
  /\ Props2.dresses_ok
       (snd (Routes.put_dress (Store.d_id Sample.abc) Sample2.gown
               Sample2.env Sample2.world))
  /\ Props2.dresses_ok
       (snd (Routes.get_dress (Store.d_id Sample.abc) Sample2.env Sample2.world))
  /\ Props2.dresses_ok
       (snd (Deletes.delete_dress None (Store.d_id Sample.abc)
               Sample2.env Sample2.world)).
Proof.
  apply (dress_handlers_keep_collection_ok Sample2.env Sample2.world
           (Store.d_id Sample.abc) Sample2.gown None).
  intros k d Hd. unfold Sample2.world in Hd. cbn [Eff.dresses] in Hd.
  apply lookup_singleton_Some in Hd as [<- <-]. repeat split. discriminate.
Defined.

Lemma first_match_none_inv {A} (p : A -> bool) (m : gmap string A) (k : string) (a : A) :
  Odm.first_match p m = None -> m !! k = Some a -> p a = false.
Proof.
  unfold Odm.first_match. intros Hnone Hk.
  apply (List.find_none _ _ Hnone). apply values_of_collection. eauto.
Qed.

Lemma categories_ok_insert (w : Eff.World) (c : Model.Category) :
  Props2.categories_ok w ->
  Model.cat_slug c = Model.slugify (Model.cat_name c) ->
  Odm.first_match
    (fun o => negb (String.eqb (Model.cat_id o) (Model.cat_id c))
              && (String.eqb (Model.cat_name o) (Model.cat_name c)
                  || String.eqb (Model.cat_slug o) (Model.cat_slug c)))
    (Eff.categories w) = None ->
  Props2.categories_ok
    (Eff.set_categories w (<[Model.cat_id c := c]> (Eff.categories w))).
Proof.
  intros [Hkey Huniq] Hslug Hfree.
  assert (Hother : forall k o, Eff.categories w !! k = Some o -> k <> Model.cat_id c ->
                     Model.cat_name o <> Model.cat_name c
                     /\ Model.cat_slug o <> Model.cat_slug c).
  { intros k o Ho Hne. pose proof (first_match_none_inv _ _ k o Hfree Ho) as Hp.
    cbn beta in Hp. destruct (Hkey k o Ho) as [Hid _]. subst k.
    destruct (String.eqb_spec (Model.cat_id o) (Model.cat_id c)) as [E|_];
      [contradiction|].
    cbn [negb andb] in Hp. apply orb_false_iff in Hp as [H1 H2].
    split; now apply String.eqb_neq. }
  split; cbn [Eff.set_categories Eff.categories].
  - intros k x. destruct (decide (k = Model.cat_id c)) as [->|Hne].
    + rewrite lookup_insert_eq. intros [= <-]. now split.
    + rewrite lookup_insert_ne by congruence. apply Hkey.
  - intros k1 c1 k2 c2.
    destruct (decide (k1 = Model.cat_id c)) as [->|Hne1];
      destruct (decide (k2 = Model.cat_id c)) as [->|Hne2];
      rewrite ?lookup_insert_eq, ?lookup_insert_ne by congruence;
      try reflexivity.
    + intros [= <-] H2 Heq. destruct (Hother k2 c2 H2 Hne2). destruct Heq; congruence.
    + intros H1 [= <-] Heq. destruct (Hother k1 c1 H1 Hne1). destruct Heq; congruence.
    + apply Huniq.
Qed.

Lemma Category_save_preserves (name_modified : bool) (c : Model.Category) :
  (name_modified = false -> Model.cat_slug c = Model.slugify (Model.cat_name c)) ->
  Props2.preserves Props2.categories_ok (Odm.Category_save name_modified c).
Proof.
  intros Hslug env w Hw. unfold Odm.Category_save. unfold_eff.
  destruct (Model.category_valid c); [|exact Hw].
  destruct (Eff.store_fault env Eff.CategorySave); [exact Hw|]. cbn beta iota.
  destruct (Odm.first_match _ (Eff.categories w)) eqn:Ef; [exact Hw|].
  cbn [snd]. apply categories_ok_insert; [exact Hw| |exact Ef].
  destruct name_modified; [reflexivity|]. now apply Hslug.
Qed.

Lemma post_category_preserves (body : Routes.CategoryBody) :
  Props2.preserves Props2.categories_ok (Routes.post_category body).
Proof.
  unfold Routes.post_category. apply preserves_try_catch.
  - destruct (Routes.cb_imageUrl body) as [imageUrl|]; [|apply preserves_ret].
    destruct (Routes.cb_public_id body) as [public_id|]; [|apply preserves_ret].
    destruct (_ || _); [apply preserves_ret|].
    apply preserves_bind; [now apply preserves_readonly|]. intros env0.
    apply preserves_bind; [|intros; apply preserves_ret].
    intros env w Hw. unfold Odm.Category_save. unfold_eff.
    destruct (Model.category_valid _) eqn:Ev; [|exact Hw].
    destruct (Eff.store_fault env Eff.CategorySave); [exact Hw|]. cbn beta iota.
    destruct (Odm.first_match _ (Eff.categories w)) eqn:Ef; [exact Hw|].
    cbn [snd]. apply categories_ok_insert; [exact Hw| |exact Ef].
    destruct (Routes.missing (Routes.cb_name body)) eqn:Em; [|reflexivity].
    exfalso. revert Ev. unfold Model.category_valid, Routes.new_category.
    cbn [Model.cat_name]. unfold Routes.missing in Em.
    destruct (Routes.cb_name body) as [n|]; [|discriminate].
    apply negb_true_iff in Em. unfold Js.truthy_str in Em.
    apply negb_false_iff, String.eqb_eq in Em. subst n. discriminate.
  - intros error. apply preserves_bind.
    + destruct (Routes.cb_public_id body) as [p|]; [|apply preserves_ret].
      unfold Eff.when. destruct (Js.truthy_str p); [|apply preserves_ret].
      apply preserves_same_data; [apply categories_ok_data_only|].
      intros env w. apply deleteFromCloudinary_same_data.
    + intros _. destruct (bool_decide _); apply preserves_ret.
Qed.

Lemma put_category_preserves (id : string) (body : Routes.CategoryBody) :
  Props2.preserves Props2.categories_ok (Routes.put_category id body).
Proof.
  unfold Routes.put_category. apply preserves_try_catch.
  - intros env w Hw. unfold Eff.bind at 1.
    pose proof (Category_findById_readonly id env w) as Hro.
    assert (Hfound : forall c, fst (Odm.Category_findById id env w) = Eff.Ret (Some c) ->
                       Model.cat_slug c = Model.slugify (Model.cat_name c)).
    { intros c. unfold Odm.Category_findById, Odm.cast_id. unfold_eff.
      destruct (Eff.store_fault env Eff.CategoryFindById); [discriminate|].
      destruct (Odm.castObjectId id) as [oid|]; [|discriminate]. cbn.
      intros [= Hc]. destruct Hw as [Hkey _]. now destruct (Hkey oid c Hc). }
    destruct (Odm.Category_findById id env w) as [[[category|]|e] w1];
      cbn [fst snd] in *; subst w1; try exact Hw.
    specialize (Hfound category eq_refl). revert env w Hw.
    change (Props2.preserves Props2.categories_ok
              (Eff.bind
                 (match Routes.cb_imageUrl body, Routes.cb_public_id body with
                  | Some imageUrl, Some public_id =>
                      if Js.truthy_str imageUrl && Js.truthy_str public_id
                      then
                        Eff.bind
                          (Upload.deleteFromCloudinary
                             (Model.cat_image_public_id category))
                          (fun _ =>
                             Eff.ret
                               (Routes.set_category_image
                                  (Routes.set_category_fields category body)
                                  imageUrl public_id))
                      else Eff.ret (Routes.set_category_fields category body)
                  | _, _ => Eff.ret (Routes.set_category_fields category body)
                  end)
                 (fun c2 =>
                    Eff.bind
                      (Odm.Category_save
                         (negb (String.eqb (Model.cat_name c2) (Model.cat_name category)))
                         c2)
                      (fun updated =>
                         Eff.ret (Http.ok 200 (Some "Category updated successfully")
                                    (Http.CategoryData updated)))))).
    intros env w Hw. unfold Eff.bind at 1.
    set (step := match Routes.cb_imageUrl body, Routes.cb_public_id body with
                 | Some imageUrl, Some public_id => _
                 | _, _ => _
                 end).
    assert (Hstep : (Eff.dresses (snd (step env w)) = Eff.dresses w
                     /\ Eff.categories (snd (step env w)) = Eff.categories w)
                    /\ forall c2, fst (step env w) = Eff.Ret c2 ->
                         Model.cat_slug c2 = Model.cat_slug category
                         /\ (Model.cat_name c2 = Model.cat_name category
                             \/ Model.cat_name c2 <> Model.cat_name category)).
    { assert (Hdec : forall c2 : Model.Category,
                 Model.cat_name c2 = Model.cat_name category
                 \/ Model.cat_name c2 <> Model.cat_name category).
      { intros c2. destruct (String.eqb_spec (Model.cat_name c2) (Model.cat_name category));
          tauto. }
      subst step.
      destruct (Routes.cb_imageUrl body) as [u|], (Routes.cb_public_id body) as [p|];
        try (split; [now split|]; intros c2 [= <-]; split; [reflexivity|apply Hdec]).
      destruct (Js.truthy_str u && Js.truthy_str p);
        [|split; [now split|]; intros c2 [= <-]; split; [reflexivity|apply Hdec]].
      unfold Eff.bind, Eff.ret.
      pose proof (deleteFromCloudinary_same_data
                    (Model.cat_image_public_id category) env w) as Hsame.
      destruct (Upload.deleteFromCloudinary (Model.cat_image_public_id category) env w)
        as [[u0|e0] w1]; cbn [fst snd] in *;
        (split; [exact Hsame|]); [|discriminate].
      intros c2 [= <-]. split; [reflexivity|apply Hdec]. }
    destruct Hstep as [[Hd Hc] Hc2].
    destruct (step env w) as [[c2|e] w1]; cbn [fst snd] in *;
      [|now apply (categories_ok_data_only w)].
    destruct (Hc2 c2 eq_refl) as [Hs _].
    apply preserves_bind; [|intros; apply preserves_ret|
                           now apply (categories_ok_data_only w)].
    apply Category_save_preserves. intros Hnm.
    apply negb_false_iff, String.eqb_eq in Hnm. now rewrite Hs, Hnm.
  - intros error. apply preserves_bind; [|intros; apply preserves_ret].
    destruct (Routes.cb_public_id body) as [p|]; [|apply preserves_ret].
    unfold Eff.when. destruct (Js.truthy_str p); [|apply preserves_ret].
    apply preserves_same_data; [apply categories_ok_data_only|].
    intros env w. apply deleteFromCloudinary_same_data.
Qed.

Lemma delete_category_preserves (delete_fault : option Eff.Err) (id : string) :
  Props2.preserves Props2.categories_ok (Deletes.delete_category delete_fault id).
Proof.
  unfold Deletes.delete_category. apply preserves_try_catch;
    [|intros; apply preserves_ret].
  apply preserves_bind; [apply preserves_readonly, Category_findById_readonly|].
  intros [category|]; [|apply preserves_ret].
  apply preserves_bind; [apply preserves_readonly, cast_id_readonly|]. intros oid.
  apply preserves_bind; [apply preserves_readonly, Dress_countDocuments_readonly|].
  intros n. destruct (0 <? n)%Z; [apply preserves_ret|].
  apply preserves_bind.
  - apply preserves_same_data; [apply categories_ok_data_only|].
    intros env w. apply deleteFromCloudinary_same_data.
  - intros _. apply preserves_bind; [|intros; apply preserves_ret].
    intros env w [Hkey Huniq].
    unfold Deletes.Category_findByIdAndDelete, Deletes.store_answer, Odm.cast_id.
    unfold_eff. destruct delete_fault; [now split|].
    destruct (Odm.castObjectId id) as [o|]; [|now split].
    cbn. split; cbn [Eff.set_categories Eff.categories].
    + intros k c Hc. apply lookup_delete_Some in Hc as [_ Hc]. now apply Hkey.
    + intros k1 c1 k2 c2 H1 H2. apply lookup_delete_Some in H1 as [_ H1].
      apply lookup_delete_Some in H2 as [_ H2]. now apply Huniq.
Qed.

(** X23. The handlers keep the collection of categories well formed: if
    every category is stored under its own id with the slug of its name,
    and no two categories share a name or a slug, then the same holds after
    a create, an update or a deletion, whatever the request and whatever
    the store and the asset host answer. *)
Theorem category_handlers_keep_collection_ok (env : Eff.Env) (w : Eff.World)
    (id : string) (body : Routes.CategoryBody) (delete_fault : option Eff.Err) :
  Props2.categories_ok w ->
  Props2.categories_ok (snd (Routes.post_category body env w))
  /\ Props2.categories_ok (snd (Routes.put_category id body env w))
  /\ Props2.categories_ok (snd (Deletes.delete_category delete_fault id env w)).
Proof.
  intros Hw. split; [|split].
  - exact (post_category_preserves body env w Hw).
  - exact (put_category_preserves id body env w Hw).
  - exact (delete_category_preserves delete_fault id env w Hw).
Qed.

Lemma category_handlers_keep_collection_ok_witness :
  Props2.categories_ok (snd (Routes.post_category Sample2.spring Sample.env Sample.world))
  /\ Props2.categories_ok
       (snd (Routes.put_category (Model.cat_id Sample.summer) Sample2.spring
               Sample.env Sample.world))
  /\ Props2.categories_ok
       (snd (Deletes.delete_category None (Model.cat_id Sample.summer)
               Sample.env Sample.world)).
Proof.
  apply (category_handlers_keep_collection_ok Sample.env Sample.world
           (Model.cat_id Sample.summer) Sample2.spring None).
  split.
  - intros k c Hc. unfold Sample.world in Hc. cbn [Eff.categories] in Hc.
    apply lookup_singleton_Some in Hc as [<- <-]. split; reflexivity.
  - intros k1 c1 k2 c2 H1 H2 _. unfold Sample.world in H1, H2.
    cbn [Eff.categories] in H1, H2.
    apply lookup_singleton_Some in H1 as [<- _].
    apply lookup_singleton_Some in H2 as [<- _]. reflexivity.
Defined.

(** ** Creating, then reading *)






(** ** What an update keeps *)

Lemma bind_ret_inv {A B} (m : Eff.M A) (k : A -> Eff.M B) (env : Eff.Env)
    (w w' : Eff.World) (b : B) :
  Eff.bind m k env w = (Eff.Ret b, w') ->
  exists a w1, m env w = (Eff.Ret a, w1) /\ k a env w1 = (Eff.Ret b, w').
Proof.
  unfold Eff.bind. destruct (m env w) as [[a|e] w1]; [eauto|discriminate].
Qed.

Lemma try_catch_success (m : Eff.M Http.Response) (h : Eff.Err -> Eff.M Http.Response)
    (env : Eff.Env) (w w' : Eff.World) (r : Http.Response) :
  (forall e w0 r0 w1, h e env w0 = (Eff.Ret r0, w1) -> Http.success r0 = false) ->
  Eff.try_catch m h env w = (Eff.Ret r, w') -> Http.success r = true ->
  m env w = (Eff.Ret r, w').
Proof.
  intros Hh. unfold Eff.try_catch. destruct (m env w) as [[a|e] w1]; [easy|].
  intros Hrun Hr. rewrite (Hh e w1 r w' Hrun) in Hr. discriminate.
Qed.

Lemma Dress_findById_inv (raw : string) (env : Eff.Env) (w w1 : Eff.World)
    (found : option Store.Dress) :
  Odm.Dress_findById raw env w = (Eff.Ret found, w1) ->
  w1 = w /\ exists oid, Odm.castObjectId raw = Some oid /\ found = Eff.dresses w !! oid.
Proof.
  unfold Odm.Dress_findById, Odm.cast_id. unfold_eff.
  destruct (Eff.store_fault env Eff.DressFindById); [discriminate|].
  destruct (Odm.castObjectId raw) as [oid|]; [|discriminate].
  cbn. intros [= <- <-]. eauto.
Qed.

Lemma Dress_save_update_inv (d d' : Store.Dress) (env : Eff.Env) (w w' : Eff.World) :
  Odm.Dress_save false d env w = (Eff.Ret d', w') ->
  d' = d /\ w' = Eff.set_dresses w (<[Store.d_id d := d]> (Eff.dresses w)).
Proof.
  unfold Odm.Dress_save, Eff.bind.
  destruct (Odm.dress_valid d); [|discriminate]. unfold Eff.ret at 1.
  destruct (dress_pre_save_spec false d env w) as [Hsnd Hfst].
  destruct (Odm.dress_pre_save false d env w) as [[d0|e] w1];
    cbn [snd fst] in *; [|discriminate]. subst w1.
  destruct (Hfst d0 eq_refl) as (_ & _ & _ & Hsame). rewrite (Hsame eq_refl).
  unfold Eff.store_op, Eff.get, Eff.put, Eff.ret.
  destruct (Eff.store_fault env Eff.DressSave); [discriminate|].
  now intros [= <- <-].
Qed.

Lemma populate_inv (d d' : Store.Dress) (env : Eff.Env) (w w' : Eff.World) :
  Odm.populate d env w = (Eff.Ret d', w') -> d' = d /\ w' = w.
Proof.
  unfold Odm.populate. unfold_eff.
  destruct (Eff.store_fault env Eff.Populate); [discriminate|]. now intros [= <- <-].
Qed.

(** X26. An update that is answered with success has replaced the stored
    dress by one with the same id, SKU, views and creation time, whose
    images are the stored ones without the removed ones, followed by the new
    ones, at least one in all; no other dress changed. *)
Theorem updated_dress_keeps_identity (env : Eff.Env) (w w' : Eff.World)
    (id : string) (body : Routes.DressBody) (r : Http.Response) :
  Routes.put_dress id body env w = (Eff.Ret r, w') ->
  Http.success r = true ->
  exists oid old new,
    Odm.castObjectId id = Some oid
    /\ Eff.dresses w !! oid = Some old
    /\ r = Http.ok 200 (Some "Dress updated successfully") (Http.DressData new)
    /\ Eff.dresses w' = <[Store.d_id old := new]> (Eff.dresses w)
    /\ Store.d_id new = Store.d_id old
    /\ Store.d_sku new = Store.d_sku old
    /\ Store.d_views new = Store.d_views old
    /\ Store.d_createdAt new = Store.d_createdAt old
    /\ Store.d_images new = Props.requested_images old body
    /\ Store.d_images new <> [].
Proof.
  intros Hrun Hr. unfold Routes.put_dress in Hrun.
  apply try_catch_success in Hrun; [|clear; intros e w0 r0 w1 H|exact Hr].
  2:{ apply bind_ret_inv in H as (u & w2 & _ & H). now injection H as <- _. }
  apply bind_ret_inv in Hrun as (found & w1 & Hfind & Hrun).
  apply Dress_findById_inv in Hfind as (-> & oid & Hcast & ->).
  destruct (Eff.dresses w !! oid) as [old|] eqn:Eold;
    [|injection Hrun as <- _; discriminate].
  destruct (Routes.parse_field_if_set (Routes.b_price body)) as [price|];
    [|injection Hrun as <- _; discriminate].
  destruct (Routes.parse_field_if_set (Routes.b_tags body)) as [tags|];
    [|injection Hrun as <- _; discriminate].
  destruct (Routes.parse_field_if_set (Routes.b_removeImages body)) as [removed|] eqn:Erem;
    [|injection Hrun as <- _; discriminate].
  apply bind_ret_inv in Hrun as (d2 & w2 & Hstep & Hrun).
  set (d1 := Routes.set_dress_fields old body price tags) in *.
  assert (Hd2 : Eff.dresses w2 = Eff.dresses w
                /\ d2 = Store.set_images d1
                          (Routes.remaining_images
                             (match Routes.b_removeImages body with
                              | Routes.Given rm => rm
                              | _ => []
                              end)
                             (Store.d_images old))).
  { assert (Hkeep : Store.set_images d1 (Store.d_images old) = d1) by reflexivity.
    destruct (Routes.b_removeImages body) as [| |rm|]; cbn in Erem;
      try discriminate; injection Erem as <-.
    - injection Hstep as <- <-. now rewrite remaining_images_none_removed.
    - injection Hstep as <- <-. now rewrite remaining_images_none_removed.
    - destruct rm as [|x rm].
      + injection Hstep as <- <-. now rewrite remaining_images_none_removed.
      + apply bind_ret_inv in Hstep as (u & w3 & Hdel & Hstep).
        injection Hstep as <- <-.
        pose proof (deleteMultiple_same_data (x :: rm) env w) as [Hsame _].
        rewrite Hdel in Hsame. now split. }
  destruct Hd2 as [Hw2 ->].
  set (kept := Routes.remaining_images _ (Store.d_images old)) in *.
  set (d3 := match Routes.b_newImages body with
             | Some ((_ :: _) as newImages) => _
             | _ => _
             end) in *.
  assert (Hd3 : d3 = Store.set_images d1 (kept ++ default [] (Routes.b_newImages body))).
  { subst d3. destruct (Routes.b_newImages body) as [[|n ns]|]; cbn [default];
      rewrite ?List.app_nil_r; reflexivity. }
  destruct (List.length (Store.d_images d3) =? 0)%nat eqn:Elen;
    [injection Hrun as <- _; discriminate|].
  apply bind_ret_inv in Hrun as (updated & w3 & Hsave & Hrun).
  apply bind_ret_inv in Hrun as (populated & w4 & Hpop & Hrun).
  apply Dress_save_update_inv in Hsave as [-> ->].
  apply populate_inv in Hpop as [-> ->]. injection Hrun as <- <-.
  exists oid, old, d3. split; [exact Hcast|]. split; [exact Eold|].
  split; [reflexivity|]. rewrite Hd3 in *. cbn [Eff.set_dresses Eff.dresses].
  rewrite Hw2. repeat split.
  intros Hnil. cbn [Store.set_images Store.d_images] in Elen.
  change (Store.d_images (Store.set_images d1 (kept ++ default [] (Routes.b_newImages body))))
    with (kept ++ default [] (Routes.b_newImages body))%list in Hnil.
  rewrite Hnil in Elen. discriminate.
Qed.

Lemma updated_dress_keeps_identity_witness :
  exists oid old new,
    Odm.castObjectId (Store.d_id Sample.abc) = Some oid
    /\ Eff.dresses Sample2.world !! oid = Some old
    /\ Http.ok 200 (Some "Dress updated successfully")
         (Http.DressData
            (Store.set_images
               (Routes.set_dress_fields Sample.abc Sample2.swap_front None None)
               [Sample.back; Sample.sleeve]))
       = Http.ok 200 (Some "Dress updated successfully") (Http.DressData new)
    /\ Eff.dresses
         (snd (Routes.put_dress (Store.d_id Sample.abc) Sample2.swap_front
                 Sample2.env Sample2.world))
       = <[Store.d_id old := new]> (Eff.dresses Sample2.world)
    /\ Store.d_id new = Store.d_id old
    /\ Store.d_sku new = Store.d_sku old
    /\ Store.d_views new = Store.d_views old
    /\ Store.d_createdAt new = Store.d_createdAt old
    /\ Store.d_images new = Props.requested_images old Sample2.swap_front
    /\ Store.d_images new <> [].
Proof.
  apply (updated_dress_keeps_identity Sample2.env Sample2.world
           (snd (Routes.put_dress (Store.d_id Sample.abc) Sample2.swap_front
                   Sample2.env Sample2.world))
           (Store.d_id Sample.abc) Sample2.swap_front).
  - vm_compute. reflexivity.
  - reflexivity.
Defined.
